(** * Verification of [tools.py]: experiment artifact store and job-file generator

    The development embeds the utility functions of [tools.py] in Rocq and
    proves the properties its specification states about them.

    The Python code is effectful: it reads and writes the filesystem, copies
    and mutates dictionaries, and raises exceptions.  The embedding therefore
    runs in a small state-and-exception monad over a program state made of

    - a heap of dictionary objects, addressed by references, so that aliasing
      and in-place mutation ([dict.pop], item assignment) are visible, and
    - a filesystem, a finite map from resolved paths to directories and files.

    Modelling conventions, fixed once here:

    - The module runs under Python 2 and under Python 3, and the two differ
      where [save_hparams] writes: [json.dump] produces text, which a file
      opened with mode ['wb'] accepts under Python 2 and refuses with
      [TypeError] under Python 3 (3.6 or later is meant, where [json.load]
      reads a file opened in binary mode).  The interpreter is a parameter
      ([python]) of the functions concerned.  Rocq's [string] (a list of
      bytes) plays the role of Python 2's [str]; a statement that compares
      strings before and after a trip through JSON asks for 7-bit text,
      where [str] and the decoder's [unicode] agree.
    - The shell patterns of [fnmatch] are those of Python 2.7.
    - Files carry the document their writer produced ([content]); reading a
      file through the loader of another format is a decoding error.
    - The filesystem is an ideal one: it has neither permissions nor
      symbolic links nor limits on names and space, so a call fails only for
      what the directory tree itself shows (a missing entry, a file where a
      directory is needed, an entry in the way).  [".."] is not
      interpreted; [no_dotdot] marks the paths on which that makes no
      difference.
    - Floating-point values are left out of the value model.

    [gen_feed_dict] works on arrays and is not embedded. *)

From stdpp Require Import gmap strings list fin_maps pretty.

(** ** Python values and exceptions *)

Inductive errno := ENOENT | EEXIST | ENOTDIR | EISDIR | EBADF.

Definition errno_eqb (a b : errno) : bool :=
  match a, b with
  | ENOENT, ENOENT | EEXIST, EEXIST | ENOTDIR, ENOTDIR
  | EISDIR, EISDIR | EBADF, EBADF => true
  | _, _ => false
  end.

(** The exceptions the modelled code and its library calls can raise. *)
Inductive exn :=
  | OSError (e : errno)
  | IOError (e : errno)
  | KeyError (k : string)
  | TypeError
  | ValueError
  | UnpicklingError
  | EOFError
  | SystemError.

#[local] Unset Elimination Schemes.

(** The interpreter that runs the module. *)
Inductive python := Py2 | Py3.

(** Values stored in a hyper-parameter mapping or a log.  [PRandomState seed]
    is a handle on a [numpy.random.RandomState] generator created from
    [seed]. *)
Inductive pyval :=
  | PNone
  | PBool (b : bool)
  | PInt (z : Z)
  | PStr (s : string)
  | PList (l : list pyval)
  | PTuple (l : list pyval)
  | PRandomState (seed : Z).

(** The values of a JSON document. *)
Inductive json :=
  | JNull
  | JBool (b : bool)
  | JInt (z : Z)
  | JStr (s : string)
  | JArr (l : list json).

#[local] Set Elimination Schemes.

(** [json]'s encoder: lists and tuples both become arrays; a generator
    handle has no JSON form ([None] stands for the encoder's [TypeError]). *)
Fixpoint to_json (v : pyval) : option json :=
  let fix go (l : list pyval) : option (list json) :=
    match l with
    | [] => Some []
    | x :: r =>
        match to_json x, go r with
        | Some j, Some js => Some (j :: js)
        | _, _ => None
        end
    end in
  match v with
  | PNone => Some JNull
  | PBool b => Some (JBool b)
  | PInt z => Some (JInt z)
  | PStr s => Some (JStr s)
  | PList l => JArr <$> go l
  | PTuple l => JArr <$> go l
  | PRandomState _ => None
  end.

(** [json]'s decoder: every array becomes a list. *)
Fixpoint from_json (j : json) : pyval :=
  match j with
  | JNull => PNone
  | JBool b => PBool b
  | JInt z => PInt z
  | JStr s => PStr s
  | JArr l => PList (map from_json l)
  end.

(** Values built from [None], booleans, integers, strings and lists of
    such: the values the JSON format represents without loss. *)
Fixpoint plain (v : pyval) : bool :=
  match v with
  | PNone | PBool _ | PInt _ | PStr _ => true
  | PList l => forallb plain l
  | PTuple _ | PRandomState _ => false
  end.

(** A dictionary with string keys, as the hyper-parameter mapping is. *)
Abbreviation dict := (gmap string pyval).

(** The members of a JSON object, in document order. *)
Abbreviation jsondoc := (list (string * json)).

(** Encoding of a whole dictionary as a JSON object. *)
Definition encode_dict (d : dict) : option jsondoc :=
  mapM (λ kv : string * pyval, pair kv.1 <$> to_json kv.2) (map_to_list d).

(** Decoding of a JSON object: members are inserted in document order, so
    a repeated key keeps its last value. *)
Definition decode_dict (doc : jsondoc) : dict :=
  foldl (λ m kv, <[kv.1 := from_json kv.2]> m) ∅ doc.

(** ** Paths *)

(** The newline character (code 10) and the line terminator written as
    ['\n'] in the source. *)
Definition newline : Ascii.ascii :=
  Ascii.Ascii false true false true false false false false.

Definition LF : string := String newline "".

(** The path separator ['/'] (code 47). *)
Definition slash : Ascii.ascii :=
  Ascii.Ascii true true true true false true false false.

Definition starts_with_slash (s : string) : bool :=
  match s with
  | String c _ => Ascii.eqb c slash
  | EmptyString => false
  end.

Fixpoint ends_with_slash (s : string) : bool :=
  match s with
  | EmptyString => false
  | String c EmptyString => Ascii.eqb c slash
  | String _ s' => ends_with_slash s'
  end.

(** [os.path.join] of two components (POSIX rules): an absolute second
    component replaces the first; otherwise a separator is added unless the
    first component is empty or already ends with one. *)
Definition os_path_join (a b : string) : string :=
  if starts_with_slash b then b
  else if String.eqb a "" || ends_with_slash a then a +:+ b
  else a +:+ "/" +:+ b.

(** The ['/']-separated components of a path string, first one first. *)
Fixpoint split_path (s : string) : list string :=
  match s with
  | EmptyString => [""]
  | String c s' =>
      if Ascii.eqb c slash then "" :: split_path s'
      else match split_path s' with
           | [] => [String c ""]
           | w :: ws => String c w :: ws
           end
  end.

(** A name without separator is one component. *)
Fixpoint no_slash (s : string) : bool :=
  match s with
  | EmptyString => true
  | String c s' => negb (Ascii.eqb c slash) && no_slash s'
  end.

Definition proper_component (c : string) : bool :=
  negb (String.eqb c "") && negb (String.eqb c ".").

(** A resolved path lists its components innermost first, so that the tail
    of the list is the parent directory ([os.path.split]).  An absolute path
    ends with the root marker ["/"]; the empty list is the working
    directory.  Empty components and ["."] are dropped; [".."] is kept as a
    name, which is what the kernel does only on paths without it. *)
Abbreviation path := (list string).

Definition resolve (s : string) : path :=
  rev (filter (λ c, proper_component c = true) (split_path s))
  ++ (if starts_with_slash s then ["/"] else []).

(** ** Program state: heap of dictionaries and filesystem *)

Inductive content :=
  | CText (s : string)
  | CJson (doc : jsondoc)
  | CPickle (v : pyval)
  | CPartial.

Inductive node :=
  | Dir
  | File (c : content).

Abbreviation filesystem := (gmap (list string) node).

Record state := State {
  heap : list dict;
  fs : filesystem
}.

Definition is_root (p : path) : bool :=
  match p with
  | [] => true
  | [c] => String.eqb c "/"
  | _ => false
  end.

(** What the kernel finds at a path: every ancestor has to be a directory
    for the entry itself to be reachable. *)
Fixpoint stat (t : filesystem) (p : path) : errno + node :=
  match p with
  | [] => inr Dir
  | _ :: parent =>
      match stat t parent with
      | inl e => inl e
      | inr (File _) => inl ENOTDIR
      | inr Dir =>
          if is_root p then inr Dir
          else match t !! p with
               | Some n => inr n
               | None => inl ENOENT
               end
      end
  end.

(** Lookup of a path as the library calls receive it: the empty string
    names nothing. *)
Definition stat_str (t : filesystem) (s : string) : errno + node :=
  if String.eqb s "" then inl ENOENT else stat t (resolve s).

(** ** The state-and-exception monad *)

Inductive outcome (A : Type) :=
  | Return (a : A)
  | Raise (e : exn).
Arguments Return {A} a.
Arguments Raise {A} e.

Definition M (A : Type) : Type := state → outcome A * state.

Definition ret {A} (a : A) : M A := λ σ, (Return a, σ).

Definition raise {A} (e : exn) : M A := λ σ, (Raise e, σ).

Definition bind {A B} (m : M A) (k : A → M B) : M B :=
  λ σ, match m σ with
       | (Return a, σ') => k a σ'
       | (Raise e, σ') => (Raise e, σ')
       end.

(** [try: m except Exception as e: h e] *)
Definition try_except {A} (m : M A) (h : exn → M A) : M A :=
  λ σ, match m σ with
       | (Return a, σ') => (Return a, σ')
       | (Raise e, σ') => h e σ'
       end.

Declare Scope prog_scope.
Delimit Scope prog_scope with prog.
Notation "x ← m ; k" := (bind m (λ x, k))
  (at level 20, m at level 100, k at level 200, only parsing) : prog_scope.
Notation "m ;; k" := (bind m (λ _, k))
  (at level 100, k at level 200, right associativity) : prog_scope.
Open Scope prog_scope.

Definition get_fs : M filesystem := λ σ, (Return (fs σ), σ).
Definition put_fs (t : filesystem) : M unit :=
  λ σ, (Return tt, State (heap σ) t).
Definition get_heap : M (list dict) := λ σ, (Return (heap σ), σ).
Definition put_heap (h : list dict) : M unit :=
  λ σ, (Return tt, State h (fs σ)).

(** ** Library primitives *)

(** *** Dictionaries on the heap *)

Definition deref (l : nat) : M dict :=
  h ← get_heap;
  match h !! l with
  | Some d => ret d
  | None => raise SystemError
  end.

Definition alloc (d : dict) : M nat :=
  h ← get_heap;
  put_heap (h ++ [d]);;
  ret (length h).

Definition store (l : nat) (d : dict) : M unit :=
  h ← get_heap;
  put_heap (<[l := d]> h).

(** [d.copy()]: a new dictionary object with the same items. *)
Definition dict_copy (l : nat) : M nat :=
  d ← deref l;
  alloc d.

(** [d.pop(k)]: removes the item in place; [KeyError] when it is absent. *)
Definition dict_pop (l : nat) (k : string) : M pyval :=
  d ← deref l;
  match d !! k with
  | Some v => store l (delete k d);; ret v
  | None => raise (KeyError k)
  end.

(** [d[k]] *)
Definition dict_getitem (l : nat) (k : string) : M pyval :=
  d ← deref l;
  match d !! k with
  | Some v => ret v
  | None => raise (KeyError k)
  end.

(** [d[k] = v] *)
Definition dict_setitem (l : nat) (k : string) (v : pyval) : M unit :=
  d ← deref l;
  store l (<[k := v]> d).

(** [v + k] for an integer literal [k]. *)
Definition py_add_int (v : pyval) (k : Z) : M pyval :=
  match v with
  | PInt z => ret (PInt (z + k))
  | PBool b => ret (PInt (Z.b2z b + k))
  | _ => raise TypeError
  end.

(** The largest seed numpy accepts, [2**32 - 1]. *)
Definition max_seed : Z := 4294967295.

(** [np.random.RandomState(seed)]: an integer seed has to lie between 0 and
    [2**32 - 1], or numpy raises [ValueError].  Only integer seeds occur,
    the argument being the result of an integer addition. *)
Definition RandomState (seed : pyval) : M pyval :=
  match seed with
  | PInt z =>
      if (0 <=? z)%Z && (z <=? max_seed)%Z then ret (PRandomState z)
      else raise ValueError
  | _ => raise TypeError
  end.

(** *** Filesystem calls

    The calls fail for what the directory tree shows: [ENOENT], [ENOTDIR],
    [EEXIST], [EISDIR].  Errors that come from permissions, limits on
    names, or the device are not produced. *)

Definition os_path_isfile (fname : string) : M bool :=
  t ← get_fs;
  ret (match stat_str t fname with inr (File _) => true | _ => false end).

Definition os_path_isdir (fname : string) : M bool :=
  t ← get_fs;
  ret (match stat_str t fname with inr Dir => true | _ => false end).

Definition os_path_exists (t : filesystem) (p : path) : bool :=
  match stat t p with inr _ => true | inl _ => false end.

(** [os.mkdir] on a resolved path. *)
Definition mkdir (t : filesystem) (p : path) : errno + filesystem :=
  match p with
  | [] => inl EEXIST
  | _ :: parent =>
      match stat t parent with
      | inl e => inl e
      | inr (File _) => inl ENOTDIR
      | inr Dir =>
          if is_root p then inl EEXIST
          else match t !! p with
               | Some _ => inl EEXIST
               | None => inr (<[p := Dir]> t)
               end
      end
  end.

(** [os.makedirs] on a resolved path: creates the missing ancestors first
    (tolerating one that appears meanwhile), then the leaf with [mkdir]. *)
Fixpoint makedirs (t : filesystem) (p : path) : errno + filesystem :=
  match p with
  | [] => mkdir t p
  | _ :: head =>
      if negb (os_path_exists t head) then
        match makedirs t head with
        | inr t' => mkdir t' p
        | inl e => if errno_eqb e EEXIST then mkdir t p else inl e
        end
      else mkdir t p
  end.

Definition os_makedirs (name : string) : M unit :=
  if String.eqb name "" then raise (OSError ENOENT)
  else
    t ← get_fs;
    match makedirs t (resolve name) with
    | inr t' => put_fs t'
    | inl e => raise (OSError e)
    end.

(** [open(fname, 'r')] and [open(fname, 'rb')]: the handle is the resolved
    path of the file. *)
Definition open_r (fname : string) : M path :=
  t ← get_fs;
  match stat_str t fname with
  | inr (File _) => ret (resolve fname)
  | inr Dir => raise (IOError EISDIR)
  | inl e => raise (IOError e)
  end.

(** [open(fname, 'w')] and [open(fname, 'wb')]: creates the file, or
    truncates the one that is there. *)
Definition open_w (fname : string) : M path :=
  if String.eqb fname "" then raise (IOError ENOENT)
  else
    t ← get_fs;
    let p := resolve fname in
    match p with
    | [] => raise (IOError EISDIR)
    | _ :: parent =>
        match stat t parent with
        | inl e => raise (IOError e)
        | inr (File _) => raise (IOError ENOTDIR)
        | inr Dir =>
            if is_root p then raise (IOError EISDIR)
            else match t !! p with
                 | Some Dir => raise (IOError EISDIR)
                 | _ => put_fs (<[p := File (CText "")]> t);; ret p
                 end
        end
    end.

Definition file_read (f : path) : M content :=
  t ← get_fs;
  match t !! f with
  | Some (File c) => ret c
  | _ => raise (IOError EBADF)
  end.

Definition file_put (f : path) (c : content) : M unit :=
  t ← get_fs;
  match t !! f with
  | Some (File _) => put_fs (<[f := File c]> t)
  | _ => raise (IOError EBADF)
  end.

(** [f.write(s)] *)
Definition file_write (f : path) (s : string) : M unit :=
  c ← file_read f;
  match c with
  | CText old => file_put f (CText (old +:+ s))
  | _ => raise (IOError EBADF)
  end.

(** [pickle.load(f)] and [pickle.dump(v, f)]: an empty file ends before
    the first opcode ([EOFError]). *)
Definition pickle_load (f : path) : M pyval :=
  c ← file_read f;
  match c with
  | CPickle v => ret v
  | CText EmptyString => raise EOFError
  | _ => raise UnpicklingError
  end.

Definition pickle_dump (v : pyval) (f : path) : M unit :=
  file_put f (CPickle v).

(** [json.load(f)]: a new dictionary object holding the decoded members. *)
Definition json_load (f : path) : M nat :=
  c ← file_read f;
  match c with
  | CJson doc => alloc (decode_dict doc)
  | _ => raise ValueError
  end.

(** [json.dump(obj, f)] into a file opened in binary mode.  The encoder
    streams its output as text.  Under Python 2 the file takes it, and a
    value the encoder cannot encode leaves an incomplete document behind.
    Under Python 3 the first [f.write] of a piece of text raises
    [TypeError], whatever the object is, and the file stays as [open] left
    it. *)
Definition json_dump (v : python) (obj : nat) (f : path) : M unit :=
  d ← deref obj;
  match v with
  | Py2 =>
      match encode_dict d with
      | Some doc => file_put f (CJson doc)
      | None => file_put f CPartial;; raise TypeError
      end
  | Py3 => raise TypeError
  end.

(** ['{}'.format(n)] for an integer argument. *)
Definition fmt (n : Z) : string := pretty n.

(** ** The functions of [tools.py] *)

Definition load_log (save_name : string) : M pyval :=
  let fname := os_path_join "data" ("log_" +:+ save_name +:+ ".pkl") in
  b ← os_path_isfile fname;
  if negb b then ret PNone
  else
    f ← open_r fname;
    log ← pickle_load f;
    ret log.

Definition save_log (log : pyval) (save_name : string) : M unit :=
  f ← open_w (os_path_join "data" ("log_" +:+ save_name +:+ ".pkl"));
  pickle_dump log f.

(** The result is [None] (no file) or a reference to the loaded mapping. *)
Definition load_hparams (save_dir : string) : M (option nat) :=
  let fname := os_path_join save_dir "hparams.json" in
  b ← os_path_isfile fname;
  if negb b then ret None
  else
    f ← open_r fname;
    hparams ← json_load f;
    seed ← dict_getitem hparams "seed";
    seed' ← py_add_int seed 1000;
    rng ← RandomState seed';
    dict_setitem hparams "rng" rng;;
    ret (Some hparams).

Definition save_hparams (v : python) (hparams : nat) (save_dir : string)
    : M unit :=
  hparams_copy ← dict_copy hparams;
  dict_pop hparams_copy "rng";;
  f ← open_w (os_path_join save_dir "hparams.json");
  json_dump v hparams_copy f.

Definition mkdir_p (path : string) : M unit :=
  try_except (os_makedirs path) (λ e,
    match e with
    | OSError en =>
        if errno_eqb en EEXIST then
          b ← os_path_isdir path;
          if b then ret tt else raise e
        else raise e
    | _ => raise e
    end).

(** [jobname[0:16]] *)
Definition first16 (jobname : string) : string := String.substring 0 16 jobname.

(** The text written on the [gpus == 0] branch of [write_jobfile]. *)
Definition cpu_script (cmd jobname scratchpath logname : string)
    (nodes ppn mem nhours : Z) : string :=
  "#! /bin/bash" +:+ LF
  +:+ LF
  +:+ "#SBATCH --nodes=" +:+ fmt nodes +:+ LF
  +:+ "#SBATCH --ntasks-per-node=1" +:+ LF
  +:+ "#SBATCH --cpus-per-task=" +:+ fmt ppn +:+ LF
  +:+ "#SBATCH --mem=" +:+ fmt mem +:+ "GB" +:+ LF
  +:+ "#SBATCH --time=" +:+ fmt nhours +:+ ":00:00" +:+ LF
  +:+ "#SBATCH --job-name=" +:+ first16 jobname +:+ LF
  +:+ "#SBATCH --output=" +:+ scratchpath +:+ "log/" +:+ first16 jobname
      +:+ ".o" +:+ LF
  +:+ LF
  +:+ "cd " +:+ scratchpath +:+ LF
  +:+ "pwd > " +:+ logname +:+ ".log" +:+ LF
  +:+ "date >> " +:+ logname +:+ ".log" +:+ LF
  +:+ "which python >> " +:+ logname +:+ ".log" +:+ LF
  +:+ cmd +:+ " >> " +:+ logname +:+ ".log 2>&1" +:+ LF
  +:+ LF
  +:+ "exit 0;" +:+ LF.

(** The text written on the other branch. *)
Definition gpu_script (cmd jobname scratchpath logname : string)
    (nodes ppn mem nhours : Z) : string :=
  "#! /bin/bash" +:+ LF
  +:+ LF
  +:+ "#SBATCH --nodes=" +:+ fmt nodes +:+ LF
  +:+ "#SBATCH --ntasks-per-node=1" +:+ LF
  +:+ "#SBATCH --cpus-per-task=" +:+ fmt ppn +:+ LF
  +:+ "#SBATCH --mem=" +:+ fmt mem +:+ "GB" +:+ LF
  +:+ "#SBATCH --partition=gpu" +:+ LF
  +:+ "#SBATCH --gres=gpu:1" +:+ LF
  +:+ "#SBATCH --time=" +:+ fmt nhours +:+ ":00:00" +:+ LF
  +:+ "#SBATCH --job-name=" +:+ first16 jobname +:+ LF
  +:+ "#SBATCH --output=" +:+ scratchpath +:+ "log/" +:+ first16 jobname
      +:+ ".o" +:+ LF
  +:+ LF
  +:+ "cd " +:+ scratchpath +:+ LF
  +:+ "pwd > " +:+ logname +:+ ".log" +:+ LF
  +:+ "date >> " +:+ logname +:+ ".log" +:+ LF
  +:+ "which python >> " +:+ logname +:+ ".log" +:+ LF
  +:+ cmd +:+ " >> " +:+ logname +:+ ".log 2>&1" +:+ LF
  +:+ LF
  +:+ "exit 0;" +:+ LF.

Definition write_jobfile (cmd jobname sbatchpath scratchpath : string)
    (nodes ppn gpus mem nhours : Z) : M string :=
  mkdir_p sbatchpath;;
  let jobfile := os_path_join sbatchpath (jobname +:+ ".s") in
  let logname := os_path_join "log" jobname in
  (if (gpus =? 0)%Z then
     f ← open_w jobfile;
     file_write f (cpu_script cmd jobname scratchpath logname nodes ppn mem nhours)
   else
     f ← open_w jobfile;
     file_write f (gpu_script cmd jobname scratchpath logname nodes ppn mem nhours));;
  ret jobfile.

(** The default values of [write_jobfile]'s optional parameters. *)
Definition default_nodes : Z := 1.
Definition default_ppn : Z := 1.
Definition default_gpus : Z := 0.
Definition default_mem : Z := 16.
Definition default_nhours : Z := 12.

(** ** Observations used in the statements *)

Definition is_dir (r : errno + node) : bool :=
  match r with inr Dir => true | _ => false end.

Definition is_file (r : errno + node) : bool :=
  match r with inr (File _) => true | _ => false end.

(** No entry is reachable at the path (whatever the reason). *)
Definition is_absent (r : errno + node) : bool :=
  match r with inl _ => true | inr _ => false end.

(** The text of the file found at [fname], if it is a text file. *)
Definition read_text (σ : state) (fname : string) : option string :=
  match stat_str (fs σ) fname with
  | inr (File (CText s)) => Some s
  | _ => None
  end.





(** No component of the path is [".."]. *)
Definition no_dotdot (s : string) : bool :=
  forallb (λ c, negb (String.eqb c "..")) (split_path s).

(** A filesystem is well formed when every entry lies in a directory (and
    no entry shadows a root). *)
Definition fs_wf (t : filesystem) : Prop :=
  map_Forall (λ p _, is_root p = false ∧ is_dir (stat t (tail p)) = true) t.

(** Some component on the way to [p], or [p] itself, is a regular file. *)
Definition blocked (t : filesystem) (p : path) : Prop :=
  ∃ q, q `suffix_of` p ∧ is_file (stat t q) = true.

(** [x in s] for strings. *)
Fixpoint contains (x s : string) : bool :=
  String.prefix x s ||
  match s with
  | EmptyString => false
  | String _ s' => contains x s'
  end.

(** [l] occurs in [txt] as a whole line (after the first one). *)
Definition embeds_line (l txt : string) : bool :=
  contains (LF +:+ l +:+ LF) txt.

(** [txt.split('\n')] *)
Fixpoint lines (txt : string) : list string :=
  match txt with
  | EmptyString => [""]
  | String c s' =>
      if Ascii.eqb c newline then "" :: lines s'
      else match lines s' with
           | [] => [String c ""]
           | w :: ws => String c w :: ws
           end
  end.

(** The string is a single line. *)
Fixpoint one_line (s : string) : bool :=
  match s with
  | EmptyString => true
  | String c s' => negb (Ascii.eqb c newline) && one_line s'
  end.

(** No line of the text opens with the given directive. *)
Definition no_directive (d txt : string) : bool :=
  forallb (λ l, negb (String.prefix d l)) (lines txt).

Definition has_line (l txt : string) : bool :=
  bool_decide (l ∈ lines txt).

(** The last terminated line of the text. *)
Definition final_line (txt : string) : option string :=
  match rev (lines txt) with
  | "" :: l :: _ => Some l
  | _ => None
  end.

(** ** Listing the saved models *)

(** [os.listdir]: the names of the entries of a directory.  The order of
    the result is the map's; the library promises none. *)
Definition children (t : filesystem) (p : path) : list string :=
  omap (λ kv : path * node,
          match kv.1 with
          | c :: q =>
              if bool_decide (q = p) && negb (is_root kv.1) then Some c
              else None
          | [] => None
          end) (map_to_list t).

Definition os_listdir (t : filesystem) (name : string)
    : errno + list string :=
  match stat_str t name with
  | inr Dir => inr (children t (resolve name))
  | inr (File _) => inl ENOTDIR
  | inl e => inl e
  end.

(** *** [fnmatch]: shell patterns *)

(** The special characters of a pattern: [*] (42), [?] (63), the brackets
    (91, 93), [!] (33) and [-] (45). *)
Definition star : Ascii.ascii :=
  Ascii.Ascii false true false true false true false false.
Definition question : Ascii.ascii :=
  Ascii.Ascii true true true true true true false false.
Definition lbracket : Ascii.ascii :=
  Ascii.Ascii true true false true true false true false.
Definition rbracket : Ascii.ascii :=
  Ascii.Ascii true false true true true false true false.
Definition bang : Ascii.ascii :=
  Ascii.Ascii true false false false false true false false.
Definition dash : Ascii.ascii :=
  Ascii.Ascii true false true true false true false false.

(** What a pattern is compiled to: [*], [?], a character class (negated or
    not, a list of ranges, a single character being the range from itself
    to itself), or a character that stands for itself. *)
Inductive token :=
  | TStar
  | TAny
  | TClass (neg : bool) (items : list (Ascii.ascii * Ascii.ascii))
  | TLit (c : Ascii.ascii).

Definition ascii_leb (a b : Ascii.ascii) : bool :=
  (Ascii.N_of_ascii a <=? Ascii.N_of_ascii b)%N.

(** The items of a class, read left to right as the [re] compiler of
    Python 2.7 does: [a-b] is a range when a character follows the dash,
    and a range that runs backwards is the compiler's "bad character
    range" error ([None]). *)
Fixpoint class_items (body : string)
    : option (list (Ascii.ascii * Ascii.ascii)) :=
  match body with
  | EmptyString => Some []
  | String c1 rest =>
      match rest with
      | String d (String c2 rest') =>
          if Ascii.eqb d dash then
            if ascii_leb c1 c2 then cons (c1, c2) <$> class_items rest'
            else None
          else cons (c1, c1) <$> class_items rest
      | _ => cons (c1, c1) <$> class_items rest
      end
  end.

(** The text up to the next closing bracket, and what follows it. *)
Fixpoint until_bracket (s : string) : option (string * string) :=
  match s with
  | EmptyString => None
  | String c s' =>
      if Ascii.eqb c rbracket then Some ("", s')
      else match until_bracket s' with
           | Some (a, r) => Some (String c a, r)
           | None => None
           end
  end.

Definition prepend (c : Ascii.ascii) (x : option (string * string))
    : option (string * string) :=
  match x with
  | Some (a, r) => Some (String c a, r)
  | None => None
  end.

(** After an opening bracket: the class text and the rest of the pattern,
    when a closing bracket is found.  A [!] and a closing bracket that
    comes first belong to the class. *)
Definition find_class (s : string) : option (string * string) :=
  match s with
  | String c s1 =>
      if Ascii.eqb c bang then
        match s1 with
        | String c' s2 =>
            if Ascii.eqb c' rbracket
            then prepend c (prepend c' (until_bracket s2))
            else prepend c (until_bracket s1)
        | EmptyString => None
        end
      else if Ascii.eqb c rbracket then prepend c (until_bracket s1)
      else until_bracket s
  | EmptyString => None
  end.

(** The class token of a class text: a leading [!] negates; a leading [^]
    is escaped by [translate] and stands for itself. *)
Definition class_token (stuff : string) : option token :=
  match stuff with
  | String c body =>
      if Ascii.eqb c bang then TClass true <$> class_items body
      else TClass false <$> class_items stuff
  | EmptyString => TClass false <$> class_items stuff
  end.

(** [fnmatch.translate] followed by [re.compile], one pattern character or
    class at a time.  The recursion is on a counter that the length of the
    pattern bounds; [None] is the compiler's error. *)
Fixpoint translate_go (fuel : nat) (pat : string) : option (list token) :=
  match fuel with
  | 0 => Some []
  | S fuel' =>
      match pat with
      | EmptyString => Some []
      | String c rest =>
          if Ascii.eqb c star then cons TStar <$> translate_go fuel' rest
          else if Ascii.eqb c question
          then cons TAny <$> translate_go fuel' rest
          else if Ascii.eqb c lbracket then
            match find_class rest with
            | None => cons (TLit c) <$> translate_go fuel' rest
            | Some (stuff, rest') =>
                match class_token stuff, translate_go fuel' rest' with
                | Some tok, Some toks => Some (tok :: toks)
                | _, _ => None
                end
            end
          else cons (TLit c) <$> translate_go fuel' rest
      end
  end.

Definition translate (pat : string) : option (list token) :=
  translate_go (String.length pat) pat.

Definition in_class (items : list (Ascii.ascii * Ascii.ascii))
    (c : Ascii.ascii) : bool :=
  existsb (λ r, ascii_leb r.1 c && ascii_leb c r.2) items.

(** Matching of a whole name against a compiled pattern. *)
Fixpoint glob_match (toks : list token) (s : string) : bool :=
  match toks with
  | [] => match s with EmptyString => true | _ => false end
  | TStar :: r =>
      (fix skip (s : string) : bool :=
         glob_match r s
         || match s with
            | EmptyString => false
            | String _ s' => skip s'
            end) s
  | TAny :: r =>
      match s with
      | String _ s' => glob_match r s'
      | EmptyString => false
      end
  | TClass neg items :: r =>
      match s with
      | String c s' => xorb neg (in_class items c) && glob_match r s'
      | EmptyString => false
      end
  | TLit c :: r =>
      match s with
      | String c' s' => Ascii.eqb c c' && glob_match r s'
      | EmptyString => false
      end
  end.

(** [fnmatch.fnmatch(name, pat)] on a POSIX system ([None]: the pattern
    does not compile). *)
Definition fnmatch (name pat : string) : option bool :=
  match translate pat with
  | Some toks => Some (glob_match toks name)
  | None => None
  end.

(** [f[:-10]] *)
Definition strip10 (f : string) : string :=
  String.substring 0 (String.length f - 10) f.

(** The outcome of [valid_save_names]: a list of names, the [OSError] of
    [os.listdir], or the error of the pattern compiler. *)
Inductive listing :=
  | Listed (names : list string)
  | ListOSError (e : errno)
  | ListReError.

(** The comprehension [[f[:-10] for f in ... if fnmatch.fnmatch(f, pat)]]. *)
Fixpoint select_names (pat : string) (fnames : list string)
    : option (list string) :=
  match fnames with
  | [] => Some []
  | f :: rest =>
      match fnmatch f pat with
      | None => None
      | Some b =>
          match select_names pat rest with
          | None => None
          | Some names => Some (if b then strip10 f :: names else names)
          end
      end
  end.

Definition valid_save_names (save_pattern : string) (t : filesystem)
    : listing :=
  match os_listdir t "data/" with
  | inl e => ListOSError e
  | inr fnames =>
      match select_names (save_pattern +:+ ".ckpt.meta") fnames with
      | Some names => Listed names
      | None => ListReError
      end
  end.

(** The tokens of a text that stands for itself. *)
Fixpoint lits (s : string) : list token :=
  match s with
  | EmptyString => []
  | String c s' => TLit c :: lits s'
  end.

(** A text without closing bracket. *)
Fixpoint no_rbracket (s : string) : bool :=
  match s with
  | EmptyString => true
  | String c s' => negb (Ascii.eqb c rbracket) && no_rbracket s'
  end.

(** A pattern without special characters. *)
Fixpoint literal (s : string) : bool :=
  match s with
  | EmptyString => true
  | String c s' =>
      negb (Ascii.eqb c star) && negb (Ascii.eqb c question)
      && negb (Ascii.eqb c lbracket) && literal s'
  end.

(** ** Sample inputs *)

(** An empty heap and an empty working directory. *)
Definition empty_state : state := State [] ∅.

(** A working directory that holds one regular file, [f]. *)
Definition file_state : state := State [] {[ ["f"] := File (CText "") ]}.

(** A hyper-parameter mapping, and a state that holds it next to an empty
    directory [models]. *)
Definition sample_hparams : dict :=
  <["seed" := PInt 5]> (<["rng" := PRandomState 5]>
    (<["in_type" := PStr "normal"]> (<["n_rule" := PInt 20]> ∅))).

Definition sample_state : state :=
  State [sample_hparams] {[ ["models"] := Dir ]}.







(** A mapping without generator entry. *)
Definition bare_hparams : dict :=
  <["seed" := PInt 5]> (<["in_type" := PStr "normal"]> ∅).

Definition bare_state : state := State [bare_hparams] {[ ["models"] := Dir ]}.

(** A job name of twenty-six characters. *)
Definition long_jobname : string := "abcdefghijklmnopqrstuvwxyz".

(** Python's integers, booleans included. *)
Definition is_integer (v : pyval) : bool :=
  match v with
  | PInt _ | PBool _ => true
  | _ => false
  end.

(** A directory [data] with two checkpoints, a log and a subdirectory. *)
Definition models_state : state :=
  State []
    (<[ ["run_a.ckpt.meta"; "data"] := File (CText "") ]>
    (<[ ["run_b.ckpt.meta"; "data"] := File (CText "") ]>
    (<[ ["log_run_a.pkl"; "data"] := File (CPickle PNone) ]>
    (<[ ["old"; "data"] := Dir ]>
       {[ ["data"] := Dir ]})))).

(** A working directory that holds the empty directory [data]. *)
Definition data_state : state := State [] {[ ["data"] := Dir ]}.

(** A mapping with a second generator handle, which [json] cannot encode,
    and a state that holds it next to the directory [models]. *)
Definition two_rng_hparams : dict :=
  <["seed" := PInt 5]> (<["rng" := PRandomState 5]>
    (<["rng_test" := PRandomState 7]> ∅)).

Definition two_rng_state : state :=
  State [two_rng_hparams] {[ ["models"] := Dir ]}.

(** A directory [models] with a stored document that has no seed, and one
    whose seed is a string. *)
Definition seedless_state : state :=
  State []
    (<[ ["hparams.json"; "models"] := File (CJson [("n_rule", JInt 20)]) ]>
       {[ ["models"] := Dir ]}).

Definition string_seed_state : state :=
  State []
    (<[ ["hparams.json"; "models"] := File (CJson [("seed", JStr "5")]) ]>
       {[ ["models"] := Dir ]}).

(** A stored document whose seed, after the offset of 1000, is still
    negative, and one whose seed is beyond what numpy accepts. *)
Definition negative_seed_state : state :=
  State []
    (<[ ["hparams.json"; "models"] := File (CJson [("seed", JInt (-2000))]) ]>
       {[ ["models"] := Dir ]}).

Definition large_seed_state : state :=
  State []
    (<[ ["hparams.json"; "models"] :=
          File (CJson [("seed", JInt 4294967295)]) ]>
       {[ ["models"] := Dir ]}).

(** A directory [models] with a stored document as [save_hparams] writes
    it. *)
Definition stored_state : state :=
  State []
    (<[ ["hparams.json"; "models"] :=
          File (CJson [("seed", JInt 5); ("rules", JArr [JStr "go"; JStr "dm"])]) ]>
       {[ ["models"] := Dir ]}).

(** * Proofs *)

#[local] Arguments String.append !_ _ / : simpl nomatch.

(** ** Running the monad *)

Lemma run_bind {A B} (m : M A) (k : A → M B) σ :
  bind m k σ =
  match m σ with
  | (Return a, σ') => k a σ'
  | (Raise e, σ') => (Raise e, σ')
  end.
Proof. reflexivity. Qed.

Lemma run_bind_return {A B} (m : M A) (k : A → M B) σ a σ' :
  m σ = (Return a, σ') → bind m k σ = k a σ'.
Proof. intros H. unfold bind. by rewrite H. Qed.

Lemma run_bind_raise {A B} (m : M A) (k : A → M B) σ e σ' :
  m σ = (Raise e, σ') → bind m k σ = (Raise e, σ').
Proof. intros H. unfold bind. by rewrite H. Qed.

(** Unfolds the primitives that only read or replace a state component. *)
Ltac run :=
  repeat (rewrite ?run_bind;
          unfold get_heap, put_heap, get_fs, put_fs, ret, raise; simpl).

(** ** Dictionaries on the heap *)

Lemma deref_run σ l d :
  heap σ !! l = Some d → deref l σ = (Return d, σ).
Proof. intros H. unfold deref. run. by rewrite H. Qed.

Lemma alloc_run σ d :
  alloc d σ = (Return (length (heap σ)), State (heap σ ++ [d]) (fs σ)).
Proof. reflexivity. Qed.

Lemma store_run σ l d :
  store l d σ = (Return tt, State (<[l := d]> (heap σ)) (fs σ)).
Proof. reflexivity. Qed.

Lemma lookup_snoc_new (h : list dict) d : (h ++ [d]) !! length h = Some d.
Proof. by rewrite lookup_app_r, Nat.sub_diag. Qed.

Lemma insert_snoc_new (h : list dict) d d' :
  <[length h := d']> (h ++ [d]) = h ++ [d'].
Proof.
  rewrite insert_app_r_alt by lia. by rewrite Nat.sub_diag.
Qed.

Lemma dict_copy_run σ l d :
  heap σ !! l = Some d →
  dict_copy l σ = (Return (length (heap σ)), State (heap σ ++ [d]) (fs σ)).
Proof.
  intros H. unfold dict_copy.
  rewrite (run_bind_return _ _ _ _ _ (deref_run _ _ _ H)).
  apply alloc_run.
Qed.

Lemma dict_setitem_run σ l d k v :
  heap σ !! l = Some d →
  dict_setitem l k v σ =
  (Return tt, State (<[l := <[k := v]> d]> (heap σ)) (fs σ)).
Proof.
  intros H. unfold dict_setitem.
  by rewrite (run_bind_return _ _ _ _ _ (deref_run _ _ _ H)).
Qed.

Lemma dict_pop_present σ l d k v :
  heap σ !! l = Some d → d !! k = Some v →
  dict_pop l k σ = (Return v, State (<[l := delete k d]> (heap σ)) (fs σ)).
Proof.
  intros H Hk. unfold dict_pop.
  rewrite (run_bind_return _ _ _ _ _ (deref_run _ _ _ H)).
  rewrite Hk. reflexivity.
Qed.

Lemma dict_pop_missing σ l d k :
  heap σ !! l = Some d → d !! k = None →
  dict_pop l k σ = (Raise (KeyError k), σ).
Proof.
  intros H Hk. unfold dict_pop.
  rewrite (run_bind_return _ _ _ _ _ (deref_run _ _ _ H)).
  rewrite Hk. reflexivity.
Qed.

(** ** The filesystem calls leave the heap alone *)

Lemma open_w_heap fname σ : heap (open_w fname σ).2 = heap σ.
Proof.
  unfold open_w. destruct (String.eqb fname ""); [reflexivity|].
  run. destruct (resolve fname) as [|c parent]; [reflexivity|].
  destruct (stat (fs σ) parent) as [e|[|c']]; try reflexivity.
  destruct (is_root (c :: parent)); [reflexivity|].
  destruct (fs σ !! (c :: parent)) as [[|c']|]; reflexivity.
Qed.

Lemma file_put_heap f c σ : heap (file_put f c σ).2 = heap σ.
Proof.
  unfold file_put. run.
  destruct (fs σ !! f) as [[|c']|]; reflexivity.
Qed.

Lemma json_dump_heap v obj f σ : heap (json_dump v obj f σ).2 = heap σ.
Proof.
  unfold json_dump, deref. run.
  destruct (heap σ !! obj) as [d|]; [|reflexivity]. simpl.
  destruct v; [|reflexivity].
  destruct (encode_dict d) as [doc|].
  - apply file_put_heap.
  - rewrite run_bind.
    pose proof (file_put_heap f CPartial σ) as H.
    destruct (file_put f CPartial σ) as [[[]|e] σ']; exact H.
Qed.

(** ** [save_hparams] and the caller's mapping *)

Lemma save_hparams_heap v σ hparams d save_dir :
  heap σ !! hparams = Some d →
  heap (save_hparams v hparams save_dir σ).2 =
  heap σ ++ [if d !! "rng" is Some _ then delete "rng" d else d].
Proof.
  intros H. unfold save_hparams.
  rewrite (run_bind_return _ _ _ _ _ (dict_copy_run _ _ _ H)).
  set (σ1 := State (heap σ ++ [d]) (fs σ)).
  assert (heap σ1 !! length (heap σ) = Some d) as H1 by apply lookup_snoc_new.
  destruct (d !! "rng") as [r|] eqn:Hr.
  - rewrite (run_bind_return _ _ _ _ _ (dict_pop_present _ _ _ _ _ H1 Hr)).
    simpl. rewrite insert_snoc_new.
    set (σ2 := State _ _).
    rewrite run_bind.
    pose proof (open_w_heap (os_path_join save_dir "hparams.json") σ2) as Ho.
    destruct (open_w _ σ2) as [[f|e] σ3]; simpl in *.
    + by rewrite json_dump_heap.
    + done.
  - by rewrite (run_bind_raise _ _ _ _ _ (dict_pop_missing _ _ _ _ H1 Hr)).
Qed.

(** C3. [save_hparams] does not modify the mapping object the caller
    passes: under either interpreter and whatever the outcome of the call
    (normal return or exception), the object still holds the same items
    afterwards, the generator entry ['rng'] included.  The only change to
    the heap is the new, stripped copy. *)
Theorem save_hparams_leaves_original
    (v : python) (σ : state) (hparams : nat) (d : dict) (r : pyval)
    (save_dir : string) :
  heap σ !! hparams = Some d →
  d !! "rng" = Some r →
  let σ' := (save_hparams v hparams save_dir σ).2 in
  heap σ' !! hparams = Some d
  ∧ (∃ d', heap σ' !! hparams = Some d' ∧ d' !! "rng" = Some r)
  ∧ heap σ' = heap σ ++ [delete "rng" d].
Proof.
  intros H Hr σ'.
  assert (heap σ' = heap σ ++ [delete "rng" d]) as Hh.
  { unfold σ'. rewrite (save_hparams_heap _ _ _ _ _ H). by rewrite Hr. }
  assert (heap σ' !! hparams = Some d) as Hl.
  { rewrite Hh. rewrite lookup_app_l; [done|]. by eapply lookup_lt_Some. }
  split_and!; [done| |done]. by exists d.
Qed.

Lemma save_hparams_leaves_original_witness :
  heap (save_hparams Py2 0 "models" sample_state).2 !! 0 = Some sample_hparams
  ∧ (∃ d', heap (save_hparams Py2 0 "models" sample_state).2 !! 0 = Some d'
           ∧ d' !! "rng" = Some (PRandomState 5))
  ∧ heap (save_hparams Py2 0 "models" sample_state).2
    = heap sample_state ++ [delete "rng" sample_hparams].
Proof.
  apply (save_hparams_leaves_original Py2 sample_state 0 sample_hparams
           (PRandomState 5) "models"); reflexivity.
Defined.

(** C9. On a mapping without the key ['rng'], [save_hparams] raises
    [KeyError] under either interpreter: the pop is unconditional.  Nothing
    has been written at that point, and the caller's mapping is intact. *)
Theorem save_hparams_requires_rng
    (v : python) (σ : state) (hparams : nat) (d : dict) (save_dir : string) :
  heap σ !! hparams = Some d →
  d !! "rng" = None →
  ∃ σ', save_hparams v hparams save_dir σ = (Raise (KeyError "rng"), σ')
        ∧ fs σ' = fs σ
        ∧ heap σ' !! hparams = Some d.
Proof.
  intros H Hr. unfold save_hparams.
  rewrite (run_bind_return _ _ _ _ _ (dict_copy_run _ _ _ H)).
  set (σ1 := State (heap σ ++ [d]) (fs σ)).
  assert (heap σ1 !! length (heap σ) = Some d) as H1 by apply lookup_snoc_new.
  rewrite (run_bind_raise _ _ _ _ _ (dict_pop_missing _ _ _ _ H1 Hr)).
  exists σ1. split_and!; [done|done|].
  simpl. rewrite lookup_app_l; [done|]. by eapply lookup_lt_Some.
Qed.

Lemma save_hparams_requires_rng_witness :
  ∃ σ', save_hparams Py2 0 "models" bare_state = (Raise (KeyError "rng"), σ')
        ∧ fs σ' = fs bare_state
        ∧ heap σ' !! 0 = Some bare_hparams.
Proof.
  apply (save_hparams_requires_rng Py2 bare_state 0 bare_hparams "models");
    reflexivity.
Defined.

(** ** Absent files *)

Lemma isfile_false_run σ fname :
  is_file (stat_str (fs σ) fname) = false →
  os_path_isfile fname σ = (Return false, σ).
Proof.
  intros H. unfold os_path_isfile. run.
  destruct (stat_str (fs σ) fname) as [e|[|c]]; done.
Qed.

Lemma load_log_no_file σ save_name :
  is_file (stat_str (fs σ)
             (os_path_join "data" ("log_" +:+ save_name +:+ ".pkl"))) = false →
  load_log save_name σ = (Return PNone, σ).
Proof.
  intros H. unfold load_log.
  by rewrite (run_bind_return _ _ _ _ _ (isfile_false_run _ _ H)).
Qed.

Lemma load_hparams_no_file σ save_dir :
  is_file (stat_str (fs σ) (os_path_join save_dir "hparams.json")) = false →
  load_hparams save_dir σ = (Return None, σ).
Proof.
  intros H. unfold load_hparams.
  by rewrite (run_bind_return _ _ _ _ _ (isfile_false_run _ _ H)).
Qed.

Lemma is_absent_not_file r : is_absent r = true → is_file r = false.
Proof. by destruct r as [e|[|c]]. Qed.

(** C2. When the log file of a save name does not exist, [load_log] returns
    [None] and raises nothing; when [hparams.json] is missing from the
    directory, [load_hparams] returns [None].  Neither call changes the
    state. *)
Theorem load_absent_returns_none
    (σ : state) (save_name save_dir : string) :
  (is_absent (stat_str (fs σ)
       (os_path_join "data" ("log_" +:+ save_name +:+ ".pkl"))) = true →
   load_log save_name σ = (Return PNone, σ))
  ∧ (is_absent (stat_str (fs σ)
       (os_path_join save_dir "hparams.json")) = true →
     load_hparams save_dir σ = (Return None, σ)).
Proof.
  split; intros H%is_absent_not_file.
  - by apply load_log_no_file.
  - by apply load_hparams_no_file.
Qed.

Lemma load_absent_returns_none_witness :
  load_log "nonexistent" empty_state = (Return PNone, empty_state)
  ∧ load_hparams "nowhere" empty_state = (Return None, empty_state).
Proof.
  destruct (load_absent_returns_none empty_state "nonexistent" "nowhere")
    as [Hlog Hhp].
  split; [apply Hlog | apply Hhp]; reflexivity.
Defined.

(** ** Looking paths up *)

Lemma stat_cons t c parent :
  stat t (c :: parent) =
  match stat t parent with
  | inl e => inl e
  | inr (File _) => inl ENOTDIR
  | inr Dir =>
      if is_root (c :: parent) then inr Dir
      else match t !! (c :: parent) with
           | Some n => inr n
           | None => inl ENOENT
           end
  end.
Proof. reflexivity. Qed.

(** [stat] fails with [ENOENT] or [ENOTDIR] only. *)
Lemma stat_cases t p :
  (∃ n, stat t p = inr n) ∨ stat t p = inl ENOENT ∨ stat t p = inl ENOTDIR.
Proof.
  induction p as [|c p IH]; [left; by eexists|].
  rewrite stat_cons.
  destruct IH as [[[|c'] ->]|[->| ->]]; auto.
  destruct (is_root (c :: p)); [left; by eexists|].
  destruct (t !! (c :: p)); [left; by eexists|auto].
Qed.

(** An entry is reachable only through a reachable directory. *)
Lemma stat_inr_parent t c p n :
  stat t (c :: p) = inr n → stat t p = inr Dir.
Proof.
  rewrite stat_cons. by destruct (stat t p) as [e|[|c']].
Qed.

(** Writing at [p] is invisible from every path [p] is not on the way to. *)
Lemma stat_insert_frame t p n q :
  ¬ p `suffix_of` q → stat (<[p := n]> t) q = stat t q.
Proof.
  induction q as [|c q IH]; intros Hs; [done|].
  rewrite !stat_cons. rewrite IH.
  - rewrite lookup_insert_ne; [done|]. intros ->. by apply Hs.
  - intros H. apply Hs. by apply suffix_cons_r.
Qed.

Lemma not_suffix_cons {A} (c : A) (p : list A) : ¬ (c :: p) `suffix_of` p.
Proof. intros H%suffix_length. simpl in H. lia. Qed.

Lemma stat_insert_self t c p n :
  stat t p = inr Dir → is_root (c :: p) = false →
  stat (<[c :: p := n]> t) (c :: p) = inr n.
Proof.
  intros Hp Hr. rewrite stat_cons.
  rewrite stat_insert_frame by apply not_suffix_cons.
  rewrite Hp, Hr. by rewrite lookup_insert_eq.
Qed.

(** ** Splitting and joining path strings *)

Lemma split_path_nonempty s : split_path s ≠ [].
Proof.
  destruct s as [|c s]; [done|]. simpl.
  destruct (Ascii.eqb c slash); [done|]. by destruct (split_path s).
Qed.

Lemma string_app_nil_r (s : string) : s +:+ "" = s.
Proof. induction s as [|c s IH]; [done|]. simpl. by rewrite IH. Qed.

Lemma string_app_assoc (a b c : string) : (a +:+ b) +:+ c = a +:+ b +:+ c.
Proof. induction a as [|x a IH]; [done|]. simpl. by rewrite IH. Qed.

Lemma string_length_app (a b : string) :
  String.length (a +:+ b) = String.length a + String.length b.
Proof. induction a as [|c a IH]; simpl; [done|]. by rewrite IH. Qed.

Lemma split_path_no_slash s : no_slash s = true → split_path s = [s].
Proof.
  induction s as [|c s IH]; [done|]. simpl.
  intros [Hc Hs]%andb_true_iff. apply negb_true_iff in Hc. rewrite Hc.
  by rewrite IH.
Qed.

(** Components of a path extended by one name. *)
Lemma split_path_app_name a name :
  no_slash name = true →
  split_path (a +:+ "/" +:+ name) = split_path a ++ [name].
Proof.
  intros Hn. induction a as [|c a IH]; simpl in *.
  - by rewrite split_path_no_slash.
  - rewrite IH. destruct (Ascii.eqb c slash); [done|].
    pose proof (split_path_nonempty a).
    by destruct (split_path a).
Qed.

Lemma ends_with_slash_inv a :
  ends_with_slash a = true → ∃ a', a = a' +:+ "/".
Proof.
  induction a as [|c a IH]; [done|]. simpl.
  destruct a as [|c' a].
  - intros H%Ascii.eqb_eq. subst c. by exists "".
  - intros [a' Ha]%IH. exists (String c a'). simpl. by rewrite Ha.
Qed.

Lemma split_path_trailing_slash a :
  split_path (a +:+ "/") = split_path a ++ [""].
Proof.
  pose proof (split_path_app_name a "" eq_refl) as H.
  by rewrite string_app_nil_r in H.
Qed.

Lemma starts_with_slash_app a b :
  a ≠ "" → starts_with_slash (a +:+ b) = starts_with_slash a.
Proof. by destruct a. Qed.

(** The path of a plain name joined to a directory: the name, inside the
    directory. *)
Lemma resolve_join_name a name :
  a ≠ "" → no_slash name = true → proper_component name = true →
  resolve (os_path_join a name) = name :: resolve a.
Proof.
  intros Ha Hn Hp. unfold os_path_join.
  assert (starts_with_slash name = false) as ->.
  { destruct name as [|c name]; [done|]. simpl in *.
    apply andb_true_iff in Hn as [Hc _]. by apply negb_true_iff in Hc. }
  assert (String.eqb a "" = false) as -> by by apply String.eqb_neq.
  destruct (ends_with_slash a) eqn:He; cbn [orb]; unfold resolve.
  - apply ends_with_slash_inv in He as [a' ->].
    rewrite string_app_assoc, split_path_app_name by done.
    rewrite split_path_trailing_slash.
    rewrite <-string_app_assoc, !starts_with_slash_app by done.
    rewrite !filter_app, !rev_app_distr. simpl.
    rewrite !filter_cons, !filter_nil. by rewrite Hp.
  - rewrite split_path_app_name by done.
    rewrite starts_with_slash_app by done.
    rewrite filter_app, rev_app_distr. simpl.
    rewrite filter_cons, filter_nil. by rewrite decide_True by done.
Qed.

(** ** JSON encoding and decoding *)

Lemma pyval_ind' (P : pyval → Prop) :
  P PNone → (∀ b, P (PBool b)) → (∀ z, P (PInt z)) → (∀ s, P (PStr s)) →
  (∀ l, Forall P l → P (PList l)) →
  (∀ l, Forall P l → P (PTuple l)) →
  (∀ seed, P (PRandomState seed)) →
  ∀ v, P v.
Proof.
  intros HNone HBool HInt HStr HList HTuple HRng.
  fix F 1.
  intros [ |b|z|s|l|l|seed];
    [apply HNone|apply HBool|apply HInt|apply HStr| | |apply HRng].
  - apply HList. induction l as [|x r IHr]; constructor; [apply F|apply IHr].
  - apply HTuple. induction l as [|x r IHr]; constructor; [apply F|apply IHr].
Qed.

(** A plain value is encoded, and decoding the result gives it back. *)
Lemma to_json_plain v :
  plain v = true → ∃ j, to_json v = Some j ∧ from_json j = v.
Proof.
  induction v as [ |b|z|s|l IH|l IH|seed] using pyval_ind';
    simpl; intros Hp; try done; try (by eexists).
  match goal with
  | |- ∃ j, JArr <$> ?G = Some j ∧ _ =>
      assert (∃ js, G = Some js ∧ map from_json js = l) as (js & -> & Hjs)
  end.
  - clear -IH Hp. induction IH as [|x r Hx _ IHr]; simpl in *.
    + by exists [].
    + apply andb_true_iff in Hp as [Hpx Hpr].
      destruct (Hx Hpx) as (j & -> & Hj).
      destruct (IHr Hpr) as (js & -> & Hjs).
      exists (j :: js). simpl. by rewrite Hj, Hjs.
  - exists (JArr js). simpl. by rewrite Hjs.
Qed.

Lemma foldl_insert_list_to_map (l : list (string * pyval)) (acc : dict) :
  NoDup l.*1 →
  foldl (λ m kv, <[kv.1 := kv.2]> m) acc l = list_to_map l ∪ acc.
Proof.
  revert acc. induction l as [|[k v] l IH]; intros acc Hnd; simpl.
  - by rewrite (left_id_L ∅ (∪)).
  - apply NoDup_cons in Hnd as [Hk Hnd]. rewrite IH by done.
    rewrite <-insert_union_l. symmetry. apply insert_union_r.
    by apply not_elem_of_list_to_map_1.
Qed.

Lemma foldl_insert_map_to_list (m : dict) :
  foldl (λ m' kv, <[kv.1 := kv.2]> m') ∅ (map_to_list m) = m.
Proof.
  rewrite foldl_insert_list_to_map by apply NoDup_fst_map_to_list.
  by rewrite (right_id_L ∅ (∪)), list_to_map_to_list.
Qed.

Lemma mapM_to_json_plain (l : list (string * pyval)) :
  Forall (λ kv, plain kv.2 = true) l →
  ∃ doc, mapM (λ kv : string * pyval, pair kv.1 <$> to_json kv.2) l = Some doc
         ∧ (λ kj : string * json, (kj.1, from_json kj.2)) <$> doc = l.
Proof.
  induction 1 as [|[k v] l Hv _ (doc & Hdoc & Hl)].
  - by exists [].
  - simpl in Hv. destruct (to_json_plain v Hv) as (j & Hj & Hjv).
    exists ((k, j) :: doc). split.
    + simpl. by rewrite Hj, Hdoc.
    + rewrite fmap_cons. simpl. by rewrite Hjv, Hl.
Qed.

(** A dictionary of plain values survives the trip through its JSON
    document. *)
Lemma encode_decode_dict (m : dict) :
  map_Forall (λ _ v, plain v = true) m →
  ∃ doc, encode_dict m = Some doc ∧ decode_dict doc = m.
Proof.
  intros Hm. unfold encode_dict, decode_dict.
  destruct (mapM_to_json_plain (map_to_list m)) as (doc & Hdoc & Hl).
  { apply Forall_forall. intros [k v] Hkv%elem_of_map_to_list. by eapply Hm. }
  exists doc. split; [done|].
  etrans; [|apply foldl_insert_map_to_list].
  rewrite <-Hl. by rewrite foldl_fmap.
Qed.

(** ** Opening, writing and reading files *)

Lemma stat_str_nonempty t s :
  s ≠ "" → stat_str t s = stat t (resolve s).
Proof.
  intros Hs. unfold stat_str. by apply String.eqb_neq in Hs as ->.
Qed.

Lemma stat_str_inr t s n :
  stat_str t s = inr n → s ≠ "" ∧ stat t (resolve s) = inr n.
Proof.
  unfold stat_str. destruct (String.eqb_spec s ""); [done|]. by intros ->.
Qed.

Lemma open_w_inv fname σ f σ' :
  open_w fname σ = (Return f, σ') →
  fname ≠ "" ∧ resolve fname = f ∧ is_root f = false
  ∧ stat (fs σ) (tail f) = inr Dir
  ∧ σ' = State (heap σ) (<[f := File (CText "")]> (fs σ)).
Proof.
  unfold open_w. destruct (String.eqb_spec fname ""); [done|].
  run. destruct (resolve fname) as [|c p]; [done|].
  destruct (stat (fs σ) p) as [e|[|c']] eqn:Hp; try done.
  destruct (is_root (c :: p)) eqn:Hr; [done|].
  destruct (fs σ !! (c :: p)) as [[|c']|]; try done;
    by intros [= <- <-].
Qed.

Lemma open_w_run fname σ c p :
  fname ≠ "" → resolve fname = c :: p → is_root (c :: p) = false →
  stat (fs σ) p = inr Dir → fs σ !! (c :: p) ≠ Some Dir →
  open_w fname σ =
  (Return (c :: p), State (heap σ) (<[c :: p := File (CText "")]> (fs σ))).
Proof.
  intros Hn Hres Hr Hp Hnd. unfold open_w.
  apply String.eqb_neq in Hn as ->. run. rewrite Hres, Hp, Hr.
  by destruct (fs σ !! (c :: p)) as [[|c']|].
Qed.

Lemma file_put_run σ f c c0 :
  fs σ !! f = Some (File c0) →
  file_put f c σ = (Return tt, State (heap σ) (<[f := File c]> (fs σ))).
Proof. intros H. unfold file_put. run. by rewrite H. Qed.

Lemma file_read_run σ f c :
  fs σ !! f = Some (File c) → file_read f σ = (Return c, σ).
Proof. intros H. unfold file_read. run. by rewrite H. Qed.

Lemma file_write_fresh σ f s :
  fs σ !! f = Some (File (CText "")) →
  file_write f s σ =
  (Return tt, State (heap σ) (<[f := File (CText s)]> (fs σ))).
Proof.
  intros H. unfold file_write.
  rewrite (run_bind_return _ _ _ _ _ (file_read_run _ _ _ H)).
  by rewrite (file_put_run _ _ _ _ H).
Qed.

Lemma no_slash_not_root name p :
  no_slash name = true → name ≠ "" → is_root (name :: p) = false.
Proof.
  intros Hn Hne. destruct p; [|done]. simpl.
  apply String.eqb_neq. intros ->. done.
Qed.

Lemma proper_component_nonempty name :
  proper_component name = true → name ≠ "".
Proof. by intros H ->. Qed.

Lemma os_path_join_nonempty a b : a ≠ "" → os_path_join a b ≠ "".
Proof.
  intros Ha. unfold os_path_join.
  destruct (starts_with_slash b) eqn:Hb; [by destruct b|].
  destruct (_ || _); by destruct a.
Qed.

(** Where a plain name lands when it is opened for writing inside an
    existing directory. *)
Lemma open_w_in_dir σ dir name :
  is_dir (stat_str (fs σ) dir) = true →
  no_slash name = true → proper_component name = true →
  fs σ !! (name :: resolve dir) ≠ Some Dir →
  resolve (os_path_join dir name) = name :: resolve dir
  ∧ open_w (os_path_join dir name) σ =
    (Return (name :: resolve dir),
     State (heap σ) (<[name :: resolve dir := File (CText "")]> (fs σ))).
Proof.
  intros Hd Hn Hp Hnd.
  destruct (stat_str (fs σ) dir) as [e|[|c]] eqn:Hs; try done.
  apply stat_str_inr in Hs as [Hne Hs].
  pose proof (resolve_join_name dir name Hne Hn Hp) as Hres.
  split; [done|].
  apply open_w_run; try done.
  - by apply os_path_join_nonempty.
  - apply no_slash_not_root; [done|]. by apply proper_component_nonempty.
Qed.

(** What is found afterwards at the place a file was written. *)
Lemma stat_str_written t dir name n :
  is_dir (stat_str t dir) = true →
  no_slash name = true → proper_component name = true →
  stat_str (<[name :: resolve dir := n]> t) (os_path_join dir name) = inr n.
Proof.
  intros Hd Hn Hp.
  destruct (stat_str t dir) as [e|[|c]] eqn:Hs; try done.
  apply stat_str_inr in Hs as [Hne Hs].
  rewrite stat_str_nonempty by by apply os_path_join_nonempty.
  rewrite resolve_join_name by done.
  apply stat_insert_self; [done|].
  apply no_slash_not_root; [done|]. by apply proper_component_nonempty.
Qed.

Lemma stat_file_lookup t p c :
  stat t p = inr (File c) → t !! p = Some (File c).
Proof.
  destruct p as [|x p]; [done|]. rewrite stat_cons.
  destruct (stat t p) as [e|[|c']]; try done.
  destruct (is_root (x :: p)); [done|].
  destruct (t !! (x :: p)); [|done]. by intros [= ->].
Qed.

Lemma open_r_run σ fname c :
  stat_str (fs σ) fname = inr (File c) →
  open_r fname σ = (Return (resolve fname), σ).
Proof. intros H. unfold open_r. run. by rewrite H. Qed.

Lemma isfile_true_run σ fname c :
  stat_str (fs σ) fname = inr (File c) →
  os_path_isfile fname σ = (Return true, σ).
Proof. intros H. unfold os_path_isfile. run. by rewrite H. Qed.

(** ** Loading a stored hyper-parameter file *)

Lemma RandomState_run σ z :
  (0 ≤ z ≤ max_seed)%Z →
  RandomState (PInt z) σ = (Return (PRandomState z), σ).
Proof.
  intros [H0 H1]. unfold RandomState.
  apply Z.leb_le in H0, H1. by rewrite H0, H1.
Qed.

Lemma RandomState_out_of_range σ z :
  (z < 0 ∨ max_seed < z)%Z →
  RandomState (PInt z) σ = (Raise ValueError, σ).
Proof.
  intros H. unfold RandomState.
  destruct (0 <=? z)%Z eqn:H0; [|done].
  destruct (z <=? max_seed)%Z eqn:H1; [|done].
  apply Z.leb_le in H0, H1. lia.
Qed.

(** When [hparams.json] holds a document with an integer seed that numpy
    accepts after the offset, [load_hparams] returns a new mapping: the
    decoded document, with a generator handle seeded at that seed plus 1000
    under ['rng']. *)
Lemma load_hparams_run σ save_dir doc seed :
  stat_str (fs σ) (os_path_join save_dir "hparams.json")
  = inr (File (CJson doc)) →
  decode_dict doc !! "seed" = Some (PInt seed) →
  (0 ≤ seed + 1000 ≤ max_seed)%Z →
  load_hparams save_dir σ =
  (Return (Some (length (heap σ))),
   State (heap σ ++ [<["rng" := PRandomState (seed + 1000)]> (decode_dict doc)])
         (fs σ)).
Proof.
  intros Hst Hseed Hrange. unfold load_hparams.
  rewrite (run_bind_return _ _ _ _ _ (isfile_true_run _ _ _ Hst)). simpl.
  rewrite (run_bind_return _ _ _ _ _ (open_r_run _ _ _ Hst)).
  apply stat_str_inr in Hst as [_ Hst%stat_file_lookup].
  assert (json_load (resolve (os_path_join save_dir "hparams.json")) σ
          = (Return (length (heap σ)),
             State (heap σ ++ [decode_dict doc]) (fs σ))) as Hload.
  { unfold json_load.
    by rewrite (run_bind_return _ _ _ _ _ (file_read_run _ _ _ Hst)). }
  rewrite (run_bind_return _ _ _ _ _ Hload).
  set (σ1 := State _ _).
  assert (heap σ1 !! length (heap σ) = Some (decode_dict doc)) as Hl
    by apply lookup_snoc_new.
  assert (dict_getitem (length (heap σ)) "seed" σ1 = (Return (PInt seed), σ1))
    as Hget.
  { unfold dict_getitem.
    rewrite (run_bind_return _ _ _ _ _ (deref_run _ _ _ Hl)).
    by rewrite Hseed. }
  rewrite (run_bind_return _ _ _ _ _ Hget).
  rewrite (run_bind_return _ _ σ1 (PInt (seed + 1000)) σ1) by reflexivity.
  rewrite (run_bind_return _ _ σ1 (PRandomState (seed + 1000)) σ1)
    by by apply RandomState_run.
  rewrite (run_bind_return _ _ _ _ _ (dict_setitem_run _ _ _ _ _ Hl)).
  simpl. by rewrite insert_snoc_new.
Qed.

(** ** Saving, then loading *)

Lemma open_w_in_dir_any σ dir name :
  is_dir (stat_str (fs σ) dir) = true →
  no_slash name = true → proper_component name = true →
  is_dir (stat_str (fs σ) (os_path_join dir name)) = false →
  ∀ h, open_w (os_path_join dir name) (State h (fs σ))
       = (Return (name :: resolve dir),
          State h (<[name :: resolve dir := File (CText "")]> (fs σ))).
Proof.
  intros Hd Hn Hp Hnd h.
  apply (open_w_in_dir (State h (fs σ))); try done.
  intros Hl. simpl in Hl.
  destruct (stat_str (fs σ) dir) as [e|[|c]] eqn:Hs; try done.
  apply stat_str_inr in Hs as [Hne Hs].
  rewrite stat_str_nonempty in Hnd by by apply os_path_join_nonempty.
  rewrite resolve_join_name, stat_cons, Hs in Hnd by done.
  rewrite Hl in Hnd. by destruct (is_root _).
Qed.

(** [save_hparams] once the file can be opened.  Under Python 2 the
    stripped copy is encoded and written, or the encoder fails and leaves
    an incomplete document; under Python 3 the write fails and leaves the
    file empty. *)
Lemma save_hparams_steps v σ hparams d r save_dir f :
  heap σ !! hparams = Some d → d !! "rng" = Some r →
  (∀ h, open_w (os_path_join save_dir "hparams.json") (State h (fs σ))
        = (Return f, State h (<[f := File (CText "")]> (fs σ)))) →
  save_hparams v hparams save_dir σ =
  match v with
  | Py2 =>
      match encode_dict (delete "rng" d) with
      | Some doc =>
          (Return tt, State (heap σ ++ [delete "rng" d])
                            (<[f := File (CJson doc)]> (fs σ)))
      | None =>
          (Raise TypeError, State (heap σ ++ [delete "rng" d])
                                  (<[f := File CPartial]> (fs σ)))
      end
  | Py3 =>
      (Raise TypeError, State (heap σ ++ [delete "rng" d])
                              (<[f := File (CText "")]> (fs σ)))
  end.
Proof.
  intros H Hr Hopen. unfold save_hparams.
  rewrite (run_bind_return _ _ _ _ _ (dict_copy_run _ _ _ H)).
  set (σ1 := State (heap σ ++ [d]) (fs σ)).
  assert (heap σ1 !! length (heap σ) = Some d) as H1 by apply lookup_snoc_new.
  rewrite (run_bind_return _ _ _ _ _ (dict_pop_present _ _ _ _ _ H1 Hr)).
  simpl. rewrite insert_snoc_new.
  rewrite (run_bind_return _ _ _ _ _ (Hopen _)).
  set (σ3 := State _ _).
  unfold json_dump.
  assert (heap σ3 !! length (heap σ) = Some (delete "rng" d)) as H3
    by apply lookup_snoc_new.
  rewrite (run_bind_return _ _ _ _ _ (deref_run _ _ _ H3)).
  destruct v; [|done].
  destruct (encode_dict (delete "rng" d)) as [doc|].
  - erewrite file_put_run by apply lookup_insert_eq.
    simpl. by rewrite insert_insert_eq.
  - erewrite run_bind_return; [|by erewrite file_put_run by apply lookup_insert_eq].
    simpl. by rewrite insert_insert_eq.
Qed.

(** A file that does not hold a JSON document makes [load_hparams] fail
    in the decoder. *)
Lemma load_hparams_not_json σ save_dir c :
  stat_str (fs σ) (os_path_join save_dir "hparams.json") = inr (File c) →
  (∀ doc, c ≠ CJson doc) →
  load_hparams save_dir σ = (Raise ValueError, σ).
Proof.
  intros Hst Hc. unfold load_hparams.
  rewrite (run_bind_return _ _ _ _ _ (isfile_true_run _ _ _ Hst)). simpl.
  rewrite (run_bind_return _ _ _ _ _ (open_r_run _ _ _ Hst)).
  apply stat_str_inr in Hst as [_ Hst%stat_file_lookup].
  apply run_bind_raise. unfold json_load.
  rewrite (run_bind_return _ _ _ _ _ (file_read_run _ _ _ Hst)).
  destruct c as [s|doc| |]; try done. by destruct (Hc doc).
Qed.


(** Under Python 3 the same call fails at the first write and leaves the
    file empty. *)
Lemma save_hparams_py3 σ hparams d save_dir :
  heap σ !! hparams = Some d →
  is_Some (d !! "rng") →
  is_dir (stat_str (fs σ) save_dir) = true →
  is_dir (stat_str (fs σ) (os_path_join save_dir "hparams.json")) = false →
  save_hparams Py3 hparams save_dir σ =
  (Raise TypeError,
   State (heap σ ++ [delete "rng" d])
         (<["hparams.json" :: resolve save_dir := File (CText "")]> (fs σ))).
Proof.
  intros H [r Hr] Hdir Hnd.
  pose proof (open_w_in_dir_any σ save_dir "hparams.json" Hdir
                eq_refl eq_refl Hnd) as Hopen.
  by rewrite (save_hparams_steps Py3 _ _ _ _ _ _ H Hr Hopen).
Qed.





(** ** Creating directories *)

Lemma mkdir_cons t c parent :
  mkdir t (c :: parent) =
  match stat t parent with
  | inl e => inl e
  | inr (File _) => inl ENOTDIR
  | inr Dir =>
      if is_root (c :: parent) then inl EEXIST
      else match t !! (c :: parent) with
           | Some _ => inl EEXIST
           | None => inr (<[c :: parent := Dir]> t)
           end
  end.
Proof. reflexivity. Qed.

Lemma mkdir_inr t p t' :
  mkdir t p = inr t' →
  t' = <[p := Dir]> t ∧ stat t' p = inr Dir ∧ t !! p = None.
Proof.
  destruct p as [|c p]; [done|]. rewrite mkdir_cons.
  destruct (stat t p) as [e|[|c']] eqn:Hp; try done.
  destruct (is_root (c :: p)) eqn:Hr; [done|].
  destruct (t !! (c :: p)) eqn:Hl; [done|].
  intros [= <-]. split_and!; [done| |done].
  by apply stat_insert_self.
Qed.

Lemma mkdir_existing t p n : stat t p = inr n → mkdir t p = inl EEXIST.
Proof.
  destruct p as [|c p]; [done|]. rewrite stat_cons, mkdir_cons.
  destruct (stat t p) as [e|[|c']]; try done.
  destruct (is_root (c :: p)); [done|].
  by destruct (t !! (c :: p)).
Qed.

Lemma mkdir_under_file t c p x :
  stat t p = inr (File x) → mkdir t (c :: p) = inl ENOTDIR.
Proof. intros H. by rewrite mkdir_cons, H. Qed.

Lemma makedirs_cons t c head :
  makedirs t (c :: head) =
  if negb (os_path_exists t head) then
    match makedirs t head with
    | inr t' => mkdir t' (c :: head)
    | inl e => if errno_eqb e EEXIST then mkdir t (c :: head) else inl e
    end
  else mkdir t (c :: head).
Proof. reflexivity. Qed.

(** [makedirs] on a path that exists already: [EEXIST]. *)
Lemma makedirs_existing t p n : stat t p = inr n → makedirs t p = inl EEXIST.
Proof.
  intros H. destruct p as [|c p]; [done|]. rewrite makedirs_cons.
  unfold os_path_exists. rewrite (stat_inr_parent _ _ _ _ H). cbn [negb].
  by eapply mkdir_existing.
Qed.

(** [makedirs] through a regular file: [ENOTDIR]. *)
Lemma makedirs_notdir t p :
  stat t p = inl ENOTDIR → makedirs t p = inl ENOTDIR.
Proof.
  induction p as [|c p IH]; [done|]. rewrite stat_cons.
  rewrite makedirs_cons. unfold os_path_exists.
  destruct (stat t p) as [e|[|x]] eqn:Hp.
  - intros [= ->]. cbn [negb]. by rewrite IH.
  - destruct (is_root (c :: p)); [done|]. by destruct (t !! (c :: p)).
  - intros _. cbn [negb]. by eapply mkdir_under_file.
Qed.

(** When it returns, [makedirs] leaves a directory at the path. *)
Lemma makedirs_inr_stat t p t' : makedirs t p = inr t' → stat t' p = inr Dir.
Proof.
  destruct p as [|c p]; [done|]. rewrite makedirs_cons.
  destruct (negb _).
  - destruct (makedirs t p) as [e|t1].
    + destruct (errno_eqb e EEXIST); [|done]. by intros (_&?&_)%mkdir_inr.
    + by intros (_&?&_)%mkdir_inr.
  - by intros (_&?&_)%mkdir_inr.
Qed.

(** On a well-formed filesystem, [makedirs] creates a path that is missing
    and not blocked by a file; entries off the path are untouched. *)
Lemma makedirs_creates t p :
  fs_wf t → stat t p = inl ENOENT →
  ∃ t', makedirs t p = inr t'
        ∧ stat t' p = inr Dir
        ∧ ∀ q, ¬ q `suffix_of` p → t' !! q = t !! q.
Proof.
  intros Hwf. induction p as [|c p IH]; [done|]. intros Hst.
  rewrite makedirs_cons. unfold os_path_exists.
  pose proof Hst as Hst'. rewrite stat_cons in Hst'.
  destruct (stat t p) as [e|[|x]] eqn:Hp; try done.
  - (* the parent is missing too *)
    injection Hst' as ->. cbn [negb].
    destruct IH as (t1 & -> & Hp1 & Hframe); [done|].
    assert (is_root (c :: p) = false) as Hr.
    { destruct p as [|c' p]; [done|]. done. }
    assert (t1 !! (c :: p) = None) as Hnone.
    { rewrite Hframe by apply not_suffix_cons.
      destruct (t !! (c :: p)) as [n|] eqn:Hl; [|done].
      apply Hwf in Hl as [_ Hd]. simpl in Hd. by rewrite Hp in Hd. }
    exists (<[c :: p := Dir]> t1). split_and!.
    + by rewrite mkdir_cons, Hp1, Hr, Hnone.
    + by apply stat_insert_self.
    + intros q Hq. rewrite lookup_insert_ne.
      * apply Hframe. intros Hs. apply Hq. by apply suffix_cons_r.
      * intros <-. by apply Hq.
  - (* the parent is a directory *)
    cbn [negb].
    destruct (is_root (c :: p)) eqn:Hr; [done|].
    destruct (t !! (c :: p)) eqn:Hl; [done|].
    exists (<[c :: p := Dir]> t). split_and!.
    + by rewrite mkdir_cons, Hp, Hr, Hl.
    + by apply stat_insert_self.
    + intros q Hq. apply lookup_insert_ne. intros <-. by apply Hq.
Qed.

(** ** [mkdir_p] *)

Lemma os_makedirs_run σ path :
  path ≠ "" →
  os_makedirs path σ =
  match makedirs (fs σ) (resolve path) with
  | inr t' => (Return tt, State (heap σ) t')
  | inl e => (Raise (OSError e), σ)
  end.
Proof.
  intros Hp. unfold os_makedirs. apply String.eqb_neq in Hp as ->.
  run. by destruct (makedirs _ _).
Qed.

Lemma mkdir_p_empty σ : mkdir_p "" σ = (Raise (OSError ENOENT), σ).
Proof. reflexivity. Qed.

(** The directory is there already: nothing changes. *)
Lemma mkdir_p_existing_dir σ path :
  stat_str (fs σ) path = inr Dir → mkdir_p path σ = (Return tt, σ).
Proof.
  intros H. pose proof H as [Hne Hst]%stat_str_inr.
  unfold mkdir_p, try_except. rewrite os_makedirs_run by done.
  rewrite (makedirs_existing _ _ _ Hst). simpl.
  unfold os_path_isdir. run. by rewrite H.
Qed.

(** A regular file sits at the path: the [EEXIST] error is raised again. *)
Lemma mkdir_p_existing_file σ path c :
  stat_str (fs σ) path = inr (File c) →
  mkdir_p path σ = (Raise (OSError EEXIST), σ).
Proof.
  intros H. pose proof H as [Hne Hst]%stat_str_inr.
  unfold mkdir_p, try_except. rewrite os_makedirs_run by done.
  rewrite (makedirs_existing _ _ _ Hst). simpl.
  unfold os_path_isdir. run. by rewrite H.
Qed.

(** A regular file sits on the way to the path: [ENOTDIR] propagates. *)
Lemma mkdir_p_through_file σ path :
  stat_str (fs σ) path = inl ENOTDIR →
  mkdir_p path σ = (Raise (OSError ENOTDIR), σ).
Proof.
  intros H. destruct (String.eqb_spec path "") as [->|Hne]; [done|].
  rewrite stat_str_nonempty in H by done.
  unfold mkdir_p, try_except. rewrite os_makedirs_run by done.
  by rewrite (makedirs_notdir _ _ H).
Qed.

(** The path is missing: it is created. *)
Lemma mkdir_p_creates σ path :
  fs_wf (fs σ) → path ≠ "" → stat_str (fs σ) path = inl ENOENT →
  ∃ t', mkdir_p path σ = (Return tt, State (heap σ) t')
        ∧ stat t' (resolve path) = inr Dir
        ∧ ∀ q, ¬ q `suffix_of` resolve path → t' !! q = fs σ !! q.
Proof.
  intros Hwf Hne H. rewrite stat_str_nonempty in H by done.
  destruct (makedirs_creates _ _ Hwf H) as (t' & Hmk & Hst & Hframe).
  exists t'. split_and!; [|done|done].
  unfold mkdir_p, try_except. rewrite os_makedirs_run by done.
  by rewrite Hmk.
Qed.

(** A normal return of [mkdir_p] leaves a directory at the path. *)
Lemma mkdir_p_return_isdir σ path σ' :
  mkdir_p path σ = (Return tt, σ') →
  stat_str (fs σ') path = inr Dir ∧ heap σ' = heap σ.
Proof.
  destruct (String.eqb_spec path "") as [->|Hne]; [done|].
  unfold mkdir_p, try_except. rewrite os_makedirs_run by done.
  destruct (makedirs (fs σ) (resolve path)) as [e|t'] eqn:Hmk.
  - destruct e; simpl; try done.
    unfold os_path_isdir. run.
    destruct (stat_str (fs σ) path) as [e|[|c]] eqn:Hs; try done.
    by intros [= <-].
  - intros [= <-]. simpl. rewrite stat_str_nonempty by done.
    split; [|done]. by eapply makedirs_inr_stat.
Qed.

(** ** Files in the way *)

Lemma suffix_cons_cases {A} (q p : list A) c :
  q `suffix_of` c :: p → q = c :: p ∨ q `suffix_of` p.
Proof.
  destruct q as [|x q]; [right; apply suffix_nil|]. apply suffix_cons_inv.
Qed.

Lemma blocked_stat t p :
  blocked t p ↔ is_file (stat t p) = true ∨ stat t p = inl ENOTDIR.
Proof.
  split.
  - intros (q & Hq & Hf). induction p as [|c p IH].
    + apply suffix_nil_inv in Hq as ->. by left.
    + apply suffix_cons_cases in Hq as [->|Hq]; [by left|].
      right. rewrite stat_cons.
      destruct (IH Hq) as [Hfile| ->]; [|done].
      by destruct (stat t p) as [e|[|x]].
  - intros [Hf|He]; [exists p; by split|].
    induction p as [|c p IH]; [done|]. rewrite stat_cons in He.
    destruct (stat t p) as [e|[|x]] eqn:Hp.
    + injection He as ->. destruct IH as (q & Hq & Hf); [done|].
      exists q. split; [by apply suffix_cons_r|done].
    + destruct (is_root (c :: p)); [done|]. by destruct (t !! (c :: p)).
    + exists p. split; [by apply suffix_cons_r|]. by rewrite Hp.
Qed.

(** On a well-formed filesystem [mkdir_p] returns unless a regular file is
    in the way. *)
Lemma mkdir_p_succeeds σ path :
  fs_wf (fs σ) → path ≠ "" → ¬ blocked (fs σ) (resolve path) →
  ∃ t', mkdir_p path σ = (Return tt, State (heap σ) t')
        ∧ stat t' (resolve path) = inr Dir
        ∧ ∀ q, ¬ q `suffix_of` resolve path → t' !! q = fs σ !! q.
Proof.
  intros Hwf Hne Hnb.
  destruct (stat_cases (fs σ) (resolve path)) as [[[|c] Hst]|[Hst|Hst]].
  - exists (fs σ). split_and!; [|done|done].
    rewrite mkdir_p_existing_dir; [by destruct σ|].
    by rewrite stat_str_nonempty.
  - destruct Hnb. apply blocked_stat. left. by rewrite Hst.
  - apply mkdir_p_creates; [done|done|]. by rewrite stat_str_nonempty.
  - destruct Hnb. apply blocked_stat. by right.
Qed.

(** What [mkdir_p] makes of the outcome of [os.makedirs]: a normal return
    is passed on, [EEXIST] is swallowed when the path is a directory, and
    every other error is raised again. *)
Lemma mkdir_p_handles σ path :
  mkdir_p path σ =
  match os_makedirs path σ with
  | (Return tt, σ') => (Return tt, σ')
  | (Raise (OSError EEXIST), σ') =>
      if is_dir (stat_str (fs σ') path) then (Return tt, σ')
      else (Raise (OSError EEXIST), σ')
  | (Raise e, σ') => (Raise e, σ')
  end.
Proof.
  unfold mkdir_p, try_except.
  destruct (os_makedirs path σ) as [[[]|e] σ']; [done|].
  destruct e as [en|en|k| | | | |]; try done.
  destruct en; try done. simpl.
  unfold os_path_isdir. run.
  by destruct (stat_str (fs σ') path) as [e|[|c]].
Qed.

(** C8 (amended). [mkdir_p] is idempotent: when a call returns, a second
    call on the same path returns too and changes nothing, and the path
    holds a directory; on a path that is a directory already the call
    returns and changes nothing.  The call passes on the outcome of the
    directory creation, except that the error [EEXIST] is swallowed when
    the path is a directory.  So it fails when the path is empty or a
    regular file is in the way, at the path itself or at one of its
    ancestors, with the error of the directory creation and without
    changing anything. *)
Theorem mkdir_p_idempotent (σ : state) (path : string) :
  (∀ σ1, mkdir_p path σ = (Return tt, σ1) →
         mkdir_p path σ1 = (Return tt, σ1)
         ∧ stat_str (fs σ1) path = inr Dir)
  ∧ (stat_str (fs σ) path = inr Dir → mkdir_p path σ = (Return tt, σ))
  ∧ (∀ σ', os_makedirs path σ = (Return tt, σ') →
           mkdir_p path σ = (Return tt, σ'))
  ∧ (∀ e σ', os_makedirs path σ = (Raise e, σ') →
       mkdir_p path σ =
       match e with
       | OSError EEXIST =>
           if is_dir (stat_str (fs σ') path) then (Return tt, σ')
           else (Raise e, σ')
       | _ => (Raise e, σ')
       end)
  ∧ (path = "" ∨ blocked (fs σ) (resolve path) →
       ∃ en, mkdir_p path σ = (Raise (OSError en), σ)).
Proof.
  split_and!.
  - intros σ1 [Hd _]%mkdir_p_return_isdir. split; [|done].
    by apply mkdir_p_existing_dir.
  - apply mkdir_p_existing_dir.
  - intros σ' Hmk. by rewrite mkdir_p_handles, Hmk.
  - intros e σ' Hmk. rewrite mkdir_p_handles, Hmk.
    destruct e as [en|en|k| | | | |]; try reflexivity.
    destruct en; reflexivity.
  - intros [->|Hb]; [by exists ENOENT|].
    destruct (String.eqb_spec path "") as [->|Hne]; [by exists ENOENT|].
    apply blocked_stat in Hb as [Hf|He].
    + destruct (stat (fs σ) (resolve path)) as [e|[|c]] eqn:Hst; try done.
      exists EEXIST. eapply mkdir_p_existing_file.
      by rewrite stat_str_nonempty.
    + exists ENOTDIR. apply mkdir_p_through_file.
      by rewrite stat_str_nonempty.
Qed.

Lemma stat_empty p :
  stat (fs empty_state) p = inr Dir ∨ stat (fs empty_state) p = inl ENOENT.
Proof.
  induction p as [|c p IH]; [by left|]. rewrite stat_cons.
  destruct IH as [-> | ->]; [|by right].
  destruct (is_root (c :: p)); [by left|]. right.
  simpl. by rewrite lookup_empty.
Qed.

Lemma empty_not_blocked p : ¬ blocked (fs empty_state) p.
Proof.
  intros Hb%blocked_stat.
  destruct (stat_empty p) as [Hs|Hs]; rewrite Hs in Hb; by destruct Hb.
Qed.

Lemma empty_fs_wf : fs_wf (fs empty_state).
Proof. apply map_Forall_empty. Qed.

Lemma file_fs_wf : fs_wf (fs file_state).
Proof. apply map_Forall_singleton. by split. Qed.

Lemma mkdir_p_idempotent_witness :
  ∃ σ1, mkdir_p "jobs/sbatch" empty_state = (Return tt, σ1)
        ∧ mkdir_p "jobs/sbatch" σ1 = (Return tt, σ1)
        ∧ stat_str (fs σ1) "jobs/sbatch" = inr Dir
        ∧ ∃ en, mkdir_p "f/jobs" file_state = (Raise (OSError en), file_state).
Proof.
  destruct (mkdir_p_idempotent empty_state "jobs/sbatch")
    as (Hidem & _ & _ & _ & _).
  destruct (mkdir_p_idempotent file_state "f/jobs")
    as (_ & _ & _ & _ & Hfail).
  eexists. split; [reflexivity|].
  split_and!.
  - by apply Hidem.
  - by apply Hidem.
  - apply Hfail. right. exists ["f"]. split; [by exists ["jobs"]|reflexivity].
Defined.

(** C8, as stated, fails: in a working directory that holds the regular
    file [f], [mkdir_p "f/x"] raises although nothing exists at [f/x]; the
    error comes from the ancestor [f], not from an entry at the path. *)
Lemma mkdir_p_fails_without_entry :
  ¬ (∀ e σ', mkdir_p "f/x" file_state = (Raise e, σ') →
             is_file (stat_str (fs file_state) "f/x") = true).
Proof.
  intros Hclaim.
  specialize (Hclaim (OSError ENOTDIR) file_state eq_refl).
  discriminate Hclaim.
Qed.

(** ** Strings: occurrences and lines *)

Lemma prefix_app x post : String.prefix x (x +:+ post) = true.
Proof.
  induction x as [|c x IH]; simpl; [by destruct post|].
  by destruct (Ascii.ascii_dec c c).
Qed.

Lemma contains_unfold x s :
  contains x s =
  String.prefix x s
  || match s with EmptyString => false | String _ s' => contains x s' end.
Proof. by destruct s. Qed.

Lemma contains_prefix x s : String.prefix x s = true → contains x s = true.
Proof. intros H. by rewrite contains_unfold, H. Qed.

Lemma contains_app x pre post : contains x (pre +:+ x +:+ post) = true.
Proof.
  induction pre as [|c pre IH].
  - change (contains x (x +:+ post) = true).
    apply contains_prefix, prefix_app.
  - change (contains x (String c (pre +:+ x +:+ post)) = true).
    rewrite contains_unfold, IH. apply orb_true_r.
Qed.

Lemma embeds_line_app l pre post :
  embeds_line l (pre +:+ LF +:+ l +:+ LF +:+ post) = true.
Proof.
  unfold embeds_line.
  rewrite <-(string_app_assoc l LF post), <-(string_app_assoc LF (l +:+ LF) post).
  apply contains_app.
Qed.

Lemma embeds_line_at l pre post txt :
  txt = pre +:+ LF +:+ l +:+ LF +:+ post → embeds_line l txt = true.
Proof. intros ->. apply embeds_line_app. Qed.

Lemma lines_nonempty s : lines s ≠ [].
Proof.
  destruct s as [|c s]; [done|]. simpl.
  destruct (Ascii.eqb c newline); [done|]. by destruct (lines s).
Qed.

(** A piece without line break joins the line that follows it. *)
Lemma lines_app_one_line s rest :
  one_line s = true →
  lines (s +:+ rest) = (s +:+ hd "" (lines rest)) :: tl (lines rest).
Proof.
  pose proof (lines_nonempty rest) as Hne.
  induction s as [|c s IH]; simpl.
  - intros _. by destruct (lines rest).
  - intros [Hc Hs]%andb_true_iff. apply negb_true_iff in Hc. rewrite Hc.
    by rewrite IH.
Qed.

Lemma has_line_intro l txt : l ∈ lines txt → has_line l txt = true.
Proof. intros H. unfold has_line. by apply bool_decide_eq_true. Qed.

(** ** [write_jobfile] *)

(** Both branches open the same file and write one text into it. *)
Lemma write_jobfile_unfold cmd jobname sbatchpath scratchpath
    nodes ppn gpus mem nhours σ :
  write_jobfile cmd jobname sbatchpath scratchpath nodes ppn gpus mem nhours σ
  = (mkdir_p sbatchpath;;
     f ← open_w (os_path_join sbatchpath (jobname +:+ ".s"));
     file_write f
       (if (gpus =? 0)%Z
        then cpu_script cmd jobname scratchpath (os_path_join "log" jobname)
               nodes ppn mem nhours
        else gpu_script cmd jobname scratchpath (os_path_join "log" jobname)
               nodes ppn mem nhours);;
     ret (os_path_join sbatchpath (jobname +:+ ".s"))) σ.
Proof.
  unfold write_jobfile. rewrite !run_bind.
  destruct (mkdir_p sbatchpath σ) as [[[]|e] σ1]; [|done].
  cbv zeta.
  destruct (gpus =? 0)%Z; rewrite !run_bind;
    destruct (open_w _ σ1) as [[f|e] σ2]; try done;
    rewrite run_bind; by destruct (file_write f _ σ2) as [[[]|e] σ3].
Qed.

(** When [write_jobfile] returns, the path it returns is the full job name
    with extension [.s], joined to the script directory, and the file found
    there holds the text of the selected branch. *)
Lemma write_jobfile_inv cmd jobname sbatchpath scratchpath
    nodes ppn gpus mem nhours σ p σ' :
  write_jobfile cmd jobname sbatchpath scratchpath nodes ppn gpus mem nhours σ
  = (Return p, σ') →
  p = os_path_join sbatchpath (jobname +:+ ".s")
  ∧ read_text σ' p =
    Some (if (gpus =? 0)%Z
          then cpu_script cmd jobname scratchpath (os_path_join "log" jobname)
                 nodes ppn mem nhours
          else gpu_script cmd jobname scratchpath (os_path_join "log" jobname)
                 nodes ppn mem nhours)
  ∧ heap σ' = heap σ.
Proof.
  rewrite write_jobfile_unfold. rewrite run_bind.
  destruct (mkdir_p sbatchpath σ) as [[[]|e] σ1] eqn:Hmk; [|done].
  apply mkdir_p_return_isdir in Hmk as [_ Hheap].
  rewrite run_bind.
  destruct (open_w _ σ1) as [[f|e] σ2] eqn:Ho; [|done].
  apply open_w_inv in Ho as (Hne & Hres & Hr & Hp & ->).
  rewrite run_bind.
  rewrite file_write_fresh by apply lookup_insert_eq.
  simpl. unfold ret. intros [= <- <-]. split_and!; [done| |done].
  unfold read_text. rewrite stat_str_nonempty, Hres by done. simpl.
  rewrite insert_insert_eq.
  destruct f as [|c q]; [done|]. simpl in Hp.
  by rewrite stat_insert_self.
Qed.

Lemma no_slash_app a b :
  no_slash a = true → no_slash b = true → no_slash (a +:+ b) = true.
Proof.
  intros Ha Hb. induction a as [|c a IH]; simpl in *; [done|].
  apply andb_true_iff in Ha as [-> Ha]. by rewrite IH.
Qed.

Lemma proper_component_script jobname :
  proper_component (jobname +:+ ".s") = true.
Proof.
  destruct jobname as [|c [|c' jobname]]; simpl; [done| |].
  - unfold proper_component. simpl.
    destruct (Ascii.eqb c _); done.
  - unfold proper_component. simpl.
    destruct (Ascii.eqb c _); done.
Qed.

(** On a well-formed filesystem, [write_jobfile] returns whenever no
    regular file is in the way of the script directory, the job name is a
    plain name and no directory has the name of the script. *)
Lemma write_jobfile_returns cmd jobname sbatchpath scratchpath
    nodes ppn gpus mem nhours σ :
  fs_wf (fs σ) → sbatchpath ≠ "" →
  ¬ blocked (fs σ) (resolve sbatchpath) →
  no_slash jobname = true →
  fs σ !! ((jobname +:+ ".s") :: resolve sbatchpath) ≠ Some Dir →
  ∃ σ',
    write_jobfile cmd jobname sbatchpath scratchpath nodes ppn gpus mem nhours σ
    = (Return (os_path_join sbatchpath (jobname +:+ ".s")), σ').
Proof.
  intros Hwf Hne Hnb Hjn Hnd.
  rewrite write_jobfile_unfold.
  destruct (mkdir_p_succeeds σ sbatchpath) as (t1 & Hmk & Hst & Hframe);
    try done.
  rewrite (run_bind_return _ _ _ _ _ Hmk).
  set (σ1 := State (heap σ) t1).
  destruct (open_w_in_dir σ1 sbatchpath (jobname +:+ ".s")) as [_ Hopen].
  - simpl. by rewrite stat_str_nonempty, Hst.
  - by apply no_slash_app.
  - apply proper_component_script.
  - simpl. rewrite Hframe; [done|]. apply not_suffix_cons.
  - rewrite (run_bind_return _ _ _ _ _ Hopen).
    rewrite run_bind.
    rewrite file_write_fresh by apply lookup_insert_eq.
    by eexists.
Qed.

(** ** The first sixteen characters *)

Lemma substring_prefix n s :
  ∃ rest, s = String.substring 0 n s +:+ rest
          ∧ String.length (String.substring 0 n s) = n `min` String.length s
          ∧ String.length rest = String.length s - n.
Proof.
  revert s. induction n as [|n IH]; intros s.
  - exists s. by destruct s.
  - destruct s as [|c s]; [by exists ""|].
    destruct (IH s) as (rest & Hs & Hl & Hr). exists rest. simpl.
    by rewrite <-Hs, Hl.
Qed.

(** A job name of more than sixteen characters is cut: [first16] keeps
    sixteen characters and drops a non-empty rest. *)
Lemma first16_long jobname :
  16 < String.length jobname →
  String.length (first16 jobname) = 16
  ∧ ∃ rest, rest ≠ "" ∧ jobname = first16 jobname +:+ rest.
Proof.
  intros Hlen. unfold first16.
  destruct (substring_prefix 16 jobname) as (rest & Hs & Hl & Hr).
  split; [lia|]. exists rest. split; [|done].
  intros ->. simpl in Hr. lia.
Qed.

(** A job name of at most sixteen characters is kept whole. *)
Lemma first16_short jobname :
  String.length jobname ≤ 16 → first16 jobname = jobname.
Proof.
  intros Hlen. unfold first16.
  destruct (substring_prefix 16 jobname) as (rest & Hs & Hl & Hr).
  destruct rest; [|simpl in Hr; lia].
  by rewrite string_app_nil_r in Hs.
Qed.

(** The returned path ends with the full job name and the extension. *)
Lemma os_path_join_suffix a b : ∃ pre, os_path_join a b = pre +:+ b.
Proof.
  unfold os_path_join. destruct (starts_with_slash b); [by exists ""|].
  destruct (_ || _); [by exists a|].
  exists (a +:+ "/"). by rewrite string_app_assoc.
Qed.

(** ** The two templates *)

(** In both templates the job name enters the header through [first16]:
    the [--job-name] line and the [--output] line follow each other. *)
Lemma script_name_directives cmd jobname scratchpath logname
    nodes ppn mem nhours (cpu : bool) :
  ∃ pre post,
    (if cpu
     then cpu_script cmd jobname scratchpath logname nodes ppn mem nhours
     else gpu_script cmd jobname scratchpath logname nodes ppn mem nhours)
    = pre +:+ LF
      +:+ ("#SBATCH --job-name=" +:+ first16 jobname) +:+ LF
      +:+ ("#SBATCH --output=" +:+ scratchpath +:+ "log/"
           +:+ first16 jobname +:+ ".o") +:+ LF
      +:+ post.
Proof.
  destruct cpu.
  - eexists ("#! /bin/bash" +:+ LF +:+ LF
      +:+ "#SBATCH --nodes=" +:+ fmt nodes +:+ LF
      +:+ "#SBATCH --ntasks-per-node=1" +:+ LF
      +:+ "#SBATCH --cpus-per-task=" +:+ fmt ppn +:+ LF
      +:+ "#SBATCH --mem=" +:+ fmt mem +:+ "GB" +:+ LF
      +:+ "#SBATCH --time=" +:+ fmt nhours +:+ ":00:00"), _.
    unfold cpu_script. rewrite !string_app_assoc. reflexivity.
  - eexists ("#! /bin/bash" +:+ LF +:+ LF
      +:+ "#SBATCH --nodes=" +:+ fmt nodes +:+ LF
      +:+ "#SBATCH --ntasks-per-node=1" +:+ LF
      +:+ "#SBATCH --cpus-per-task=" +:+ fmt ppn +:+ LF
      +:+ "#SBATCH --mem=" +:+ fmt mem +:+ "GB" +:+ LF
      +:+ "#SBATCH --partition=gpu" +:+ LF
      +:+ "#SBATCH --gres=gpu:1" +:+ LF
      +:+ "#SBATCH --time=" +:+ fmt nhours +:+ ":00:00"), _.
    unfold gpu_script. rewrite !string_app_assoc. reflexivity.
Qed.

(** In both templates the body names its log file [logname.log], four
    times: created by [pwd], then appended to by [date], by the interpreter
    probe and by the command. *)
Lemma script_body cmd jobname scratchpath logname
    nodes ppn mem nhours (cpu : bool) :
  ∃ pre,
    (if cpu
     then cpu_script cmd jobname scratchpath logname nodes ppn mem nhours
     else gpu_script cmd jobname scratchpath logname nodes ppn mem nhours)
    = pre +:+ LF
      +:+ ("pwd > " +:+ logname +:+ ".log") +:+ LF
      +:+ ("date >> " +:+ logname +:+ ".log") +:+ LF
      +:+ ("which python >> " +:+ logname +:+ ".log") +:+ LF
      +:+ (cmd +:+ " >> " +:+ logname +:+ ".log 2>&1") +:+ LF
      +:+ LF +:+ "exit 0;" +:+ LF.
Proof.
  destruct cpu.
  - eexists ("#! /bin/bash" +:+ LF +:+ LF
      +:+ "#SBATCH --nodes=" +:+ fmt nodes +:+ LF
      +:+ "#SBATCH --ntasks-per-node=1" +:+ LF
      +:+ "#SBATCH --cpus-per-task=" +:+ fmt ppn +:+ LF
      +:+ "#SBATCH --mem=" +:+ fmt mem +:+ "GB" +:+ LF
      +:+ "#SBATCH --time=" +:+ fmt nhours +:+ ":00:00" +:+ LF
      +:+ "#SBATCH --job-name=" +:+ first16 jobname +:+ LF
      +:+ "#SBATCH --output=" +:+ scratchpath +:+ "log/"
      +:+ first16 jobname +:+ ".o" +:+ LF
      +:+ LF +:+ "cd " +:+ scratchpath).
    unfold cpu_script. rewrite !string_app_assoc. reflexivity.
  - eexists ("#! /bin/bash" +:+ LF +:+ LF
      +:+ "#SBATCH --nodes=" +:+ fmt nodes +:+ LF
      +:+ "#SBATCH --ntasks-per-node=1" +:+ LF
      +:+ "#SBATCH --cpus-per-task=" +:+ fmt ppn +:+ LF
      +:+ "#SBATCH --mem=" +:+ fmt mem +:+ "GB" +:+ LF
      +:+ "#SBATCH --partition=gpu" +:+ LF
      +:+ "#SBATCH --gres=gpu:1" +:+ LF
      +:+ "#SBATCH --time=" +:+ fmt nhours +:+ ":00:00" +:+ LF
      +:+ "#SBATCH --job-name=" +:+ first16 jobname +:+ LF
      +:+ "#SBATCH --output=" +:+ scratchpath +:+ "log/"
      +:+ first16 jobname +:+ ".o" +:+ LF
      +:+ LF +:+ "cd " +:+ scratchpath).
    unfold gpu_script. rewrite !string_app_assoc. reflexivity.
Qed.

(** The GPU template is the CPU template with two lines added after the
    memory request. *)
Lemma gpu_script_adds_two_lines cmd jobname scratchpath logname
    nodes ppn mem nhours :
  ∃ header rest,
    cpu_script cmd jobname scratchpath logname nodes ppn mem nhours
    = header +:+ LF +:+ rest
    ∧ gpu_script cmd jobname scratchpath logname nodes ppn mem nhours
      = header +:+ LF
        +:+ "#SBATCH --partition=gpu" +:+ LF
        +:+ "#SBATCH --gres=gpu:1" +:+ LF
        +:+ rest.
Proof.
  eexists ("#! /bin/bash" +:+ LF +:+ LF
      +:+ "#SBATCH --nodes=" +:+ fmt nodes +:+ LF
      +:+ "#SBATCH --ntasks-per-node=1" +:+ LF
      +:+ "#SBATCH --cpus-per-task=" +:+ fmt ppn +:+ LF
      +:+ "#SBATCH --mem=" +:+ fmt mem +:+ "GB"), _.
  unfold cpu_script, gpu_script. rewrite !string_app_assoc.
  split; reflexivity.
Qed.

Lemma embeds_two_lines l1 l2 pre post :
  embeds_line l1 (pre +:+ LF +:+ l1 +:+ LF +:+ l2 +:+ LF +:+ post) = true
  ∧ embeds_line l2 (pre +:+ LF +:+ l1 +:+ LF +:+ l2 +:+ LF +:+ post) = true.
Proof.
  split; [apply embeds_line_app|].
  rewrite <-(string_app_assoc LF l1), <-(string_app_assoc pre).
  apply embeds_line_app.
Qed.

(** C4. For a job name longer than 16 characters, the script
    [write_jobfile] generates carries the name cut to its first 16
    characters in the [--job-name] and [--output] directives, while the
    returned path is built from the full job name: the name with extension
    [.s], joined to the script directory. *)
Theorem write_jobfile_truncates_name
    (cmd jobname sbatchpath scratchpath : string)
    (nodes ppn gpus mem nhours : Z) (σ σ' : state) (p : string) :
  16 < String.length jobname →
  write_jobfile cmd jobname sbatchpath scratchpath nodes ppn gpus mem nhours σ
  = (Return p, σ') →
  ∃ txt,
    read_text σ' p = Some txt
    ∧ embeds_line ("#SBATCH --job-name=" +:+ first16 jobname) txt = true
    ∧ embeds_line ("#SBATCH --output=" +:+ scratchpath +:+ "log/"
                   +:+ first16 jobname +:+ ".o") txt = true
    ∧ String.length (first16 jobname) = 16
    ∧ (∃ rest, rest ≠ "" ∧ jobname = first16 jobname +:+ rest)
    ∧ p = os_path_join sbatchpath (jobname +:+ ".s")
    ∧ (∃ pre, p = pre +:+ jobname +:+ ".s").
Proof.
  intros Hlen (Hp & Htxt & _)%write_jobfile_inv.
  destruct (first16_long jobname Hlen) as [H16 Hrest].
  eexists. split; [exact Htxt|].
  destruct (script_name_directives cmd jobname scratchpath
              (os_path_join "log" jobname) nodes ppn mem nhours
              (gpus =? 0)%Z) as (pre & post & Hscript).
  replace (if (gpus =? 0)%Z
           then cpu_script cmd jobname scratchpath
                  (os_path_join "log" jobname) nodes ppn mem nhours
           else gpu_script cmd jobname scratchpath
                  (os_path_join "log" jobname) nodes ppn mem nhours)
    with (pre +:+ LF
          +:+ ("#SBATCH --job-name=" +:+ first16 jobname) +:+ LF
          +:+ ("#SBATCH --output=" +:+ scratchpath +:+ "log/"
               +:+ first16 jobname +:+ ".o") +:+ LF
          +:+ post) by done.
  destruct (embeds_two_lines
              ("#SBATCH --job-name=" +:+ first16 jobname)
              ("#SBATCH --output=" +:+ scratchpath +:+ "log/"
               +:+ first16 jobname +:+ ".o") pre post) as [H1 H2].
  split_and!; try done.
  subst p. destruct (os_path_join_suffix sbatchpath (jobname +:+ ".s"))
    as [pre' Hpre]. by exists pre'.
Qed.

Lemma write_jobfile_truncates_name_witness :
  ∃ txt,
    read_text
      (write_jobfile "echo hi" long_jobname "jobs" "/scratch/" 1 1 0 16 12
         empty_state).2 "jobs/abcdefghijklmnopqrstuvwxyz.s" = Some txt
    ∧ embeds_line ("#SBATCH --job-name=" +:+ first16 long_jobname) txt = true
    ∧ embeds_line ("#SBATCH --output=" +:+ "/scratch/" +:+ "log/"
                   +:+ first16 long_jobname +:+ ".o") txt = true
    ∧ String.length (first16 long_jobname) = 16
    ∧ (∃ rest, rest ≠ "" ∧ long_jobname = first16 long_jobname +:+ rest)
    ∧ "jobs/abcdefghijklmnopqrstuvwxyz.s"
      = os_path_join "jobs" (long_jobname +:+ ".s")
    ∧ (∃ pre, "jobs/abcdefghijklmnopqrstuvwxyz.s"
              = pre +:+ long_jobname +:+ ".s").
Proof.
  apply (write_jobfile_truncates_name "echo hi" long_jobname "jobs"
           "/scratch/" 1 1 0 16 12 empty_state).
  - vm_compute. lia.
  - reflexivity.
Defined.

Lemma embeds_four_lines l1 l2 l3 l4 pre post :
  let txt := pre +:+ LF +:+ l1 +:+ LF +:+ l2 +:+ LF +:+ l3 +:+ LF
             +:+ l4 +:+ LF +:+ post in
  embeds_line l1 txt = true ∧ embeds_line l2 txt = true
  ∧ embeds_line l3 txt = true ∧ embeds_line l4 txt = true.
Proof.
  intros txt. unfold txt. split_and!.
  - apply embeds_line_app.
  - apply (embeds_line_at _ (pre +:+ LF +:+ l1)
             (l3 +:+ LF +:+ l4 +:+ LF +:+ post)).
    by rewrite !string_app_assoc.
  - apply (embeds_line_at _ (pre +:+ LF +:+ l1 +:+ LF +:+ l2)
             (l4 +:+ LF +:+ post)).
    by rewrite !string_app_assoc.
  - apply (embeds_line_at _ (pre +:+ LF +:+ l1 +:+ LF +:+ l2 +:+ LF +:+ l3)
             post).
    by rewrite !string_app_assoc.
Qed.

Lemma starts_with_slash_first16 jobname :
  starts_with_slash (first16 jobname) = starts_with_slash jobname.
Proof. by destruct jobname. Qed.

Lemma log_name_length jobname :
  String.length (os_path_join "log" jobname)
  = if starts_with_slash jobname then String.length jobname
    else 4 + String.length jobname.
Proof.
  unfold os_path_join. by destruct (starts_with_slash jobname).
Qed.

(** The log name built from the full job name is the one built from the
    16-character form exactly when the job name is that short. *)
Lemma log_name_first16 jobname :
  os_path_join "log" jobname = os_path_join "log" (first16 jobname)
  ↔ String.length jobname ≤ 16.
Proof.
  split.
  - intros Heq. destruct (decide (String.length jobname ≤ 16)) as [|Hlen];
      [done|].
    destruct (first16_long jobname) as [H16 _]; [lia|].
    apply (f_equal String.length) in Heq.
    rewrite !log_name_length, starts_with_slash_first16, H16 in Heq.
    destruct (starts_with_slash jobname); lia.
  - intros Hlen. by rewrite first16_short.
Qed.

(** C5 (amended). In the script body [write_jobfile] generates, the log
    file that [pwd] creates and to which the timestamp, the interpreter
    probe and the command's output are appended is named after the full job
    name, [os.path.join('log', jobname)] with extension [.log], for every
    job name; that name is the one built from the 16-character form if and
    only if the job name has at most 16 characters. *)
Theorem write_jobfile_log_name
    (cmd jobname sbatchpath scratchpath : string)
    (nodes ppn gpus mem nhours : Z) (σ σ' : state) (p : string) :
  write_jobfile cmd jobname sbatchpath scratchpath nodes ppn gpus mem nhours σ
  = (Return p, σ') →
  ∃ txt,
    read_text σ' p = Some txt
    ∧ embeds_line ("pwd > " +:+ os_path_join "log" jobname +:+ ".log") txt
      = true
    ∧ embeds_line ("date >> " +:+ os_path_join "log" jobname +:+ ".log") txt
      = true
    ∧ embeds_line
        ("which python >> " +:+ os_path_join "log" jobname +:+ ".log") txt
      = true
    ∧ embeds_line
        (cmd +:+ " >> " +:+ os_path_join "log" jobname +:+ ".log 2>&1") txt
      = true
    ∧ (os_path_join "log" jobname = os_path_join "log" (first16 jobname)
       ↔ String.length jobname ≤ 16).
Proof.
  intros (Hp & Htxt & _)%write_jobfile_inv.
  eexists. split; [exact Htxt|].
  destruct (script_body cmd jobname scratchpath
              (os_path_join "log" jobname) nodes ppn mem nhours
              (gpus =? 0)%Z) as (pre & ->).
  pose proof (embeds_four_lines
    ("pwd > " +:+ os_path_join "log" jobname +:+ ".log")
    ("date >> " +:+ os_path_join "log" jobname +:+ ".log")
    ("which python >> " +:+ os_path_join "log" jobname +:+ ".log")
    (cmd +:+ " >> " +:+ os_path_join "log" jobname +:+ ".log 2>&1")
    pre (LF +:+ "exit 0;" +:+ LF)) as (H1 & H2 & H3 & H4).
  split_and!; try done.
  apply log_name_first16.
Qed.

Lemma write_jobfile_log_name_witness :
  ∃ txt,
    read_text
      (write_jobfile "echo hi" long_jobname "jobs" "/scratch/" 1 1 0 16 12
         empty_state).2 "jobs/abcdefghijklmnopqrstuvwxyz.s" = Some txt
    ∧ embeds_line ("pwd > " +:+ os_path_join "log" long_jobname +:+ ".log")
        txt = true
    ∧ embeds_line ("date >> " +:+ os_path_join "log" long_jobname +:+ ".log")
        txt = true
    ∧ embeds_line
        ("which python >> " +:+ os_path_join "log" long_jobname +:+ ".log")
        txt = true
    ∧ embeds_line
        ("echo hi" +:+ " >> " +:+ os_path_join "log" long_jobname
         +:+ ".log 2>&1") txt = true
    ∧ (os_path_join "log" long_jobname
       = os_path_join "log" (first16 long_jobname)
       ↔ String.length long_jobname ≤ 16).
Proof.
  apply (write_jobfile_log_name "echo hi" long_jobname "jobs" "/scratch/"
           1 1 0 16 12 empty_state).
  reflexivity.
Defined.

(** C5, as stated, fails: for the 26-letter job name the generated script
    appends the timestamp to [log/abcdefghijklmnopqrstuvwxyz.log]; no line
    of it names the truncated [log/abcdefghijklmnop.log]. *)
Lemma log_name_not_truncated :
  ¬ (∀ σ' p txt,
       write_jobfile "echo hi" long_jobname "jobs" "/scratch/" 1 1 0 16 12
         empty_state = (Return p, σ') →
       read_text σ' p = Some txt →
       has_line
         ("date >> " +:+ os_path_join "log" (first16 long_jobname) +:+ ".log")
         txt = true).
Proof.
  intros Hclaim.
  specialize (Hclaim _ _ _ eq_refl eq_refl).
  vm_compute in Hclaim. discriminate Hclaim.
Qed.

(** ** The test job *)

(** The lines of the CPU script of the test job, for a working directory
    written on one line. *)
Lemma cpu_example_lines scratchpath :
  one_line scratchpath = true →
  lines (cpu_script "echo hi" "test_job" scratchpath
           (os_path_join "log" "test_job") 1 2 8 1)
  = [ "#! /bin/bash"; "";
      "#SBATCH --nodes=1";
      "#SBATCH --ntasks-per-node=1";
      "#SBATCH --cpus-per-task=2";
      "#SBATCH --mem=8GB";
      "#SBATCH --time=1:00:00";
      "#SBATCH --job-name=test_job";
      "#SBATCH --output=" +:+ scratchpath +:+ "log/test_job.o";
      "";
      "cd " +:+ scratchpath;
      "pwd > log/test_job.log";
      "date >> log/test_job.log";
      "which python >> log/test_job.log";
      "echo hi >> log/test_job.log 2>&1";
      "";
      "exit 0;";
      "" ].
Proof.
  intros Hsp. unfold cpu_script, fmt, first16. simpl.
  repeat (rewrite (lines_app_one_line scratchpath) by done; simpl).
  by rewrite string_app_nil_r.
Qed.

(** The lines of the GPU script of the test job. *)
Lemma gpu_example_lines scratchpath :
  one_line scratchpath = true →
  lines (gpu_script "echo hi" "test_job" scratchpath
           (os_path_join "log" "test_job") 1 2 8 1)
  = [ "#! /bin/bash"; "";
      "#SBATCH --nodes=1";
      "#SBATCH --ntasks-per-node=1";
      "#SBATCH --cpus-per-task=2";
      "#SBATCH --mem=8GB";
      "#SBATCH --partition=gpu";
      "#SBATCH --gres=gpu:1";
      "#SBATCH --time=1:00:00";
      "#SBATCH --job-name=test_job";
      "#SBATCH --output=" +:+ scratchpath +:+ "log/test_job.o";
      "";
      "cd " +:+ scratchpath;
      "pwd > log/test_job.log";
      "date >> log/test_job.log";
      "which python >> log/test_job.log";
      "echo hi >> log/test_job.log 2>&1";
      "";
      "exit 0;";
      "" ].
Proof.
  intros Hsp. unfold gpu_script, fmt, first16. simpl.
  repeat (rewrite (lines_app_one_line scratchpath) by done; simpl).
  by rewrite string_app_nil_r.
Qed.



(** C7. [write_jobfile] writes exactly one of two texts, chosen by the test
    [gpus == 0]: on a well-formed filesystem where the script directory
    (a path without [".."]) exists or can be created, for a job name
    without separator and with no directory in the place of the script, the
    call returns and the script file holds the CPU text when [gpus] is zero
    and the GPU text otherwise.
    The two texts differ: the GPU text is the CPU text with the two lines
    [--partition=gpu] and [--gres=gpu:1] added, and has both as lines
    whenever it is written.  For
    the test job, the script written with gpus=0 has neither a [--gres] nor
    a [--partition] directive, and the script written with gpus=1 (or any
    other non-zero count) has both lines. *)
Theorem write_jobfile_selects_template
    (cmd jobname sbatchpath scratchpath : string)
    (nodes ppn gpus mem nhours : Z) (σ : state) :
  fs_wf (fs σ) →
  sbatchpath ≠ "" →
  no_dotdot sbatchpath = true →
  ¬ blocked (fs σ) (resolve sbatchpath) →
  no_slash jobname = true →
  fs σ !! ((jobname +:+ ".s") :: resolve sbatchpath) ≠ Some Dir →
  let logname := os_path_join "log" jobname in
  let cpu := cpu_script cmd jobname scratchpath logname nodes ppn mem nhours in
  let gpu := gpu_script cmd jobname scratchpath logname nodes ppn mem nhours in
  ∃ σ' txt,
    write_jobfile cmd jobname sbatchpath scratchpath nodes ppn gpus mem nhours σ
    = (Return (os_path_join sbatchpath (jobname +:+ ".s")), σ')
    ∧ read_text σ' (os_path_join sbatchpath (jobname +:+ ".s")) = Some txt
    ∧ txt = (if (gpus =? 0)%Z then cpu else gpu)
    ∧ cpu ≠ gpu
    ∧ (∃ header rest,
         cpu = header +:+ LF +:+ rest
         ∧ gpu = header +:+ LF
                 +:+ "#SBATCH --partition=gpu" +:+ LF
                 +:+ "#SBATCH --gres=gpu:1" +:+ LF
                 +:+ rest)
    ∧ (gpus ≠ 0%Z →
       embeds_line "#SBATCH --partition=gpu" txt = true
       ∧ embeds_line "#SBATCH --gres=gpu:1" txt = true)
    ∧ (cmd = "echo hi" → jobname = "test_job" →
       nodes = 1%Z → ppn = 2%Z → mem = 8%Z → nhours = 1%Z →
       one_line scratchpath = true →
       (gpus = 0%Z →
        no_directive "#SBATCH --gres" txt = true
        ∧ no_directive "#SBATCH --partition" txt = true)
       ∧ (gpus ≠ 0%Z →
          has_line "#SBATCH --partition=gpu" txt = true
          ∧ has_line "#SBATCH --gres=gpu:1" txt = true)).
Proof.
  intros Hwf Hne _ Hnb Hjn Hnd logname cpu gpu.
  destruct (write_jobfile_returns cmd jobname sbatchpath scratchpath
              nodes ppn gpus mem nhours σ) as [σ' Hrun]; try done.
  pose proof Hrun as (_ & Htxt & _)%write_jobfile_inv.
  fold logname in Htxt. fold cpu in Htxt. fold gpu in Htxt.
  exists σ', (if (gpus =? 0)%Z then cpu else gpu).
  split_and!.
  - exact Hrun.
  - exact Htxt.
  - reflexivity.
  - destruct (gpu_script_adds_two_lines cmd jobname scratchpath logname
                nodes ppn mem nhours) as (header & rest & Hc & Hg).
    unfold cpu, gpu. rewrite Hc, Hg. intros Heq.
    apply (f_equal String.length) in Heq.
    rewrite !string_length_app in Heq. simpl in Heq. lia.
  - apply gpu_script_adds_two_lines.
  - intros Hg%Z.eqb_neq. rewrite Hg. unfold gpu.
    destruct (gpu_script_adds_two_lines cmd jobname scratchpath logname
                nodes ppn mem nhours) as (header & rest & _ & ->).
    apply embeds_two_lines.
  - intros -> -> -> -> -> -> Hsp. split.
    + intros ->. simpl.
      pose proof (cpu_example_lines scratchpath Hsp) as Hlines.
      unfold no_directive, cpu, logname. by rewrite Hlines.
    + intros Hg%Z.eqb_neq. rewrite Hg.
      pose proof (gpu_example_lines scratchpath Hsp) as Hlines.
      unfold gpu, logname.
      split; apply has_line_intro; rewrite Hlines;
        apply list_elem_of_In; simpl; tauto.
Qed.

Lemma write_jobfile_selects_template_witness :
  (∃ σ' txt,
     write_jobfile "echo hi" "test_job" "jobs" "/scratch/" 1 2 0 8 1 empty_state
     = (Return "jobs/test_job.s", σ')
     ∧ read_text σ' "jobs/test_job.s" = Some txt
     ∧ txt = cpu_script "echo hi" "test_job" "/scratch/"
               (os_path_join "log" "test_job") 1 2 8 1
     ∧ no_directive "#SBATCH --gres" txt = true
     ∧ no_directive "#SBATCH --partition" txt = true)
  ∧ (∃ σ' txt,
       write_jobfile "echo hi" "test_job" "jobs" "/scratch/" 1 2 1 8 1
         empty_state
       = (Return "jobs/test_job.s", σ')
       ∧ read_text σ' "jobs/test_job.s" = Some txt
       ∧ txt = gpu_script "echo hi" "test_job" "/scratch/"
                 (os_path_join "log" "test_job") 1 2 8 1
       ∧ has_line "#SBATCH --partition=gpu" txt = true
       ∧ has_line "#SBATCH --gres=gpu:1" txt = true).
Proof.
  split.
  - destruct (write_jobfile_selects_template "echo hi" "test_job" "jobs"
                "/scratch/" 1 2 0 8 1 empty_state)
      as (σ' & txt & Hrun & Hread & Htxt & _ & _ & _ & Htest).
    + apply empty_fs_wf.
    + discriminate.
    + reflexivity.
    + apply empty_not_blocked.
    + reflexivity.
    + vm_compute. discriminate.
    + destruct Htest as [[Hg Hp] _]; try reflexivity.
      exists σ', txt. split_and!; [exact Hrun|exact Hread|exact Htxt|done|done].
  - destruct (write_jobfile_selects_template "echo hi" "test_job" "jobs"
                "/scratch/" 1 2 1 8 1 empty_state)
      as (σ' & txt & Hrun & Hread & Htxt & _ & _ & _ & Htest).
    + apply empty_fs_wf.
    + discriminate.
    + reflexivity.
    + apply empty_not_blocked.
    + reflexivity.
    + vm_compute. discriminate.
    + destruct Htest as [_ [Hp Hg]]; try reflexivity; [discriminate|].
      exists σ', txt. split_and!; [exact Hrun|exact Hread|exact Htxt|done|done].
Defined.

(** C10. For every non-zero value of [gpus], the script [write_jobfile]
    generates has the fixed line [--gres=gpu:1]: the call behaves exactly
    as with gpus=1, the requested count appearing nowhere in the text. *)
Theorem write_jobfile_gres_fixed
    (cmd jobname sbatchpath scratchpath : string)
    (nodes ppn gpus mem nhours : Z) (σ σ' : state) (p : string) :
  gpus ≠ 0%Z →
  write_jobfile cmd jobname sbatchpath scratchpath nodes ppn gpus mem nhours σ
  = (Return p, σ') →
  ∃ txt,
    read_text σ' p = Some txt
    ∧ embeds_line "#SBATCH --gres=gpu:1" txt = true
    ∧ txt = gpu_script cmd jobname scratchpath (os_path_join "log" jobname)
              nodes ppn mem nhours
    ∧ write_jobfile cmd jobname sbatchpath scratchpath
        nodes ppn 1 mem nhours σ = (Return p, σ').
Proof.
  intros Hg%Z.eqb_neq Hrun.
  pose proof Hrun as (_ & Htxt & _)%write_jobfile_inv.
  rewrite Hg in Htxt. eexists. split_and!; [exact Htxt| |done|].
  - destruct (gpu_script_adds_two_lines cmd jobname scratchpath
                (os_path_join "log" jobname) nodes ppn mem nhours)
      as (header & rest & _ & ->).
    apply (embeds_line_at _ (header +:+ LF +:+ "#SBATCH --partition=gpu") rest).
    by rewrite !string_app_assoc.
  - rewrite write_jobfile_unfold in Hrun |- *. by rewrite Hg in Hrun.
Qed.

Lemma write_jobfile_gres_fixed_witness :
  ∃ txt,
    read_text
      (write_jobfile "echo hi" "test_job" "jobs" "/scratch/" 1 2 2 8 1
         empty_state).2 "jobs/test_job.s" = Some txt
    ∧ embeds_line "#SBATCH --gres=gpu:1" txt = true
    ∧ txt = gpu_script "echo hi" "test_job" "/scratch/"
              (os_path_join "log" "test_job") 1 2 8 1
    ∧ write_jobfile "echo hi" "test_job" "jobs" "/scratch/" 1 2 1 8 1
        empty_state
      = (Return "jobs/test_job.s",
         (write_jobfile "echo hi" "test_job" "jobs" "/scratch/" 1 2 2 8 1
            empty_state).2).
Proof.
  apply (write_jobfile_gres_fixed "echo hi" "test_job" "jobs" "/scratch/"
           1 2 2 8 1 empty_state).
  - discriminate.
  - reflexivity.
Defined.

(** * Further properties of the module *)

(** ** Files that are written are found again *)

Lemma stat_str_after_write t fname f n :
  fname ≠ "" → resolve fname = f → is_root f = false →
  stat t (tail f) = inr Dir →
  stat_str (<[f := n]> t) fname = inr n.
Proof.
  intros Hne Hres Hr Hp. rewrite stat_str_nonempty, Hres by done.
  destruct f as [|c q]; [done|]. by apply stat_insert_self.
Qed.

(** A file that exists can be opened for writing. *)
Lemma open_w_existing_file σ fname c :
  stat_str (fs σ) fname = inr (File c) →
  open_w fname σ =
  (Return (resolve fname),
   State (heap σ) (<[resolve fname := File (CText "")]> (fs σ))).
Proof.
  intros [Hne Hst]%stat_str_inr.
  destruct (resolve fname) as [|x q] eqn:Hres; [done|].
  pose proof (stat_inr_parent _ _ _ _ Hst) as Hp.
  rewrite stat_cons, Hp in Hst.
  destruct (is_root (x :: q)) eqn:Hr; [done|].
  destruct (fs σ !! (x :: q)) as [n|] eqn:Hl; [|done].
  injection Hst as ->.
  apply open_w_run; try done. by rewrite Hl.
Qed.

(** ** Logs: saving, then loading *)

Lemma pickle_load_run σ f v :
  fs σ !! f = Some (File (CPickle v)) → pickle_load f σ = (Return v, σ).
Proof.
  intros H. unfold pickle_load.
  by rewrite (run_bind_return _ _ _ _ _ (file_read_run _ _ _ H)).
Qed.

Lemma save_log_returned σ log save_name σ1 :
  save_log log save_name σ = (Return tt, σ1) →
  load_log save_name σ1 = (Return log, σ1)
  ∧ heap σ1 = heap σ
  ∧ stat_str (fs σ1) (os_path_join "data" ("log_" +:+ save_name +:+ ".pkl"))
    = inr (File (CPickle log)).
Proof.
  unfold save_log. rewrite run_bind.
  destruct (open_w _ σ) as [[f|e] σ2] eqn:Ho; [|done].
  apply open_w_inv in Ho as (Hne & Hres & Hr & Hp & ->).
  unfold pickle_dump. erewrite file_put_run by apply lookup_insert_eq.
  simpl. rewrite insert_insert_eq. intros [= <-].
  assert (stat_str (<[f := File (CPickle log)]> (fs σ))
            (os_path_join "data" ("log_" +:+ save_name +:+ ".pkl"))
          = inr (File (CPickle log))) as Hst
    by by apply stat_str_after_write.
  set (σ1 := State (heap σ) (<[f := File (CPickle log)]> (fs σ))).
  split_and!; [|done|done].
  unfold load_log.
  rewrite (run_bind_return _ _ _ _ _ (isfile_true_run σ1 _ _ Hst)). simpl.
  rewrite (run_bind_return _ _ _ _ _ (open_r_run σ1 _ _ Hst)).
  rewrite Hres.
  assert (fs σ1 !! f = Some (File (CPickle log))) as Hl
    by apply lookup_insert_eq.
  by rewrite (run_bind_return _ _ _ _ _ (pickle_load_run σ1 _ _ Hl)).
Qed.

(** X1. When [save_log] returns, [load_log] for the same save name returns
    the log that was saved, whatever was stored under that name before,
    and changes nothing; the heap is as it was.  A second [save_log] for
    that name, with any log, returns as well, and the log it saved is the
    one [load_log] then returns. *)
Theorem save_log_then_load_log
    (σ σ1 : state) (log log' : pyval) (save_name : string) :
  save_log log save_name σ = (Return tt, σ1) →
  load_log save_name σ1 = (Return log, σ1)
  ∧ heap σ1 = heap σ
  ∧ ∃ σ2, save_log log' save_name σ1 = (Return tt, σ2)
          ∧ load_log save_name σ2 = (Return log', σ2).
Proof.
  intros (Hload & Hheap & Hst)%save_log_returned.
  split_and!; [done|done|].
  assert (∃ σ2, save_log log' save_name σ1 = (Return tt, σ2)) as [σ2 Hsave].
  { unfold save_log.
    rewrite (run_bind_return _ _ _ _ _ (open_w_existing_file _ _ _ Hst)).
    unfold pickle_dump. erewrite file_put_run by apply lookup_insert_eq.
    by eexists. }
  exists σ2. split; [done|]. by apply save_log_returned in Hsave as [? _].
Qed.

Lemma save_log_then_load_log_witness :
  ∃ σ1,
    save_log (PList [PInt 1; PInt 2]) "model0" data_state = (Return tt, σ1)
    ∧ load_log "model0" σ1 = (Return (PList [PInt 1; PInt 2]), σ1)
    ∧ heap σ1 = heap data_state
    ∧ ∃ σ2, save_log PNone "model0" σ1 = (Return tt, σ2)
            ∧ load_log "model0" σ2 = (Return PNone, σ2).
Proof.
  eexists. split; [reflexivity|].
  apply (save_log_then_load_log data_state _ (PList [PInt 1; PInt 2]) PNone
           "model0").
  reflexivity.
Defined.

(** ** The savers do not create directories *)

Lemma stat_app_error t base q e :
  stat t base = inl e → stat t (q ++ base) = inl e.
Proof.
  intros H. induction q as [|c q IH]; [done|].
  simpl app. by rewrite stat_cons, IH.
Qed.

Lemma split_path_app_slash a b :
  split_path (a +:+ "/" +:+ b) = split_path a ++ split_path b.
Proof.
  induction a as [|c a IH]; simpl in *; [done|].
  rewrite IH. destruct (Ascii.eqb c slash); [done|].
  pose proof (split_path_nonempty a). by destruct (split_path a).
Qed.

(** The path of a log file lies below [data], whatever the save name. *)
Lemma resolve_log_path save_name :
  ∃ c q,
    resolve (os_path_join "data" ("log_" +:+ save_name +:+ ".pkl"))
    = c :: q ++ ["data"].
Proof.
  change (os_path_join "data" ("log_" +:+ save_name +:+ ".pkl"))
    with ("data" +:+ "/" +:+ "log_" +:+ save_name +:+ ".pkl").
  unfold resolve. rewrite split_path_app_slash.
  change (starts_with_slash _) with false.
  rewrite filter_app, rev_app_distr, (right_id_L [] (++)).
  change (rev (filter _ (split_path "data"))) with ["data"].
  pose proof (split_path_nonempty (save_name +:+ ".pkl")) as Hne.
  assert (split_path ("log_" +:+ save_name +:+ ".pkl")
          = ("log_" +:+ hd "" (split_path (save_name +:+ ".pkl")))
            :: tl (split_path (save_name +:+ ".pkl"))) as ->.
  { simpl. by destruct (split_path (save_name +:+ ".pkl")). }
  rewrite filter_cons_True by done. simpl rev.
  destruct (rev _) as [|c q].
  - by eexists _, [].
  - by exists c, (q ++ ["log_" +:+ hd "" (split_path (save_name +:+ ".pkl"))]).
Qed.

Lemma open_w_parent_error fname σ c parent e :
  fname ≠ "" → resolve fname = c :: parent → stat (fs σ) parent = inl e →
  open_w fname σ = (Raise (IOError e), σ).
Proof.
  intros Hn Hres Hp. unfold open_w.
  apply String.eqb_neq in Hn as ->. run. by rewrite Hres, Hp.
Qed.

(** X2. Neither saver creates a directory: when [data] cannot be reached,
    [save_log] raises the [IOError] of the failed [open] for every save name
    and leaves the state as it was; when the directory given to
    [save_hparams] cannot be reached, the call raises that [IOError], under
    either interpreter, and leaves the filesystem as it was. *)
Theorem savers_need_directory
    (v : python) (σ : state) (log : pyval) (save_name : string)
    (hparams : nat) (d : dict) (save_dir : string) (e : errno) :
  (stat_str (fs σ) "data" = inl e →
   save_log log save_name σ = (Raise (IOError e), σ))
  ∧ (heap σ !! hparams = Some d → is_Some (d !! "rng") →
     save_dir ≠ "" → stat_str (fs σ) save_dir = inl e →
     ∃ σ', save_hparams v hparams save_dir σ = (Raise (IOError e), σ')
           ∧ fs σ' = fs σ).
Proof.
  split.
  - intros Hst. change (stat_str (fs σ) "data") with (stat (fs σ) ["data"]) in Hst.
    destruct (resolve_log_path save_name) as (c & q & Hres).
    unfold save_log. apply run_bind_raise.
    eapply open_w_parent_error; [|exact Hres|].
    + by apply os_path_join_nonempty.
    + by apply stat_app_error.
  - intros H [r Hr] Hne Hst.
    rewrite stat_str_nonempty in Hst by done.
    unfold save_hparams.
    rewrite (run_bind_return _ _ _ _ _ (dict_copy_run _ _ _ H)).
    set (σ1 := State (heap σ ++ [d]) (fs σ)).
    assert (heap σ1 !! length (heap σ) = Some d) as H1
      by apply lookup_snoc_new.
    rewrite (run_bind_return _ _ _ _ _ (dict_pop_present _ _ _ _ _ H1 Hr)).
    eexists. split.
    + apply run_bind_raise.
      eapply open_w_parent_error; [|by apply resolve_join_name|exact Hst].
      by apply os_path_join_nonempty.
    + done.
Qed.

Lemma savers_need_directory_witness :
  save_log PNone "model0" sample_state = (Raise (IOError ENOENT), sample_state)
  ∧ ∃ σ', save_hparams Py2 0 "runs/a" sample_state
          = (Raise (IOError ENOENT), σ')
          ∧ fs σ' = fs sample_state.
Proof.
  destruct (savers_need_directory Py2 sample_state PNone "model0"
              0 sample_hparams "runs/a" ENOENT) as [Hlog Hhp].
  split.
  - apply Hlog. reflexivity.
  - apply Hhp; [reflexivity | by eexists | discriminate | reflexivity].
Defined.

(** ** Stored documents that cannot be loaded *)

(** Up to the lookup of the seed, [load_hparams] on a stored document. *)
Lemma load_hparams_decoded σ save_dir doc :
  stat_str (fs σ) (os_path_join save_dir "hparams.json")
  = inr (File (CJson doc)) →
  load_hparams save_dir σ =
  (seed ← dict_getitem (length (heap σ)) "seed";
   seed' ← py_add_int seed 1000;
   rng ← RandomState seed';
   dict_setitem (length (heap σ)) "rng" rng;;
   ret (Some (length (heap σ))))
    (State (heap σ ++ [decode_dict doc]) (fs σ)).
Proof.
  intros Hst. unfold load_hparams.
  rewrite (run_bind_return _ _ _ _ _ (isfile_true_run _ _ _ Hst)). simpl.
  rewrite (run_bind_return _ _ _ _ _ (open_r_run _ _ _ Hst)).
  apply stat_str_inr in Hst as [_ Hst%stat_file_lookup].
  assert (json_load (resolve (os_path_join save_dir "hparams.json")) σ
          = (Return (length (heap σ)),
             State (heap σ ++ [decode_dict doc]) (fs σ))) as Hload.
  { unfold json_load.
    by rewrite (run_bind_return _ _ _ _ _ (file_read_run _ _ _ Hst)). }
  by rewrite (run_bind_return _ _ _ _ _ Hload).
Qed.

(** X3. [load_hparams] needs an integer seed in the stored document: when
    the document has no ['seed'] member the call raises [KeyError], and when
    the seed is not an integer (a string, a list, [null]) it raises
    [TypeError]; in both cases no mapping is returned and the filesystem is
    left as it was. *)
Theorem load_hparams_needs_integer_seed
    (σ : state) (save_dir : string) (doc : jsondoc) :
  stat_str (fs σ) (os_path_join save_dir "hparams.json")
  = inr (File (CJson doc)) →
  (decode_dict doc !! "seed" = None →
   ∃ σ', load_hparams save_dir σ = (Raise (KeyError "seed"), σ')
         ∧ fs σ' = fs σ)
  ∧ (∀ v, decode_dict doc !! "seed" = Some v → is_integer v = false →
     ∃ σ', load_hparams save_dir σ = (Raise TypeError, σ')
           ∧ fs σ' = fs σ).
Proof.
  intros Hst. rewrite (load_hparams_decoded _ _ _ Hst).
  set (σ1 := State _ _).
  assert (heap σ1 !! length (heap σ) = Some (decode_dict doc)) as Hl
    by apply lookup_snoc_new.
  split.
  - intros Hseed. exists σ1. split; [|done].
    apply run_bind_raise. unfold dict_getitem.
    rewrite (run_bind_return _ _ _ _ _ (deref_run _ _ _ Hl)).
    by rewrite Hseed.
  - intros v Hseed Hv. exists σ1. split; [|done].
    assert (dict_getitem (length (heap σ)) "seed" σ1 = (Return v, σ1)) as Hget.
    { unfold dict_getitem.
      rewrite (run_bind_return _ _ _ _ _ (deref_run _ _ _ Hl)).
      by rewrite Hseed. }
    rewrite (run_bind_return _ _ _ _ _ Hget).
    apply run_bind_raise. by destruct v.
Qed.

Lemma load_hparams_needs_integer_seed_witness :
  (∃ σ', load_hparams "models" seedless_state = (Raise (KeyError "seed"), σ')
         ∧ fs σ' = fs seedless_state)
  ∧ (∃ σ', load_hparams "models" string_seed_state = (Raise TypeError, σ')
           ∧ fs σ' = fs string_seed_state).
Proof.
  destruct (load_hparams_needs_integer_seed seedless_state "models"
              [("n_rule", JInt 20)] eq_refl) as [Hmissing _].
  destruct (load_hparams_needs_integer_seed string_seed_state "models"
              [("seed", JStr "5")] eq_refl) as [_ Hstring].
  split.
  - apply Hmissing. reflexivity.
  - apply (Hstring (PStr "5")); reflexivity.
Defined.

(** ** Saving step by step *)

Lemma encode_dict_unencodable (m : dict) k v :
  m !! k = Some v → to_json v = None → encode_dict m = None.
Proof.
  intros Hk Hv. apply mapM_None. apply Exists_exists.
  exists (k, v). split; [by apply elem_of_map_to_list|].
  simpl. by rewrite Hv.
Qed.

(** X4. A save that fails destroys the stored file: when a field other
    than ['rng'] has no JSON form (a second generator handle, say),
    [save_hparams] raises [TypeError] after the file has been opened for
    writing (in the encoder under Python 2, at the first write under
    Python 3), and [load_hparams] on the same directory then raises
    [ValueError], whatever document was stored there before.  The caller's
    mapping is intact. *)
Theorem failed_save_leaves_unreadable_file
    (py : python) (σ : state) (hparams : nat) (d : dict)
    (save_dir k : string) (v : pyval) :
  heap σ !! hparams = Some d →
  is_Some (d !! "rng") →
  k ≠ "rng" → d !! k = Some v → to_json v = None →
  is_dir (stat_str (fs σ) save_dir) = true →
  is_dir (stat_str (fs σ) (os_path_join save_dir "hparams.json")) = false →
  ∃ σ1, save_hparams py hparams save_dir σ = (Raise TypeError, σ1)
        ∧ heap σ1 !! hparams = Some d
        ∧ load_hparams save_dir σ1 = (Raise ValueError, σ1).
Proof.
  intros H [r Hr] Hk Hv Hjson Hdir Hnd.
  pose proof (open_w_in_dir_any σ save_dir "hparams.json" Hdir
                eq_refl eq_refl Hnd) as Hopen.
  rewrite (save_hparams_steps py _ _ _ _ _ _ H Hr Hopen).
  rewrite (encode_dict_unencodable (delete "rng" d) k v);
    [|by rewrite lookup_delete_ne|done].
  assert (∀ c, (∀ doc, c ≠ CJson doc) →
            ∃ σ1,
              (Raise TypeError,
               State (heap σ ++ [delete "rng" d])
                     (<["hparams.json" :: resolve save_dir := File c]> (fs σ)))
              = (@Raise unit TypeError, σ1)
              ∧ heap σ1 !! hparams = Some d
              ∧ load_hparams save_dir σ1 = (Raise ValueError, σ1)) as Hboth.
  { intros c Hc. eexists. split_and!; [done| |].
    - simpl. rewrite lookup_app_l; [done|]. by eapply lookup_lt_Some.
    - eapply load_hparams_not_json; [|exact Hc].
      by apply stat_str_written. }
  destruct py; by apply Hboth.
Qed.

Lemma failed_save_leaves_unreadable_file_witness :
  ∃ σ1, save_hparams Py2 0 "models" two_rng_state = (Raise TypeError, σ1)
        ∧ heap σ1 !! 0 = Some two_rng_hparams
        ∧ load_hparams "models" σ1 = (Raise ValueError, σ1).
Proof.
  apply (failed_save_leaves_unreadable_file Py2 two_rng_state 0 two_rng_hparams
           "models" "rng_test" (PRandomState 7));
    [reflexivity | by eexists | discriminate | reflexivity | reflexivity
    | reflexivity | reflexivity].
Defined.

(** ** Loading, saving back, loading again *)

Lemma json_ind' (P : json → Prop) :
  P JNull → (∀ b, P (JBool b)) → (∀ z, P (JInt z)) → (∀ s, P (JStr s)) →
  (∀ l, Forall P l → P (JArr l)) →
  ∀ j, P j.
Proof.
  intros HNull HBool HInt HStr HArr.
  fix F 1.
  intros [ |b|z|s|l]; [apply HNull|apply HBool|apply HInt|apply HStr|].
  apply HArr. induction l as [|x r IHr]; constructor; [apply F|apply IHr].
Qed.

(** Whatever [json] decodes is a plain value. *)
Lemma plain_from_json j : plain (from_json j) = true.
Proof.
  induction j as [ |b|z|s|l IH] using json_ind'; try done.
  simpl. induction IH as [|x r Hx _ IHr]; [done|].
  simpl. by rewrite Hx, IHr.
Qed.

Lemma decode_dict_plain doc : map_Forall (λ _ v, plain v = true) (decode_dict doc).
Proof.
  unfold decode_dict.
  assert (∀ (acc : dict), map_Forall (λ _ v, plain v = true) acc →
            map_Forall (λ _ v, plain v = true)
              (foldl (λ m kv, <[kv.1 := from_json kv.2]> m) acc doc)) as Hgen.
  { induction doc as [|[k j] doc IH]; intros acc Hacc; [done|].
    simpl. apply IH. apply map_Forall_insert_2; [|done].
    apply plain_from_json. }
  apply Hgen, map_Forall_empty.
Qed.

Lemma stat_str_rewritten t fname c n :
  stat_str t fname = inr (File c) →
  stat_str (<[resolve fname := n]> t) fname = inr n.
Proof.
  intros [Hne Hst]%stat_str_inr.
  apply stat_str_after_write; try done.
  - destruct (resolve fname) as [|x q]; [done|].
    rewrite stat_cons in Hst.
    destruct (stat t q) as [e|[|c']]; try done.
    by destruct (is_root (x :: q)).
  - destruct (resolve fname) as [|x q]; [done|].
    by apply stat_inr_parent in Hst.
Qed.

(** X5. A stored document with an integer seed that numpy accepts after
    the offset is loaded, saved back and loaded again.  Under Python 2 all
    three calls return and both loads give the same mapping, with the
    generator seeded at the stored seed plus 1000 each time: the offset
    does not accumulate, because the seed field itself is never changed.
    Under Python 3 the load returns, the save raises [TypeError] and the
    stored document is lost: the next load raises [ValueError]. *)
Theorem load_save_load_hparams
    (σ : state) (save_dir : string) (doc : jsondoc) (seed : Z) :
  stat_str (fs σ) (os_path_join save_dir "hparams.json")
  = inr (File (CJson doc)) →
  decode_dict doc !! "seed" = Some (PInt seed) →
  (0 ≤ seed + 1000 ≤ max_seed)%Z →
  (∃ σ1 σ2 σ3 l1 l2 d,
     load_hparams save_dir σ = (Return (Some l1), σ1)
     ∧ save_hparams Py2 l1 save_dir σ1 = (Return tt, σ2)
     ∧ load_hparams save_dir σ2 = (Return (Some l2), σ3)
     ∧ heap σ3 !! l1 = Some d
     ∧ heap σ3 !! l2 = Some d
     ∧ d !! "seed" = Some (PInt seed)
     ∧ d !! "rng" = Some (PRandomState (seed + 1000))
     ∧ l1 ≠ l2)
  ∧ (∃ σ1 σ2 l1,
       load_hparams save_dir σ = (Return (Some l1), σ1)
       ∧ save_hparams Py3 l1 save_dir σ1 = (Raise TypeError, σ2)
       ∧ read_text σ2 (os_path_join save_dir "hparams.json") = Some ""
       ∧ load_hparams save_dir σ2 = (Raise ValueError, σ2)).
Proof.
  intros Hst Hseed Hrange.
  set (m := decode_dict doc) in *.
  set (d := <["rng" := PRandomState (seed + 1000)]> m).
  pose proof (load_hparams_run σ save_dir doc seed Hst Hseed Hrange) as Hload1.
  fold m in Hload1. fold d in Hload1.
  set (σ1 := State (heap σ ++ [d]) (fs σ)) in *.
  assert (delete "rng" d = delete "rng" m) as Hdel
    by apply delete_insert_eq.
  assert (heap σ1 !! length (heap σ) = Some d) as Hl1
    by apply lookup_snoc_new.
  assert (d !! "rng" = Some (PRandomState (seed + 1000))) as Hr
    by apply lookup_insert_eq.
  assert (∀ h, open_w (os_path_join save_dir "hparams.json")
                 (State h (fs σ1))
               = (Return (resolve (os_path_join save_dir "hparams.json")),
                  State h (<[resolve (os_path_join save_dir "hparams.json")
                             := File (CText "")]> (fs σ1)))) as Hopen.
  { intros h. by apply (open_w_existing_file (State h (fs σ)) _ (CJson doc)). }
  pose proof (λ v, save_hparams_steps v σ1 _ d _ save_dir _ Hl1 Hr Hopen)
    as Hsteps.
  split.
  - destruct (encode_decode_dict (delete "rng" m)) as (doc' & Henc & Hdec).
    { intros k v [_ Hv]%lookup_delete_Some.
      by eapply (decode_dict_plain doc). }
    assert (save_hparams Py2 (length (heap σ)) save_dir σ1 =
            (Return tt,
             State (heap σ1 ++ [delete "rng" m])
               (<[resolve (os_path_join save_dir "hparams.json")
                  := File (CJson doc')]> (fs σ)))) as Hsave.
    { rewrite Hsteps. by rewrite Hdel, Henc. }
    set (σ2 := State (heap σ1 ++ [delete "rng" m]) _) in Hsave.
    assert (load_hparams save_dir σ2 =
            (Return (Some (length (heap σ2))),
             State (heap σ2 ++ [<["rng" := PRandomState (seed + 1000)]>
                                  (decode_dict doc')]) (fs σ2))) as Hload2.
    { apply load_hparams_run.
      - by eapply stat_str_rewritten.
      - rewrite Hdec. by rewrite lookup_delete_ne.
      - done. }
    rewrite Hdec, insert_delete_eq in Hload2. fold d in Hload2.
    exists σ1, σ2, (State (heap σ2 ++ [d]) (fs σ2)),
      (length (heap σ)), (length (heap σ2)), d.
    split_and!; try done.
    + simpl. rewrite <-!app_assoc. rewrite lookup_app_r by done.
      by rewrite Nat.sub_diag.
    + apply lookup_snoc_new.
    + unfold d. by rewrite lookup_insert_ne.
    + simpl. rewrite !length_app. simpl. lia.
  - eexists σ1, _, (length (heap σ)). split; [exact Hload1|].
    split; [exact (Hsteps Py3)|].
    set (σ2 := State _ _).
    assert (stat_str (fs σ2) (os_path_join save_dir "hparams.json")
            = inr (File (CText ""))) as Hst2 by by eapply stat_str_rewritten.
    split.
    + unfold read_text. by rewrite Hst2.
    + by eapply load_hparams_not_json.
Qed.

Lemma load_save_load_hparams_witness :
  (∃ σ1 σ2 σ3 l1 l2 d,
     load_hparams "models" stored_state = (Return (Some l1), σ1)
     ∧ save_hparams Py2 l1 "models" σ1 = (Return tt, σ2)
     ∧ load_hparams "models" σ2 = (Return (Some l2), σ3)
     ∧ heap σ3 !! l1 = Some d
     ∧ heap σ3 !! l2 = Some d
     ∧ d !! "seed" = Some (PInt 5)
     ∧ d !! "rng" = Some (PRandomState (5 + 1000))
     ∧ l1 ≠ l2)
  ∧ (∃ σ1 σ2 l1,
       load_hparams "models" stored_state = (Return (Some l1), σ1)
       ∧ save_hparams Py3 l1 "models" σ1 = (Raise TypeError, σ2)
       ∧ read_text σ2 (os_path_join "models" "hparams.json") = Some ""
       ∧ load_hparams "models" σ2 = (Raise ValueError, σ2)).
Proof.
  apply (load_save_load_hparams stored_state "models"
           [("seed", JInt 5); ("rules", JArr [JStr "go"; JStr "dm"])]);
    [reflexivity | reflexivity | by vm_compute].
Defined.

(** ** What [mkdir_p] leaves in place *)

(** A new entry hides nothing that was reachable. *)
Lemma stat_insert_mono t p x q n :
  stat t q = inr n → t !! p = None → is_root p = false →
  stat (<[p := x]> t) q = inr n.
Proof.
  intros Hq Hnone Hr. revert n Hq.
  induction q as [|c q IH]; intros n Hq; [done|].
  pose proof (stat_inr_parent _ _ _ _ Hq) as Hparent.
  rewrite stat_cons in Hq |- *. rewrite Hparent in Hq. rewrite (IH _ Hparent).
  destruct (is_root (c :: q)) eqn:Hrq; [done|].
  rewrite lookup_insert_ne; [done|].
  intros Heq. rewrite Heq in Hnone. by rewrite Hnone in Hq.
Qed.

Lemma mkdir_wf t p t' : fs_wf t → mkdir t p = inr t' → fs_wf t'.
Proof.
  intros Hwf Hmk. destruct p as [|c parent]; [done|].
  pose proof Hmk as (-> & _ & Hnone)%mkdir_inr.
  rewrite mkdir_cons in Hmk.
  destruct (stat t parent) as [e|[|x]] eqn:Hp; try done.
  destruct (is_root (c :: parent)) eqn:Hr; [done|].
  intros q n [[<- <-]|[Hne Hq]]%lookup_insert_Some.
  - split; [done|]. simpl.
    rewrite stat_insert_frame by apply not_suffix_cons. by rewrite Hp.
  - destruct (Hwf q n Hq) as [Hrq Hdq]. split; [done|].
    destruct (stat t (tail q)) as [e|[|x]] eqn:Hs; try done.
    by rewrite (stat_insert_mono _ _ _ _ _ Hs Hnone Hr).
Qed.

(** [makedirs] only adds entries, on the way to the path, and keeps the
    filesystem well formed. *)
Lemma makedirs_preserves t p t' :
  makedirs t p = inr t' →
  (∀ q n, t !! q = Some n → t' !! q = Some n)
  ∧ (∀ q, ¬ q `suffix_of` p → t' !! q = t !! q)
  ∧ (fs_wf t → fs_wf t').
Proof.
  revert t t'. induction p as [|c head IH]; intros t t'; [done|].
  assert (∀ t0, mkdir t0 (c :: head) = inr t' →
            (∀ q n, t0 !! q = Some n → t' !! q = Some n)
            ∧ (∀ q, ¬ q `suffix_of` c :: head → t' !! q = t0 !! q)
            ∧ (fs_wf t0 → fs_wf t')) as Hlast.
  { intros t0 Hmk. pose proof Hmk as (-> & _ & Hnone)%mkdir_inr.
    split_and!.
    - intros q n Hq. rewrite lookup_insert_ne; [done|].
      intros <-. by rewrite Hnone in Hq.
    - intros q Hq. apply lookup_insert_ne. intros <-. by apply Hq.
    - intros Hwf. by eapply mkdir_wf. }
  rewrite makedirs_cons. destruct (negb _); [|apply Hlast].
  destruct (makedirs t head) as [e|t1] eqn:Hhead.
  - destruct (errno_eqb e EEXIST); [apply Hlast|done].
  - intros Hmk. destruct (IH _ _ Hhead) as (Hkeep1 & Hframe1 & Hwf1).
    destruct (Hlast _ Hmk) as (Hkeep & Hframe & Hwf).
    split_and!.
    + intros q n Hq. by apply Hkeep, Hkeep1.
    + intros q Hq. rewrite Hframe by done. apply Hframe1.
      intros Hs. apply Hq. by apply suffix_cons_r.
    + intros Hwf0. by apply Hwf, Hwf1.
Qed.

(** Below a reachable directory every component is a directory. *)
Lemma stat_dir_ancestors t p q :
  stat t p = inr Dir → q `suffix_of` p → stat t q = inr Dir.
Proof.
  induction p as [|c p IH]; intros Hp Hq.
  - by apply suffix_nil_inv in Hq as ->.
  - apply suffix_cons_cases in Hq as [->|Hq]; [done|].
    apply IH; [|done]. by eapply stat_inr_parent.
Qed.

Lemma mkdir_p_frame σ σ1 path :
  mkdir_p path σ = (Return tt, σ1) →
  heap σ1 = heap σ
  ∧ (∀ q n, fs σ !! q = Some n → fs σ1 !! q = Some n)
  ∧ (∀ q, ¬ q `suffix_of` resolve path → fs σ1 !! q = fs σ !! q)
  ∧ (fs_wf (fs σ) → fs_wf (fs σ1)).
Proof.
  intros Hret.
  pose proof (mkdir_p_return_isdir _ _ _ Hret) as [Hdir Hheap].
  apply stat_str_inr in Hdir as [Hne Hdir].
  split; [done|].
  revert Hret. unfold mkdir_p, try_except. rewrite os_makedirs_run by done.
  destruct (makedirs (fs σ) (resolve path)) as [e|t'] eqn:Hmk.
  - destruct e; simpl; try done.
    unfold os_path_isdir. run.
    destruct (stat_str (fs σ) path) as [e|[|c]]; try done.
    by intros [= <-].
  - intros [= <-]. simpl. by apply makedirs_preserves.
Qed.

(** X6. When [mkdir_p] returns on a path without [".."] component, every
    component of the path is a directory; no entry that existed has been
    removed or changed, nothing has been created off the path, the heap is
    untouched, and a well-formed filesystem is still well formed. *)
Theorem mkdir_p_keeps_entries (σ σ1 : state) (path : string) :
  no_dotdot path = true →
  mkdir_p path σ = (Return tt, σ1) →
  heap σ1 = heap σ
  ∧ (∀ q, q `suffix_of` resolve path → stat (fs σ1) q = inr Dir)
  ∧ (∀ q n, fs σ !! q = Some n → fs σ1 !! q = Some n)
  ∧ (∀ q, ¬ q `suffix_of` resolve path → fs σ1 !! q = fs σ !! q)
  ∧ (fs_wf (fs σ) → fs_wf (fs σ1)).
Proof.
  intros _ Hret.
  pose proof (mkdir_p_return_isdir _ _ _ Hret) as [Hdir _].
  apply stat_str_inr in Hdir as [_ Hdir].
  destruct (mkdir_p_frame _ _ _ Hret) as (Hheap & Hkeep & Hframe & Hwf).
  split_and!.
  - exact Hheap.
  - intros q Hq. by eapply stat_dir_ancestors.
  - exact Hkeep.
  - exact Hframe.
  - exact Hwf.
Qed.

Lemma mkdir_p_keeps_entries_witness :
  heap (mkdir_p "jobs/sbatch" file_state).2 = heap file_state
  ∧ (∀ q, q `suffix_of` resolve "jobs/sbatch" →
          stat (fs (mkdir_p "jobs/sbatch" file_state).2) q = inr Dir)
  ∧ (∀ q n, fs file_state !! q = Some n →
            fs (mkdir_p "jobs/sbatch" file_state).2 !! q = Some n)
  ∧ (∀ q, ¬ q `suffix_of` resolve "jobs/sbatch" →
          fs (mkdir_p "jobs/sbatch" file_state).2 !! q = fs file_state !! q)
  ∧ (fs_wf (fs file_state) → fs_wf (fs (mkdir_p "jobs/sbatch" file_state).2)).
Proof.
  destruct (mkdir_p_keeps_entries file_state
              (mkdir_p "jobs/sbatch" file_state).2 "jobs/sbatch"
              eq_refl eq_refl)
    as (H1 & H2 & H3 & H4 & H5).
  split_and!; done.
Defined.

(** ** [write_jobfile]: failure, repetition, footprint *)

Lemma mkdir_p_blocked σ path :
  path = "" ∨ blocked (fs σ) (resolve path) →
  ∃ en, mkdir_p path σ = (Raise (OSError en), σ).
Proof.
  intros [->|Hb]; [by exists ENOENT|].
  destruct (String.eqb_spec path "") as [->|Hne]; [by exists ENOENT|].
  apply blocked_stat in Hb as [Hf|He].
  - destruct (stat (fs σ) (resolve path)) as [e|[|c]] eqn:Hst; try done.
    exists EEXIST. eapply mkdir_p_existing_file.
    by rewrite stat_str_nonempty.
  - exists ENOTDIR. apply mkdir_p_through_file.
    by rewrite stat_str_nonempty.
Qed.

(** X7. When the script directory cannot be made (its path is empty, or a
    regular file sits at it or at one of its ancestors), [write_jobfile]
    raises the [OSError] of [mkdir_p] whatever the other arguments are, and
    nothing has been written. *)
Theorem write_jobfile_needs_directory
    (cmd jobname sbatchpath scratchpath : string)
    (nodes ppn gpus mem nhours : Z) (σ : state) :
  sbatchpath = "" ∨ blocked (fs σ) (resolve sbatchpath) →
  ∃ en,
    write_jobfile cmd jobname sbatchpath scratchpath
      nodes ppn gpus mem nhours σ = (Raise (OSError en), σ).
Proof.
  intros [en Hmk]%(mkdir_p_blocked σ). exists en.
  rewrite write_jobfile_unfold. by apply run_bind_raise.
Qed.

Lemma write_jobfile_needs_directory_witness :
  ∃ en,
    write_jobfile "echo hi" "test_job" "f/jobs" "/scratch/" 1 2 0 8 1
      file_state = (Raise (OSError en), file_state).
Proof.
  apply (write_jobfile_needs_directory "echo hi" "test_job" "f/jobs"
           "/scratch/" 1 2 0 8 1 file_state).
  right. exists ["f"]. split; [by exists ["jobs"] | reflexivity].
Defined.

Lemma open_w_inv_target fname σ f σ' :
  open_w fname σ = (Return f, σ') → fs σ !! f ≠ Some Dir.
Proof.
  unfold open_w. destruct (String.eqb_spec fname ""); [done|].
  run. destruct (resolve fname) as [|c p]; [done|].
  destruct (stat (fs σ) p) as [e|[|c']] eqn:Hp; try done.
  destruct (is_root (c :: p)) eqn:Hr; [done|].
  destruct (fs σ !! (c :: p)) as [[|c']|] eqn:Hl; try done;
    intros [= <- _]; by rewrite Hl.
Qed.

(** The steps of a call of [write_jobfile] that returns. *)
Lemma write_jobfile_steps cmd jobname sbatchpath scratchpath
    nodes ppn gpus mem nhours σ p σ' :
  write_jobfile cmd jobname sbatchpath scratchpath nodes ppn gpus mem nhours σ
  = (Return p, σ') →
  ∃ σa f,
    mkdir_p sbatchpath σ = (Return tt, σa)
    ∧ p = os_path_join sbatchpath (jobname +:+ ".s")
    ∧ p ≠ "" ∧ resolve p = f ∧ is_root f = false
    ∧ stat (fs σa) (tail f) = inr Dir
    ∧ fs σa !! f ≠ Some Dir
    ∧ σ' = State (heap σa)
             (<[f := File (CText
                  (if (gpus =? 0)%Z
                   then cpu_script cmd jobname scratchpath
                          (os_path_join "log" jobname) nodes ppn mem nhours
                   else gpu_script cmd jobname scratchpath
                          (os_path_join "log" jobname) nodes ppn mem nhours))]>
                (fs σa)).
Proof.
  rewrite write_jobfile_unfold. rewrite run_bind.
  destruct (mkdir_p sbatchpath σ) as [[[]|e] σa] eqn:Hmk; [|done].
  rewrite run_bind.
  destruct (open_w _ σa) as [[f|e] σ2] eqn:Ho; [|done].
  pose proof (open_w_inv_target _ _ _ _ Ho) as Hnd.
  apply open_w_inv in Ho as (Hne & Hres & Hr & Hp & ->).
  rewrite run_bind.
  rewrite file_write_fresh by apply lookup_insert_eq.
  simpl. unfold ret. intros [= <- <-].
  exists σa, f. split_and!; try done.
  by rewrite insert_insert_eq.
Qed.

(** The script is never an ancestor of its own directory. *)
Lemma script_off_directory t dir f :
  stat t dir = inr Dir → is_root f = false → t !! f ≠ Some Dir →
  ¬ f `suffix_of` dir.
Proof.
  intros Hdir Hr Hnd Hs.
  pose proof (stat_dir_ancestors _ _ _ Hdir Hs) as Hf.
  destruct f as [|c q]; [done|].
  rewrite stat_cons, (stat_inr_parent _ _ _ _ Hf), Hr in Hf.
  destruct (t !! (c :: q)) as [n|]; [|done].
  by injection Hf as ->.
Qed.

(** X8. [write_jobfile] replaces the script, it does not append to it:
    after a call that returned, a second call for the same job name and
    script directory, with any command, working directory and resources,
    returns the same path; the file then holds exactly the text of the
    second call and no other entry has changed.  With the same arguments
    the second call changes nothing at all. *)
Theorem write_jobfile_overwrites
    (cmd cmd' jobname sbatchpath scratchpath scratchpath' : string)
    (nodes ppn gpus mem nhours nodes' ppn' gpus' mem' nhours' : Z)
    (σ σ1 : state) (p : string) :
  write_jobfile cmd jobname sbatchpath scratchpath nodes ppn gpus mem nhours σ
  = (Return p, σ1) →
  (∃ σ2,
     write_jobfile cmd' jobname sbatchpath scratchpath'
       nodes' ppn' gpus' mem' nhours' σ1 = (Return p, σ2)
     ∧ read_text σ2 p =
       Some (if (gpus' =? 0)%Z
             then cpu_script cmd' jobname scratchpath'
                    (os_path_join "log" jobname) nodes' ppn' mem' nhours'
             else gpu_script cmd' jobname scratchpath'
                    (os_path_join "log" jobname) nodes' ppn' mem' nhours')
     ∧ heap σ2 = heap σ1
     ∧ ∀ q, q ≠ resolve p → fs σ2 !! q = fs σ1 !! q)
  ∧ write_jobfile cmd jobname sbatchpath scratchpath
      nodes ppn gpus mem nhours σ1 = (Return p, σ1).
Proof.
  intros (σa & f & Hmk & Hp & Hne & Hres & Hr & Hparent & Hnd & ->)
    %write_jobfile_steps.
  pose proof (mkdir_p_return_isdir _ _ _ Hmk) as [Hdir _].
  pose proof Hdir as [Hsb Hdir']%stat_str_inr.
  pose proof (script_off_directory _ _ _ Hdir' Hr Hnd) as Hoff.
  set (txt := if (gpus =? 0)%Z then _ else _).
  set (σ1 := State (heap σa) (<[f := File (CText txt)]> (fs σa))).
  assert (mkdir_p sbatchpath σ1 = (Return tt, σ1)) as Hmk1.
  { apply mkdir_p_existing_dir. rewrite stat_str_nonempty by done.
    simpl. by rewrite stat_insert_frame. }
  assert (∀ s,
    (mkdir_p sbatchpath;;
     f0 ← open_w (os_path_join sbatchpath (jobname +:+ ".s"));
     file_write f0 s;;
     ret (os_path_join sbatchpath (jobname +:+ ".s"))) σ1
    = (Return p, State (heap σa) (<[f := File (CText s)]> (fs σa)))) as Hrun.
  { intros s. rewrite (run_bind_return _ _ _ _ _ Hmk1).
    destruct f as [|c q]; [done|]. simpl in Hparent.
    erewrite run_bind_return; cycle 1.
    { rewrite <-Hp. apply (open_w_run p σ1 c q); try done.
      - simpl. rewrite stat_insert_frame; [done|]. apply not_suffix_cons.
      - simpl. by rewrite lookup_insert_eq. }
    rewrite run_bind.
    rewrite file_write_fresh by apply lookup_insert_eq.
    simpl. unfold ret. by rewrite !insert_insert_eq, Hp. }
  split.
  - eexists. rewrite write_jobfile_unfold. split; [apply Hrun|].
    split_and!; [|done|].
    + unfold read_text. simpl.
      rewrite (stat_str_after_write _ p f); try done.
    + intros q Hq. simpl. rewrite !lookup_insert_ne; congruence.
  - rewrite write_jobfile_unfold. by rewrite Hrun.
Qed.

Lemma write_jobfile_overwrites_witness :
  (∃ σ2,
     write_jobfile "echo ho" "test_job" "jobs" "/tmp/" 2 4 1 32 24
       (write_jobfile "echo hi" "test_job" "jobs" "/scratch/" 1 2 0 8 1
          empty_state).2 = (Return "jobs/test_job.s", σ2)
     ∧ read_text σ2 "jobs/test_job.s" =
       Some (if (1 =? 0)%Z
             then cpu_script "echo ho" "test_job" "/tmp/"
                    (os_path_join "log" "test_job") 2 4 32 24
             else gpu_script "echo ho" "test_job" "/tmp/"
                    (os_path_join "log" "test_job") 2 4 32 24)
     ∧ heap σ2
       = heap (write_jobfile "echo hi" "test_job" "jobs" "/scratch/" 1 2 0 8 1
                 empty_state).2
     ∧ ∀ q, q ≠ resolve "jobs/test_job.s" →
            fs σ2 !! q
            = fs (write_jobfile "echo hi" "test_job" "jobs" "/scratch/"
                    1 2 0 8 1 empty_state).2 !! q)
  ∧ write_jobfile "echo hi" "test_job" "jobs" "/scratch/" 1 2 0 8 1
      (write_jobfile "echo hi" "test_job" "jobs" "/scratch/" 1 2 0 8 1
         empty_state).2
    = (Return "jobs/test_job.s",
       (write_jobfile "echo hi" "test_job" "jobs" "/scratch/" 1 2 0 8 1
          empty_state).2).
Proof.
  apply (write_jobfile_overwrites "echo hi" "echo ho" "test_job" "jobs"
           "/scratch/" "/tmp/" 1 2 0 8 1 2 4 1 32 24 empty_state).
  reflexivity.
Defined.

Lemma stat_insert_keeps_dirs t f x q :
  t !! f ≠ Some Dir → is_root f = false →
  stat t q = inr Dir → stat (<[f := x]> t) q = inr Dir.
Proof.
  intros Hnd Hr. induction q as [|c q IH]; intros Hq; [done|].
  pose proof (stat_inr_parent _ _ _ _ Hq) as Hparent.
  rewrite stat_cons in Hq |- *. rewrite Hparent in Hq. rewrite (IH Hparent).
  destruct (is_root (c :: q)) eqn:Hrq; [done|].
  rewrite lookup_insert_ne; [done|].
  intros Heq. destruct (t !! (c :: q)) as [n|] eqn:Hl; [|done].
  injection Hq as ->. rewrite Heq in Hnd. by rewrite Hl in Hnd.
Qed.

Lemma write_file_wf t f c :
  fs_wf t → is_root f = false → stat t (tail f) = inr Dir →
  t !! f ≠ Some Dir → fs_wf (<[f := File c]> t).
Proof.
  intros Hwf Hr Hp Hnd q n [[<- <-]|[Hne Hq]]%lookup_insert_Some.
  - split; [done|]. by rewrite (stat_insert_keeps_dirs _ _ _ _ Hnd Hr Hp).
  - destruct (Hwf q n Hq) as [Hrq Hdq]. split; [done|].
    destruct (stat t (tail q)) as [e|[|x]] eqn:Hs; try done.
    by rewrite (stat_insert_keeps_dirs _ _ _ _ Hnd Hr Hs).
Qed.

(** X9. The footprint of [write_jobfile], for a script directory and a job
    name without [".."] component: a call that returns leaves the heap
    alone, keeps every entry other than the script as it was, creates or
    changes nothing but the script file and the directories on the way to
    the script directory, and keeps a well-formed filesystem well formed. *)
Theorem write_jobfile_footprint
    (cmd jobname sbatchpath scratchpath : string)
    (nodes ppn gpus mem nhours : Z) (σ σ' : state) (p : string) :
  no_dotdot sbatchpath = true →
  no_dotdot jobname = true →
  write_jobfile cmd jobname sbatchpath scratchpath nodes ppn gpus mem nhours σ
  = (Return p, σ') →
  heap σ' = heap σ
  ∧ (∀ q n, q ≠ resolve p → fs σ !! q = Some n → fs σ' !! q = Some n)
  ∧ (∀ q, q ≠ resolve p → ¬ q `suffix_of` resolve sbatchpath →
          fs σ' !! q = fs σ !! q)
  ∧ (fs_wf (fs σ) → fs_wf (fs σ')).
Proof.
  intros _ _ (σa & f & Hmk & Hp & Hne & Hres & Hr & Hparent & Hnd & ->)
    %write_jobfile_steps.
  destruct (mkdir_p_frame _ _ _ Hmk) as (Hheap & Hkeep & Hframe & Hwf).
  simpl. split_and!; [done| | |].
  - intros q n Hq Hl. rewrite lookup_insert_ne by congruence. by apply Hkeep.
  - intros q Hq Hs. rewrite lookup_insert_ne by congruence. by apply Hframe.
  - intros Hwf0. apply write_file_wf; auto.
Qed.

Lemma write_jobfile_footprint_witness :
  heap (write_jobfile "echo hi" "test_job" "jobs" "/scratch/" 1 2 0 8 1
          file_state).2 = heap file_state
  ∧ (∀ q n, q ≠ resolve "jobs/test_job.s" → fs file_state !! q = Some n →
            fs (write_jobfile "echo hi" "test_job" "jobs" "/scratch/"
                  1 2 0 8 1 file_state).2 !! q = Some n)
  ∧ (∀ q, q ≠ resolve "jobs/test_job.s" → ¬ q `suffix_of` resolve "jobs" →
          fs (write_jobfile "echo hi" "test_job" "jobs" "/scratch/"
                1 2 0 8 1 file_state).2 !! q = fs file_state !! q)
  ∧ (fs_wf (fs file_state) →
     fs_wf (fs (write_jobfile "echo hi" "test_job" "jobs" "/scratch/"
                  1 2 0 8 1 file_state).2)).
Proof.
  apply (write_jobfile_footprint "echo hi" "test_job" "jobs" "/scratch/"
           1 2 0 8 1 file_state); reflexivity.
Defined.

(** ** The end of the script, and its resources *)

(** The lines after a line break are the lines of what follows it. *)
Lemma lines_app_newline pre s :
  lines (pre +:+ LF +:+ s) = lines pre ++ lines s.
Proof.
  induction pre as [|c pre IH]; simpl in *; [done|].
  rewrite IH. destruct (Ascii.eqb c newline); [done|].
  pose proof (lines_nonempty pre). by destruct (lines pre).
Qed.

Lemma final_line_app pre l :
  one_line l = true → final_line (pre +:+ LF +:+ l +:+ LF) = Some l.
Proof.
  intros Hl. unfold final_line.
  rewrite lines_app_newline, (lines_app_one_line l LF Hl).
  change (lines LF) with [""; ""]. simpl hd. simpl tl.
  rewrite string_app_nil_r, rev_app_distr. reflexivity.
Qed.

(** X10. Whatever the command, the job name, the directories and the
    resources are (a command of several lines included), the text of the
    script [write_jobfile] generates ends with the command followed by the
    redirection of both output streams to the log file, an empty line, and
    the line [exit 0;] as its last line.  (What a shell makes of the text
    is not modelled.) *)
Theorem write_jobfile_script_ending
    (cmd jobname sbatchpath scratchpath : string)
    (nodes ppn gpus mem nhours : Z) (σ σ' : state) (p : string) :
  write_jobfile cmd jobname sbatchpath scratchpath nodes ppn gpus mem nhours σ
  = (Return p, σ') →
  ∃ txt pre,
    read_text σ' p = Some txt
    ∧ final_line txt = Some "exit 0;"
    ∧ txt = pre +:+ LF
            +:+ (cmd +:+ " >> " +:+ os_path_join "log" jobname
                 +:+ ".log 2>&1") +:+ LF
            +:+ LF +:+ "exit 0;" +:+ LF.
Proof.
  intros (_ & Htxt & _)%write_jobfile_inv.
  destruct (script_body cmd jobname scratchpath
              (os_path_join "log" jobname) nodes ppn mem nhours
              (gpus =? 0)%Z) as (pre & Hbody).
  rewrite Hbody in Htxt.
  eexists _, (pre +:+ LF
      +:+ ("pwd > " +:+ os_path_join "log" jobname +:+ ".log") +:+ LF
      +:+ ("date >> " +:+ os_path_join "log" jobname +:+ ".log") +:+ LF
      +:+ ("which python >> " +:+ os_path_join "log" jobname +:+ ".log")).
  split; [exact Htxt|]. split.
  - match goal with
    | |- final_line (?a +:+ LF +:+ ?b +:+ LF +:+ ?c +:+ LF +:+ ?d +:+ LF
                     +:+ ?e +:+ LF +:+ LF +:+ "exit 0;" +:+ LF) = _ =>
        replace (a +:+ LF +:+ b +:+ LF +:+ c +:+ LF +:+ d +:+ LF
                 +:+ e +:+ LF +:+ LF +:+ "exit 0;" +:+ LF)
          with ((a +:+ LF +:+ b +:+ LF +:+ c +:+ LF +:+ d +:+ LF +:+ e +:+ LF)
                +:+ LF +:+ "exit 0;" +:+ LF)
          by (by rewrite !string_app_assoc)
    end.
    by apply final_line_app.
  - by rewrite !string_app_assoc.
Qed.

Lemma write_jobfile_script_ending_witness :
  ∃ txt pre,
    read_text
      (write_jobfile "false" "test_job" "jobs" "/scratch/" 1 2 0 8 1
         empty_state).2 "jobs/test_job.s" = Some txt
    ∧ final_line txt = Some "exit 0;"
    ∧ txt = pre +:+ LF
            +:+ ("false" +:+ " >> " +:+ os_path_join "log" "test_job"
                 +:+ ".log 2>&1") +:+ LF
            +:+ LF +:+ "exit 0;" +:+ LF.
Proof.
  apply (write_jobfile_script_ending "false" "test_job" "jobs"
           "/scratch/" 1 2 0 8 1 empty_state).
  reflexivity.
Defined.

(** A call returns or not according to the job name and the script
    directory alone. *)
Lemma write_jobfile_returns_alike
    cmd cmd' jobname sbatchpath scratchpath scratchpath'
    nodes ppn gpus mem nhours nodes' ppn' gpus' mem' nhours' σ σ' p :
  write_jobfile cmd jobname sbatchpath scratchpath nodes ppn gpus mem nhours σ
  = (Return p, σ') →
  ∃ σ'',
    write_jobfile cmd' jobname sbatchpath scratchpath'
      nodes' ppn' gpus' mem' nhours' σ = (Return p, σ'').
Proof.
  intros (σa & f & Hmk & Hp & Hne & Hres & Hr & Hparent & Hnd & _)
    %write_jobfile_steps.
  rewrite write_jobfile_unfold.
  rewrite (run_bind_return _ _ _ _ _ Hmk).
  destruct f as [|c q]; [done|]. simpl in Hparent.
  erewrite run_bind_return; cycle 1.
  { rewrite <-Hp. by apply (open_w_run p σa c q). }
  rewrite run_bind.
  rewrite file_write_fresh by apply lookup_insert_eq.
  rewrite <-Hp. by eexists.
Qed.

Ltac header_line pre :=
  eapply (embeds_line_at _ pre);
  unfold cpu_script, gpu_script; rewrite ?string_app_assoc; reflexivity.

(** The header lines both templates share. *)
Lemma script_header cmd jobname scratchpath logname
    nodes ppn mem nhours (cpu : bool) :
  let txt :=
    if cpu
    then cpu_script cmd jobname scratchpath logname nodes ppn mem nhours
    else gpu_script cmd jobname scratchpath logname nodes ppn mem nhours in
  String.prefix ("#! /bin/bash" +:+ LF) txt = true
  ∧ embeds_line ("#SBATCH --nodes=" +:+ fmt nodes) txt = true
  ∧ embeds_line "#SBATCH --ntasks-per-node=1" txt = true
  ∧ embeds_line ("#SBATCH --cpus-per-task=" +:+ fmt ppn) txt = true
  ∧ embeds_line ("#SBATCH --mem=" +:+ fmt mem +:+ "GB") txt = true
  ∧ embeds_line ("#SBATCH --time=" +:+ fmt nhours +:+ ":00:00") txt = true.
Proof.
  destruct cpu; cbv zeta; split_and!; try reflexivity.
  - header_line ("#! /bin/bash" +:+ LF).
  - header_line ("#! /bin/bash" +:+ LF +:+ LF
      +:+ "#SBATCH --nodes=" +:+ fmt nodes).
  - header_line ("#! /bin/bash" +:+ LF +:+ LF
      +:+ "#SBATCH --nodes=" +:+ fmt nodes +:+ LF
      +:+ "#SBATCH --ntasks-per-node=1").
  - header_line ("#! /bin/bash" +:+ LF +:+ LF
      +:+ "#SBATCH --nodes=" +:+ fmt nodes +:+ LF
      +:+ "#SBATCH --ntasks-per-node=1" +:+ LF
      +:+ "#SBATCH --cpus-per-task=" +:+ fmt ppn).
  - header_line ("#! /bin/bash" +:+ LF +:+ LF
      +:+ "#SBATCH --nodes=" +:+ fmt nodes +:+ LF
      +:+ "#SBATCH --ntasks-per-node=1" +:+ LF
      +:+ "#SBATCH --cpus-per-task=" +:+ fmt ppn +:+ LF
      +:+ "#SBATCH --mem=" +:+ fmt mem +:+ "GB").
  - header_line ("#! /bin/bash" +:+ LF).
  - header_line ("#! /bin/bash" +:+ LF +:+ LF
      +:+ "#SBATCH --nodes=" +:+ fmt nodes).
  - header_line ("#! /bin/bash" +:+ LF +:+ LF
      +:+ "#SBATCH --nodes=" +:+ fmt nodes +:+ LF
      +:+ "#SBATCH --ntasks-per-node=1").
  - header_line ("#! /bin/bash" +:+ LF +:+ LF
      +:+ "#SBATCH --nodes=" +:+ fmt nodes +:+ LF
      +:+ "#SBATCH --ntasks-per-node=1" +:+ LF
      +:+ "#SBATCH --cpus-per-task=" +:+ fmt ppn).
  - header_line ("#! /bin/bash" +:+ LF +:+ LF
      +:+ "#SBATCH --nodes=" +:+ fmt nodes +:+ LF
      +:+ "#SBATCH --ntasks-per-node=1" +:+ LF
      +:+ "#SBATCH --cpus-per-task=" +:+ fmt ppn +:+ LF
      +:+ "#SBATCH --mem=" +:+ fmt mem +:+ "GB" +:+ LF
      +:+ "#SBATCH --partition=gpu" +:+ LF
      +:+ "#SBATCH --gres=gpu:1").
Qed.

(** X11. [write_jobfile] validates none of its resource parameters: if a
    call returns for one choice of command, working directory and
    resources, it returns the same path for every other choice, zero and
    negative values included.  The script begins with the interpreter line
    and its header carries the values as given, in decimal (with a minus
    sign when negative), beside the fixed [--ntasks-per-node=1]. *)
Theorem write_jobfile_never_validates
    (cmd cmd' jobname sbatchpath scratchpath scratchpath' : string)
    (nodes ppn gpus mem nhours nodes' ppn' gpus' mem' nhours' : Z)
    (σ σ' : state) (p : string) :
  write_jobfile cmd jobname sbatchpath scratchpath nodes ppn gpus mem nhours σ
  = (Return p, σ') →
  (∃ σ'' txt,
     write_jobfile cmd' jobname sbatchpath scratchpath'
       nodes' ppn' gpus' mem' nhours' σ = (Return p, σ'')
     ∧ read_text σ'' p = Some txt
     ∧ String.prefix ("#! /bin/bash" +:+ LF) txt = true
     ∧ embeds_line ("#SBATCH --nodes=" +:+ fmt nodes') txt = true
     ∧ embeds_line "#SBATCH --ntasks-per-node=1" txt = true
     ∧ embeds_line ("#SBATCH --cpus-per-task=" +:+ fmt ppn') txt = true
     ∧ embeds_line ("#SBATCH --mem=" +:+ fmt mem' +:+ "GB") txt = true
     ∧ embeds_line ("#SBATCH --time=" +:+ fmt nhours' +:+ ":00:00") txt
       = true)
  ∧ (∀ n, (n < 0)%Z → fmt n = "-" +:+ fmt (- n)).
Proof.
  intros Hrun. split.
  - destruct (write_jobfile_returns_alike cmd cmd' jobname sbatchpath
                scratchpath scratchpath' nodes ppn gpus mem nhours
                nodes' ppn' gpus' mem' nhours' σ σ' p Hrun) as [σ'' Hrun'].
    pose proof Hrun' as (_ & Htxt & _)%write_jobfile_inv.
    exists σ''. eexists. split; [exact Hrun'|]. split; [exact Htxt|].
    apply (script_header cmd' jobname scratchpath'
             (os_path_join "log" jobname) nodes' ppn' mem' nhours'
             (gpus' =? 0)%Z).
  - intros n Hn. by destruct n.
Qed.

Lemma write_jobfile_never_validates_witness :
  (∃ σ'' txt,
     write_jobfile "echo hi" "test_job" "jobs" "/scratch/" (-2) 0 0 (-16) 0
       empty_state = (Return "jobs/test_job.s", σ'')
     ∧ read_text σ'' "jobs/test_job.s" = Some txt
     ∧ String.prefix ("#! /bin/bash" +:+ LF) txt = true
     ∧ embeds_line ("#SBATCH --nodes=" +:+ fmt (-2)) txt = true
     ∧ embeds_line "#SBATCH --ntasks-per-node=1" txt = true
     ∧ embeds_line ("#SBATCH --cpus-per-task=" +:+ fmt 0) txt = true
     ∧ embeds_line ("#SBATCH --mem=" +:+ fmt (-16) +:+ "GB") txt = true
     ∧ embeds_line ("#SBATCH --time=" +:+ fmt 0 +:+ ":00:00") txt = true)
  ∧ (∀ n, (n < 0)%Z → fmt n = "-" +:+ fmt (- n)).
Proof.
  apply (write_jobfile_never_validates "echo hi" "echo hi" "test_job" "jobs"
           "/scratch/" "/scratch/" 1 2 0 8 1 (-2) 0 0 (-16) 0 empty_state
           (write_jobfile "echo hi" "test_job" "jobs" "/scratch/" 1 2 0 8 1
              empty_state).2).
  reflexivity.
Defined.

(** ** Shell patterns *)

Lemma string_app_inv_tail (a b c : string) : a +:+ c = b +:+ c → a = b.
Proof.
  revert b. induction a as [|x a IH]; intros [|y b] H; simpl in H.
  - done.
  - apply (f_equal String.length) in H. simpl in H.
    rewrite string_length_app in H. lia.
  - apply (f_equal String.length) in H. simpl in H.
    rewrite string_length_app in H. lia.
  - injection H as -> H. by rewrite (IH b H).
Qed.

Lemma substring_app_prefix (a b : string) :
  String.substring 0 (String.length a) (a +:+ b) = a.
Proof.
  induction a as [|c a IH]; simpl; [by destruct b|]. by rewrite IH.
Qed.

(** Stripping ten characters undoes the extension. *)
Lemma strip10_meta n : strip10 (n +:+ ".ckpt.meta") = n.
Proof.
  unfold strip10. rewrite string_length_app. simpl String.length.
  replace (String.length n + 10 - 10) with (String.length n) by lia.
  apply substring_app_prefix.
Qed.

Lemma until_bracket_app s suf :
  no_rbracket suf = true →
  until_bracket (s +:+ suf) =
  match until_bracket s with
  | Some (a, r) => Some (a, r +:+ suf)
  | None => None
  end.
Proof.
  intros Hs. induction s as [|c s IH]; simpl.
  - induction suf as [|c suf IH]; [done|]. simpl in *.
    apply andb_true_iff in Hs as [Hc Hs]. apply negb_true_iff in Hc.
    by rewrite Hc, (IH Hs).
  - destruct (Ascii.eqb c rbracket); [done|].
    rewrite IH. by destruct (until_bracket s) as [[a r]|].
Qed.

Lemma until_bracket_shorter s a r :
  until_bracket s = Some (a, r) → String.length r < String.length s.
Proof.
  revert a r. induction s as [|c s IH]; intros a r; simpl; [done|].
  destruct (Ascii.eqb c rbracket).
  - intros [= <- <-]. lia.
  - destruct (until_bracket s) as [[a' r']|]; [|done].
    intros [= <- <-]. specialize (IH _ _ eq_refl). lia.
Qed.

Lemma prepend_inv c x a r :
  prepend c x = Some (a, r) → ∃ a', x = Some (a', r) ∧ a = String c a'.
Proof.
  destruct x as [[a' r']|]; [|done]. intros [= <- <-]. by eexists.
Qed.

Lemma find_class_shorter s a r :
  find_class s = Some (a, r) → String.length r < String.length s.
Proof.
  destruct s as [|c s1]; [done|]. cbn [find_class].
  destruct (Ascii.eqb c bang).
  - destruct s1 as [|c' s2]; [done|].
    destruct (Ascii.eqb c' rbracket).
    + intros (a1 & (a2 & H%until_bracket_shorter & _)%prepend_inv & _)
        %prepend_inv. simpl. lia.
    + intros (a1 & H%until_bracket_shorter & _)%prepend_inv.
      simpl in *. lia.
  - destruct (Ascii.eqb c rbracket).
    + intros (a1 & H%until_bracket_shorter & _)%prepend_inv. simpl. lia.
    + by intros H%until_bracket_shorter.
Qed.

Lemma until_bracket_none s : no_rbracket s = true → until_bracket s = None.
Proof.
  induction s as [|c s IH]; [done|]. simpl.
  intros [Hc Hs]%andb_true_iff. apply negb_true_iff in Hc.
  by rewrite Hc, IH.
Qed.

Lemma no_rbracket_tail c s : no_rbracket (String c s) = true → no_rbracket s = true.
Proof. simpl. by intros [_ ?]%andb_true_iff. Qed.

Lemma find_class_none s : no_rbracket s = true → find_class s = None.
Proof.
  intros Hs. destruct s as [|c s1]; [done|]. cbn [find_class].
  pose proof (no_rbracket_tail _ _ Hs) as Hs1.
  destruct (Ascii.eqb c bang).
  - destruct s1 as [|c' s2]; [done|].
    pose proof (no_rbracket_tail _ _ Hs1) as Hs2.
    destruct (Ascii.eqb c' rbracket).
    + rewrite (until_bracket_none s2) by done; reflexivity.
    + rewrite (until_bracket_none (String c' s2)) by done; reflexivity.
  - destruct (Ascii.eqb c rbracket).
    + rewrite (until_bracket_none s1) by done; reflexivity.
    + rewrite (until_bracket_none (String c s1)) by done; reflexivity.
Qed.

Lemma find_class_app s suf :
  no_rbracket suf = true →
  find_class (s +:+ suf) =
  match find_class s with
  | Some (a, r) => Some (a, r +:+ suf)
  | None => None
  end.
Proof.
  intros Hs.
  assert (∀ s', until_bracket (s' +:+ suf) =
                match until_bracket s' with
                | Some (a, r) => Some (a, r +:+ suf)
                | None => None
                end) as Happ by (intros; by apply until_bracket_app).
  assert (∀ c x, prepend c match x with
                           | Some (a, r) => Some (a, r +:+ suf)
                           | None => None
                           end
                 = match prepend c x with
                   | Some (a, r) => Some (a, r +:+ suf)
                   | None => None
                   end) as Hpre by (by intros c [[a r]|]).
  destruct s as [|c s1].
  - change ("" +:+ suf) with suf. by rewrite find_class_none.
  - destruct (Ascii.eqb c bang) eqn:Hb.
    + destruct s1 as [|c' s2].
      * change (String c "" +:+ suf) with (String c suf).
        rewrite (find_class_none (String c suf)).
        { unfold find_class. by rewrite Hb. }
        simpl. rewrite Hs.
        destruct (Ascii.eqb c rbracket) eqn:Hr; [|done].
        apply Ascii.eqb_eq in Hb, Hr. by rewrite Hb in Hr.
      * change (String c (String c' s2) +:+ suf)
          with (String c (String c' (s2 +:+ suf))).
        unfold find_class. rewrite Hb.
        destruct (Ascii.eqb c' rbracket).
        -- by rewrite Happ, !Hpre.
        -- change (String c' (s2 +:+ suf)) with (String c' s2 +:+ suf).
           by rewrite Happ, Hpre.
    + change (String c s1 +:+ suf) with (String c (s1 +:+ suf)).
      unfold find_class. rewrite Hb.
      destruct (Ascii.eqb c rbracket).
      * by rewrite Happ, Hpre.
      * change (String c (s1 +:+ suf)) with (String c s1 +:+ suf).
        by rewrite Happ.
Qed.

Lemma translate_go_cons fuel c rest :
  translate_go (S fuel) (String c rest) =
  if Ascii.eqb c star then cons TStar <$> translate_go fuel rest
  else if Ascii.eqb c question then cons TAny <$> translate_go fuel rest
  else if Ascii.eqb c lbracket then
    match find_class rest with
    | None => cons (TLit c) <$> translate_go fuel rest
    | Some (stuff, rest') =>
        match class_token stuff, translate_go fuel rest' with
        | Some tok, Some toks => Some (tok :: toks)
        | _, _ => None
        end
    end
  else cons (TLit c) <$> translate_go fuel rest.
Proof. reflexivity. Qed.

(** A text without special characters compiles to itself. *)
Lemma translate_go_literal fuel s :
  literal s = true → String.length s ≤ fuel →
  translate_go fuel s = Some (lits s).
Proof.
  revert fuel. induction s as [|c s IH]; intros fuel Hl Hf.
  - by destruct fuel.
  - destruct fuel as [|fuel]; [simpl in Hf; lia|].
    simpl in Hl, Hf.
    apply andb_true_iff in Hl as [[[H1 H2]%andb_true_iff H3]%andb_true_iff Hl].
    apply negb_true_iff in H1, H2, H3.
    rewrite translate_go_cons, H1, H2, H3, IH by (done || lia). done.
Qed.

(** Compiling a pattern extended by a literal text without closing
    bracket: the tokens of the pattern, then the text. *)
Lemma translate_go_app suf fuel pat :
  literal suf = true → no_rbracket suf = true →
  String.length pat ≤ fuel →
  translate_go (fuel + String.length suf) (pat +:+ suf)
  = (λ toks, toks ++ lits suf) <$> translate_go fuel pat.
Proof.
  intros Hlit Hnr. revert pat.
  induction fuel as [|fuel IH]; intros pat Hlen.
  - destruct pat; [|simpl in Hlen; lia]. simpl.
    by rewrite translate_go_literal.
  - destruct pat as [|c rest].
    + change ("" +:+ suf) with suf.
      rewrite translate_go_literal by (done || lia). done.
    + simpl in Hlen.
      change (String c rest +:+ suf) with (String c (rest +:+ suf)).
      change (S fuel + String.length suf) with (S (fuel + String.length suf)).
      rewrite !translate_go_cons.
      assert (∀ t : token,
                cons t <$> translate_go (fuel + String.length suf) (rest +:+ suf)
                = (λ toks, toks ++ lits suf) <$> (cons t <$> translate_go fuel rest))
        as Hcons.
      { intros t. rewrite IH by lia. by destruct (translate_go fuel rest). }
      destruct (Ascii.eqb c star); [apply Hcons|].
      destruct (Ascii.eqb c question); [apply Hcons|].
      destruct (Ascii.eqb c lbracket); [|apply Hcons].
      rewrite find_class_app by done.
      destruct (find_class rest) as [[stuff rest']|] eqn:Hfc; [|apply Hcons].
      apply find_class_shorter in Hfc.
      rewrite IH by lia.
      destruct (class_token stuff); [|done].
      by destruct (translate_go fuel rest').
Qed.

Lemma translate_app suf pat :
  literal suf = true → no_rbracket suf = true →
  translate (pat +:+ suf) = (λ toks, toks ++ lits suf) <$> translate pat.
Proof.
  intros Hlit Hnr. unfold translate.
  rewrite string_length_app. by apply translate_go_app.
Qed.

(** ** Matching *)

Lemma glob_match_star r s :
  glob_match (TStar :: r) s =
  glob_match r s
  || match s with
     | EmptyString => false
     | String _ s' => glob_match (TStar :: r) s'
     end.
Proof. by destruct s. Qed.

Lemma glob_match_lits suf s : glob_match (lits suf) s = true ↔ s = suf.
Proof.
  revert s. induction suf as [|c suf IH]; intros [|c' s]; simpl; try done.
  rewrite andb_true_iff, IH, Ascii.eqb_eq. split.
  - by intros [-> ->].
  - by intros [= -> ->].
Qed.

(** A name matches a pattern that ends in a literal text exactly when it
    ends in that text and what comes before matches the pattern. *)
Lemma glob_match_app_lits toks suf s :
  glob_match (toks ++ lits suf) s = true
  ↔ ∃ s0, s = s0 +:+ suf ∧ glob_match toks s0 = true.
Proof.
  revert s. induction toks as [|tok toks IH]; intros s.
  - simpl app. rewrite glob_match_lits. split.
    + intros ->. by exists "".
    + intros ([|c s0] & -> & H); done.
  - assert (∀ (P : Ascii.ascii → bool) c s',
              P c && glob_match (toks ++ lits suf) s' = true
              ↔ ∃ s0, String c s' = s0 +:+ suf
                      ∧ match s0 with
                        | String c0 s0' => P c0 && glob_match toks s0'
                        | EmptyString => false
                        end = true) as Hone.
    { intros P c s'. rewrite andb_true_iff, IH. split.
      - intros (HP & s0 & -> & Hm). exists (String c s0).
        split; [done|]. by rewrite HP.
      - intros ([|c0 s0] & Heq & Hm); [done|].
        simpl in Heq. injection Heq as -> ->.
        apply andb_true_iff in Hm as [HP Hm]. split; [done|]. by exists s0. }
    assert (∀ s0, "" = s0 +:+ suf → s0 = "") as Hnil
      by (by intros [|c0 s0]).
    destruct tok as [ | |neg items|c].
    + (* star *)
      change ((TStar :: toks) ++ lits suf) with (TStar :: (toks ++ lits suf)).
      split.
      * induction s as [|c s IHs]; rewrite glob_match_star, orb_true_iff.
        -- intros [(s0 & -> & Hm)%IH|]; [|done].
           exists s0. split; [done|]. rewrite glob_match_star.
           by rewrite Hm.
        -- intros [(s0 & Heq & Hm)%IH|(s0 & -> & Hm)%IHs].
           ++ exists s0. split; [done|]. by rewrite glob_match_star, Hm.
           ++ exists (String c s0). split; [done|].
              rewrite glob_match_star, Hm. apply orb_true_r.
      * intros (s0 & -> & Hm). induction s0 as [|c s0 IHs].
        -- rewrite glob_match_star in Hm. rewrite glob_match_star.
           apply orb_true_iff in Hm as [Hm|]; [|done].
           apply orb_true_iff. left. apply IH. by exists "".
        -- rewrite glob_match_star in Hm.
           change (String c s0 +:+ suf) with (String c (s0 +:+ suf)).
           rewrite glob_match_star. apply orb_true_iff.
           apply orb_true_iff in Hm as [Hm|Hm].
           ++ left. apply IH. by exists (String c s0).
           ++ right. by apply IHs.
    + (* question mark *)
      destruct s as [|c s'].
      * split; [done|]. by intros (s0 & ->%Hnil & Hm).
      * apply (Hone (λ _, true)).
    + (* class *)
      destruct s as [|c s'].
      * split; [done|]. by intros (s0 & ->%Hnil & Hm).
      * apply (Hone (λ c0, xorb neg (in_class items c0))).
    + (* literal *)
      destruct s as [|c' s'].
      * split; [done|]. by intros (s0 & ->%Hnil & Hm).
      * apply (Hone (λ c0, Ascii.eqb c c0)).
Qed.

(** The extension cancels: [name.ckpt.meta] matches [pattern.ckpt.meta]
    exactly when [name] matches [pattern]. *)
Lemma fnmatch_meta n pat :
  fnmatch (n +:+ ".ckpt.meta") (pat +:+ ".ckpt.meta") = fnmatch n pat.
Proof.
  unfold fnmatch. rewrite translate_app by done.
  destruct (translate pat) as [toks|]; [|done].
  change (Some (glob_match (toks ++ lits ".ckpt.meta") (n +:+ ".ckpt.meta"))
          = Some (glob_match toks n)).
  f_equal. apply eq_true_iff_eq. rewrite glob_match_app_lits. split.
  - by intros (s0 & ->%string_app_inv_tail & Hm).
  - intros Hm. by exists n.
Qed.

(** What matches [pattern.ckpt.meta] ends in [.ckpt.meta]. *)
Lemma fnmatch_meta_inv f pat :
  fnmatch f (pat +:+ ".ckpt.meta") = Some true →
  ∃ n, f = n +:+ ".ckpt.meta" ∧ fnmatch n pat = Some true.
Proof.
  unfold fnmatch. rewrite translate_app by done.
  destruct (translate pat) as [toks|]; [|done].
  change (Some (glob_match (toks ++ lits ".ckpt.meta") f) = Some true
          → ∃ n, f = n +:+ ".ckpt.meta" ∧ Some (glob_match toks n) = Some true).
  intros H.
  assert (glob_match (toks ++ lits ".ckpt.meta") f = true)
    as (n & -> & Hm)%glob_match_app_lits by congruence.
  exists n. by rewrite Hm.
Qed.

(** ** The entries of a directory *)

Lemma elem_of_children t p c :
  c ∈ children t p ↔ is_root (c :: p) = false ∧ is_Some (t !! (c :: p)).
Proof.
  unfold children. rewrite list_elem_of_omap. split.
  - intros ([k n] & Hkn%elem_of_map_to_list & Hf). simpl in Hf.
    destruct k as [|c' q]; [done|].
    destruct (bool_decide (q = p)) eqn:Hq; [|done].
    apply bool_decide_eq_true in Hq as ->.
    destruct (is_root (c' :: p)) eqn:Hr; [done|].
    injection Hf as ->. split; [done|]. by eexists.
  - intros [Hr [n Hn]]. exists (c :: p, n). split.
    + by apply elem_of_map_to_list.
    + cbn beta iota delta [fst]. rewrite bool_decide_eq_true_2 by done.
      by rewrite Hr.
Qed.

Lemma NoDup_children t p : NoDup (children t p).
Proof.
  unfold children.
  pose proof (NoDup_fst_map_to_list t) as Hnd.
  induction (map_to_list t) as [|[k n] l IH]; [constructor|].
  apply NoDup_cons in Hnd as [Hk Hnd]. simpl in Hk.
  cbn [omap list_omap]. cbn beta iota delta [fst].
  destruct k as [|c q]; [by apply IH|].
  destruct (bool_decide (q = p)) eqn:Hq; [|by apply IH].
  apply bool_decide_eq_true in Hq as ->.
  destruct (is_root (c :: p)); [by apply IH|]. simpl.
  apply NoDup_cons. split; [|by apply IH].
  intros ([k' n'] & Hin & Hf)%list_elem_of_omap. simpl in Hf.
  destruct k' as [|c' q']; [done|].
  destruct (bool_decide (q' = p)) eqn:Hq'; [|done].
  apply bool_decide_eq_true in Hq' as ->.
  destruct (is_root (c' :: p)); [done|]. injection Hf as ->.
  apply Hk. apply list_elem_of_fmap. by exists (c :: p, n').
Qed.

(** ** [valid_save_names] *)

Lemma elem_of_select_names pat fnames names :
  select_names pat fnames = Some names →
  ∀ n, n ∈ names
       ↔ ∃ f, f ∈ fnames ∧ fnmatch f pat = Some true ∧ n = strip10 f.
Proof.
  revert names. induction fnames as [|f rest IH]; intros names; simpl.
  - intros [= <-] n. split; [by intros ?%elem_of_nil|].
    by intros (f & ?%elem_of_nil & _).
  - destruct (fnmatch f pat) as [b|] eqn:Hf; [|done].
    destruct (select_names pat rest) as [names'|]; [|done].
    intros [= <-] n. specialize (IH _ eq_refl n).
    destruct b.
    + rewrite elem_of_cons, IH. split.
      * intros [->|(f' & Hin & Hm & ->)].
        -- exists f. split; [by left|done].
        -- exists f'. split; [by right|done].
      * intros (f' & [->|Hin]%elem_of_cons & Hm & ->); [by left|].
        right. by exists f'.
    + rewrite IH. split.
      * intros (f' & Hin & Hm & ->). exists f'. split; [by right|done].
      * intros (f' & [->|Hin]%elem_of_cons & Hm & ->); [congruence|].
        by exists f'.
Qed.

Lemma NoDup_select_names pat fnames names :
  select_names (pat +:+ ".ckpt.meta") fnames = Some names →
  NoDup fnames → NoDup names.
Proof.
  revert names. induction fnames as [|f rest IH]; intros names; simpl.
  - intros [= <-] _. constructor.
  - destruct (fnmatch f _) as [b|] eqn:Hf; [|done].
    destruct (select_names _ rest) as [names'|] eqn:Hrest; [|done].
    intros [= <-] [Hnotin Hnd]%NoDup_cons.
    specialize (IH _ eq_refl Hnd). destruct b; [|done].
    apply NoDup_cons. split; [|done].
    intros (f' & Hin & Hm & Heq)%(elem_of_select_names _ _ _ Hrest).
    apply fnmatch_meta_inv in Hf as (n & -> & _).
    apply fnmatch_meta_inv in Hm as (n' & -> & _).
    rewrite !strip10_meta in Heq. by subst n'.
Qed.

Lemma os_listdir_data t fnames :
  os_listdir t "data/" = inr fnames →
  stat t ["data"] = inr Dir ∧ fnames = children t ["data"].
Proof.
  unfold os_listdir.
  change (stat_str t "data/") with (stat t ["data"]).
  change (resolve "data/") with ["data"].
  destruct (stat t ["data"]) as [e|[|c]]; try done. by intros [= <-].
Qed.

Lemma select_names_data pat t names :
  select_names (pat +:+ ".ckpt.meta") (children t ["data"]) = Some names →
  NoDup names
  ∧ ∀ n, n ∈ names
         ↔ is_Some (t !! [n +:+ ".ckpt.meta"; "data"])
           ∧ fnmatch n pat = Some true.
Proof.
  intros Hsel. split.
  - eapply NoDup_select_names; [done|]. apply NoDup_children.
  - intros n. rewrite (elem_of_select_names _ _ _ Hsel). split.
    + intros (f & [_ Hf]%elem_of_children & Hm & ->).
      apply fnmatch_meta_inv in Hm as (n & -> & Hm).
      by rewrite strip10_meta.
    + intros [Hf Hm]. exists (n +:+ ".ckpt.meta"). split_and!.
      * by apply elem_of_children.
      * by rewrite fnmatch_meta.
      * by rewrite strip10_meta.
Qed.

(** X12. What [valid_save_names] returns: each name once, and exactly the
    names that match the save pattern and for which [data] holds an entry
    [name.ckpt.meta].  The ten characters stripped from a file name are
    always the extension, whatever the pattern. *)
Theorem valid_save_names_exact
    (save_pattern : string) (t : filesystem) (names : list string) :
  valid_save_names save_pattern t = Listed names →
  NoDup names
  ∧ ∀ n, n ∈ names
         ↔ is_Some (t !! [n +:+ ".ckpt.meta"; "data"])
           ∧ fnmatch n save_pattern = Some true.
Proof.
  unfold valid_save_names.
  destruct (os_listdir t "data/") as [e|fnames] eqn:Hls; [done|].
  apply os_listdir_data in Hls as [Hdir ->].
  destruct (select_names _ _) as [names'|] eqn:Hsel; [|done].
  intros [= <-]. by apply select_names_data.
Qed.

Lemma valid_save_names_exact_witness :
  NoDup ["run_b"; "run_a"]
  ∧ ∀ n, n ∈ ["run_b"; "run_a"]
         ↔ is_Some (fs models_state !! [n +:+ ".ckpt.meta"; "data"])
           ∧ fnmatch n "run_?" = Some true.
Proof.
  apply (valid_save_names_exact "run_?" (fs models_state)). reflexivity.
Defined.

Lemma select_names_compiles pat toks fnames :
  translate pat = Some toks → is_Some (select_names pat fnames).
Proof.
  intros Htr. induction fnames as [|f rest [names IH]]; simpl.
  - by eexists.
  - unfold fnmatch. rewrite Htr, IH. by eexists.
Qed.

Lemma valid_save_names_listed pat toks t :
  stat_str t "data/" = inr Dir → translate pat = Some toks →
  ∃ names,
    valid_save_names pat t = Listed names
    ∧ NoDup names
    ∧ ∀ n, n ∈ names
           ↔ is_Some (t !! [n +:+ ".ckpt.meta"; "data"])
             ∧ glob_match toks n = true.
Proof.
  intros Hdir Htr. unfold valid_save_names, os_listdir. rewrite Hdir.
  change (resolve "data/") with ["data"].
  destruct (select_names_compiles (pat +:+ ".ckpt.meta")
              (toks ++ lits ".ckpt.meta") (children t ["data"]))
    as [names Hsel].
  { rewrite translate_app by done. by rewrite Htr. }
  rewrite Hsel. exists names. split; [done|].
  apply select_names_data in Hsel as [Hnd Hin]. split; [done|].
  intros n. rewrite Hin. unfold fnmatch. rewrite Htr.
  split; intros [? ?]; split; congruence.
Qed.

Lemma translate_literal s : literal s = true → translate s = Some (lits s).
Proof. intros Hl. by apply translate_go_literal. Qed.

Lemma translate_literal_app pre q :
  literal pre = true →
  translate (pre +:+ q) = (λ toks, lits pre ++ toks) <$> translate q.
Proof.
  unfold translate. induction pre as [|c pre IH]; intros Hl.
  - change ("" +:+ q) with q. by destruct (translate_go _ q).
  - simpl in Hl.
    apply andb_true_iff in Hl as [[[H1 H2]%andb_true_iff H3]%andb_true_iff Hl].
    apply negb_true_iff in H1, H2, H3.
    change (String c pre +:+ q) with (String c (pre +:+ q)).
    change (String.length (String c (pre +:+ q)))
      with (S (String.length (pre +:+ q))).
    rewrite translate_go_cons, H1, H2, H3, IH by done.
    by destruct (translate_go _ q).
Qed.

Lemma glob_match_lits_app pre toks s :
  glob_match (lits pre ++ toks) s = true
  ↔ ∃ r, s = pre +:+ r ∧ glob_match toks r = true.
Proof.
  revert s. induction pre as [|c pre IH]; intros s.
  - change (lits "" ++ toks) with toks. split.
    + intros H. by exists s.
    + by intros (r & -> & H).
  - change (lits (String c pre) ++ toks) with (TLit c :: (lits pre ++ toks)).
    destruct s as [|c' s].
    + split; [done|]. by intros (r & ? & _).
    + cbn [glob_match]. rewrite andb_true_iff, IH, Ascii.eqb_eq. split.
      * intros [-> (r & -> & H)]. by exists r.
      * intros (r & Heq & H).
        change (String c pre +:+ r) with (String c (pre +:+ r)) in Heq.
        injection Heq as -> ->. split; [done|]. by exists r.
Qed.

Lemma glob_match_star_all s : glob_match [TStar] s = true.
Proof.
  induction s as [|c s IH]; rewrite glob_match_star.
  - done.
  - rewrite IH. apply orb_true_r.
Qed.

Lemma at_most_one (Q : Prop) `{Decision Q} (p : string) (l : list string) :
  NoDup l → (∀ n, n ∈ l ↔ Q ∧ n = p) → l = if decide Q then [p] else [].
Proof.
  intros Hnd Hin. destruct (decide Q) as [HQ|HQ].
  - destruct l as [|a l].
    + exfalso. apply (not_elem_of_nil p). by apply Hin.
    + assert (a = p) as -> by (apply Hin; by left).
      destruct l as [|b l]; [done|].
      assert (b = p) as -> by (apply Hin; right; by left).
      apply NoDup_cons in Hnd as [Hnd _]. exfalso. apply Hnd. by left.
  - destruct l as [|a l]; [done|].
    exfalso. apply HQ. apply (Hin a). by left.
Qed.

(** X13. A save pattern without special characters names one model: the
    result is that name when its checkpoint is in [data], and empty
    otherwise. *)
Theorem valid_save_names_literal (save_pattern : string) (t : filesystem) :
  stat_str t "data/" = inr Dir →
  literal save_pattern = true →
  valid_save_names save_pattern t
  = Listed (if decide (is_Some (t !! [save_pattern +:+ ".ckpt.meta"; "data"]))
            then [save_pattern] else []).
Proof.
  intros Hdir Hlit.
  destruct (valid_save_names_listed save_pattern (lits save_pattern) t)
    as (names & -> & Hnd & Hin); [done|by apply translate_literal|].
  f_equal. apply at_most_one; [done|].
  intros n. rewrite Hin, glob_match_lits. split.
  - by intros [? ->].
  - by intros [? ->].
Qed.

Lemma valid_save_names_literal_witness :
  valid_save_names "run_a" (fs models_state) = Listed ["run_a"]
  ∧ valid_save_names "run_c" (fs models_state) = Listed [].
Proof.
  split.
  - by rewrite (valid_save_names_literal "run_a" (fs models_state)).
  - by rewrite (valid_save_names_literal "run_c" (fs models_state)).
Defined.

(** X14. A literal prefix followed by [*] selects the models whose name
    begins with the prefix; with the empty prefix, every checkpoint of
    [data]. *)
Theorem valid_save_names_prefix (pre : string) (t : filesystem) :
  stat_str t "data/" = inr Dir →
  literal pre = true →
  ∃ names,
    valid_save_names (pre +:+ "*") t = Listed names
    ∧ NoDup names
    ∧ ∀ n, n ∈ names
           ↔ is_Some (t !! [n +:+ ".ckpt.meta"; "data"])
             ∧ ∃ r, n = pre +:+ r.
Proof.
  intros Hdir Hlit.
  destruct (valid_save_names_listed (pre +:+ "*") (lits pre ++ [TStar]) t)
    as (names & Hv & Hnd & Hin); [done| |].
  { by rewrite translate_literal_app. }
  exists names. split_and!; [done..|].
  intros n. rewrite Hin, glob_match_lits_app. split.
  - intros [? (r & -> & _)]. split; [done|]. by exists r.
  - intros [? (r & ->)]. split; [done|]. exists r. split; [done|].
    apply glob_match_star_all.
Qed.

Lemma valid_save_names_prefix_witness :
  ∃ names,
    valid_save_names "run_*" (fs models_state) = Listed names
    ∧ NoDup names
    ∧ ∀ n, n ∈ names
           ↔ is_Some (fs models_state !! [n +:+ ".ckpt.meta"; "data"])
             ∧ ∃ r, n = "run_" +:+ r.
Proof.
  apply (valid_save_names_prefix "run_" (fs models_state)); reflexivity.
Defined.

Lemma stat_data t :
  stat t ["data"] = match t !! ["data"] with
                    | Some n => inr n
                    | None => inl ENOENT
                    end.
Proof. reflexivity. Qed.

(** X15. Without a directory [data] in the working directory the listing
    raises the [OSError] of [os.listdir], whatever the pattern: [ENOENT]
    when nothing is there, [ENOTDIR] when [data] is a file. *)
Theorem valid_save_names_needs_directory
    (save_pattern : string) (t : filesystem) :
  t !! ["data"] ≠ Some Dir →
  valid_save_names save_pattern t
  = ListOSError (match t !! ["data"] with
                 | None => ENOENT
                 | Some _ => ENOTDIR
                 end).
Proof.
  intros Hno. unfold valid_save_names, os_listdir.
  change (stat_str t "data/") with (stat t ["data"]). rewrite stat_data.
  by destruct (t !! ["data"]) as [[|c]|].
Qed.

Lemma valid_save_names_needs_directory_witness :
  valid_save_names "run_[b-a]" (fs empty_state) = ListOSError ENOENT
  ∧ valid_save_names "*" (<[ ["data"] := File (CText "") ]> (fs empty_state))
    = ListOSError ENOTDIR.
Proof.
  split.
  - by rewrite (valid_save_names_needs_directory "run_[b-a]" (fs empty_state)).
  - by rewrite (valid_save_names_needs_directory "*"
                  (<[ ["data"] := File (CText "") ]> (fs empty_state))).
Defined.

Lemma children_nil t p :
  children t p = [] ↔ ∀ c, is_root (c :: p) = false → t !! (c :: p) = None.
Proof.
  split.
  - intros Hnil c Hr. destruct (t !! (c :: p)) as [n|] eqn:Hc; [|done].
    exfalso. apply (not_elem_of_nil c). rewrite <- Hnil.
    apply elem_of_children. split; [done|]. by eexists.
  - intros Hnone. destruct (children t p) as [|c l] eqn:Hch; [done|].
    assert (c ∈ children t p) as [Hr [n Hn]]%elem_of_children
      by (rewrite Hch; by left).
    by rewrite Hnone in Hn.
Qed.

(** X16. On an empty directory [data] the result is the empty list for
    every save pattern: the pattern is only looked at when there is a file
    name to match, so even a pattern that is not well formed goes
    unnoticed. *)
Theorem valid_save_names_empty_directory
    (save_pattern : string) (t : filesystem) :
  t !! ["data"] = Some Dir →
  (∀ c, t !! [c; "data"] = None) →
  valid_save_names save_pattern t = Listed [].
Proof.
  intros Hdir Hnone. unfold valid_save_names, os_listdir.
  change (stat_str t "data/") with (stat t ["data"]).
  rewrite stat_data, Hdir. change (resolve "data/") with ["data"].
  assert (children t ["data"] = []) as ->; [|done].
  apply children_nil. intros c _. apply Hnone.
Qed.

Lemma valid_save_names_empty_directory_witness :
  valid_save_names "run_[b-a]" (fs data_state) = Listed []
  ∧ valid_save_names "run_*" (fs data_state) = Listed [].
Proof.
  split.
  - apply (valid_save_names_empty_directory "run_[b-a]" (fs data_state));
      [reflexivity|].
    intros c. apply lookup_singleton_ne. congruence.
  - apply (valid_save_names_empty_directory "run_*" (fs data_state));
      [reflexivity|].
    intros c. apply lookup_singleton_ne. congruence.
Defined.

(** ** Seeds numpy refuses *)

(** X17. A stored integer seed is accepted only if it is still in numpy's
    range after the offset: when the seed plus 1000 is negative or exceeds
    [2**32 - 1], [load_hparams] raises [ValueError], returns no mapping and
    leaves the filesystem as it was. *)
Theorem load_hparams_seed_out_of_range
    (σ : state) (save_dir : string) (doc : jsondoc) (seed : Z) :
  stat_str (fs σ) (os_path_join save_dir "hparams.json")
  = inr (File (CJson doc)) →
  decode_dict doc !! "seed" = Some (PInt seed) →
  (seed + 1000 < 0 ∨ max_seed < seed + 1000)%Z →
  ∃ σ', load_hparams save_dir σ = (Raise ValueError, σ') ∧ fs σ' = fs σ.
Proof.
  intros Hst Hseed Hrange. rewrite (load_hparams_decoded _ _ _ Hst).
  set (σ1 := State _ _).
  assert (heap σ1 !! length (heap σ) = Some (decode_dict doc)) as Hl
    by apply lookup_snoc_new.
  exists σ1. split; [|done].
  assert (dict_getitem (length (heap σ)) "seed" σ1 = (Return (PInt seed), σ1))
    as Hget.
  { unfold dict_getitem.
    rewrite (run_bind_return _ _ _ _ _ (deref_run _ _ _ Hl)).
    by rewrite Hseed. }
  rewrite (run_bind_return _ _ _ _ _ Hget).
  rewrite (run_bind_return _ _ σ1 (PInt (seed + 1000)) σ1) by reflexivity.
  apply run_bind_raise. by apply RandomState_out_of_range.
Qed.

Lemma load_hparams_seed_out_of_range_witness :
  (∃ σ', load_hparams "models" negative_seed_state = (Raise ValueError, σ')
         ∧ fs σ' = fs negative_seed_state)
  ∧ (∃ σ', load_hparams "models" large_seed_state = (Raise ValueError, σ')
           ∧ fs σ' = fs large_seed_state).
Proof.
  split.
  - apply (load_hparams_seed_out_of_range negative_seed_state "models"
             [("seed", JInt (-2000))] (-2000));
      [reflexivity | reflexivity | left; by vm_compute].
  - apply (load_hparams_seed_out_of_range large_seed_state "models"
             [("seed", JInt 4294967295)] 4294967295);
      [reflexivity | reflexivity | right; by vm_compute].
Defined.

(** ** Saving under Python 3 *)

(** X18. Under Python 3, [save_hparams] never stores anything: for every
    mapping with a generator entry and every existing directory, the call
    raises [TypeError] at the first write into the file it has opened in
    binary mode.  The file is left empty, whatever was stored before, so
    that [load_hparams] then raises [ValueError]; no other entry changes
    and the caller's mapping is intact. *)
Theorem save_hparams_python3_raises
    (σ : state) (hparams : nat) (d : dict) (save_dir : string) :
  heap σ !! hparams = Some d →
  is_Some (d !! "rng") →
  is_dir (stat_str (fs σ) save_dir) = true →
  is_dir (stat_str (fs σ) (os_path_join save_dir "hparams.json")) = false →
  ∃ σ1,
    save_hparams Py3 hparams save_dir σ = (Raise TypeError, σ1)
    ∧ read_text σ1 (os_path_join save_dir "hparams.json") = Some ""
    ∧ (∀ q, q ≠ "hparams.json" :: resolve save_dir → fs σ1 !! q = fs σ !! q)
    ∧ heap σ1 !! hparams = Some d
    ∧ load_hparams save_dir σ1 = (Raise ValueError, σ1).
Proof.
  intros H Hrng Hdir Hnd.
  rewrite (save_hparams_py3 σ hparams d save_dir) by done.
  set (σ1 := State _ _).
  assert (stat_str (fs σ1) (os_path_join save_dir "hparams.json")
          = inr (File (CText ""))) as Hst by by apply stat_str_written.
  exists σ1. split_and!.
  - done.
  - unfold read_text. by rewrite Hst.
  - intros q Hq. simpl. by rewrite lookup_insert_ne.
  - simpl. rewrite lookup_app_l; [done|]. by eapply lookup_lt_Some.
  - by eapply load_hparams_not_json.
Qed.

Lemma save_hparams_python3_raises_witness :
  ∃ σ1,
    save_hparams Py3 0 "models" sample_state = (Raise TypeError, σ1)
    ∧ read_text σ1 (os_path_join "models" "hparams.json") = Some ""
    ∧ (∀ q, q ≠ "hparams.json" :: resolve "models" →
            fs σ1 !! q = fs sample_state !! q)
    ∧ heap σ1 !! 0 = Some sample_hparams
    ∧ load_hparams "models" σ1 = (Raise ValueError, σ1).
Proof.
  apply (save_hparams_python3_raises sample_state 0 sample_hparams "models");
    [reflexivity | by eexists | reflexivity | reflexivity].
Defined.
